(** * Browser navigation with automatic search: a model of
      [src/playwright_browser.py] and of the snapshot formatters of
      [src/main.py].

    The Python module drives a remote browser through Playwright.  Playwright
    itself is not part of the repository, so every call into it is an
    operation of an interface ([Playwright]) over an arbitrary world: the
    operation may return a value or raise, and may change the world.  The
    repository's own functions are written over that interface in a state and
    exception monad; the two lists [warnings] and [errors], which the Python
    code creates once and mutates in place, live in the monad's state, and so
    does a chronological trace of the calls made into Playwright.

    The HTTP layer around it is modelled as well: the helpers and the
    snapshot and task endpoints of [src/main.py], the policy of
    [src/policy.py], the store in memory of [src/state_store.py] and the
    readers of the environment of [src/config.py].  These are functions on
    texts, lists and dicts; the state of a module (the snapshot cache, the
    store) is passed in and out.

    Conventions:
    - calls to [logger] are left out (they touch none of the values below);
    - an exception is an instance of Python's [Exception]; signals that are
      not ([KeyboardInterrupt], task cancellation) are outside the model;
    - the strings that go to and come from the browser are byte strings, and
      their case conversion is that of ASCII;
    - the texts of the HTTP layer ([PyText.str]) are sequences of code
      points; white space is that of [str.isspace], and [str.lower] is an
      operation of the interpreter ([PyText.Unicode]), of which nothing is
      assumed. *)

From Stdlib Require Import String Ascii List ZArith Lia Bool DecimalString Sorted.
Import ListNotations.
Open Scope string_scope.

(** [l.append(x)] on a Python list. *)
Definition py_append {A : Type} (l : list A) (x : A) : list A := (l ++ [x])%list.

(** ** Python strings *)

Module PyStr.

Definition dquote : string := String (ascii_of_nat 34) EmptyString.
Definition newline : string := String (ascii_of_nat 10) EmptyString.

(** [q s] is [s] between double quotes. *)
Definition q (s : string) : string := dquote ++ s ++ dquote.

(** Truth value of a string: [bool(s)]. *)
Definition truthy (s : string) : bool :=
  match s with EmptyString => false | String _ _ => true end.

(** Truth value of an [Optional[str]]. *)
Definition truthy_opt (o : option string) : bool :=
  match o with None => false | Some s => truthy s end.

Definition lower_ascii (c : ascii) : ascii :=
  let n := nat_of_ascii c in
  if (65 <=? n)%nat && (n <=? 90)%nat then ascii_of_nat (n + 32) else c.

Definition upper_ascii (c : ascii) : ascii :=
  let n := nat_of_ascii c in
  if (97 <=? n)%nat && (n <=? 122)%nat then ascii_of_nat (n - 32) else c.

Fixpoint map_string (f : ascii -> ascii) (s : string) : string :=
  match s with
  | EmptyString => EmptyString
  | String c s' => String (f c) (map_string f s')
  end.

(** [s.lower()] and [s.upper()]. *)
Definition lower : string -> string := map_string lower_ascii.
Definition upper : string -> string := map_string upper_ascii.

(** [pat in s]. *)
Fixpoint contains (pat s : string) : bool :=
  String.prefix pat s ||
  match s with
  | EmptyString => false
  | String _ s' => contains pat s'
  end.

(** [x in l] for a list of strings. *)
Definition in_list (x : string) (l : list string) : bool :=
  existsb (String.eqb x) l.

(** [sep.join(l)]. *)
Fixpoint join (sep : string) (l : list string) : string :=
  match l with
  | [] => EmptyString
  | [x] => x
  | x :: rest => x ++ sep ++ join sep rest
  end.

(** [s * n]. *)
Fixpoint times (s : string) (n : nat) : string :=
  match n with O => EmptyString | S n' => s ++ times s n' end.

(** [str(z)] for an integer. *)
Definition of_Z (z : Z) : string := NilZero.string_of_int (Z.to_int z).

(** [s.capitalize()]: first character upper case, the rest lower case. *)
Definition capitalize (s : string) : string :=
  match s with
  | EmptyString => EmptyString
  | String c s' => String (upper_ascii c) (lower s')
  end.

End PyStr.

(** ** Accessibility trees *)

(** A scalar attribute value, as JSON carries it from the browser. *)
Inductive Scalar : Type :=
| SNone
| SBool (b : bool)
| SInt (z : Z)
| SStr (s : string).

(** An accessibility node is a Python [dict].  Its scalar entries are kept as
    an association list in insertion order (the first entry of a key is the
    one a lookup sees); the entry under ["children"], when the key is present,
    is a list of nodes and is kept apart. *)
#[warnings="-register-all"]
Inductive Node : Type :=
| Dict (attrs : list (string * Scalar)) (children : option (list Node)).

Module PyDict.

Fixpoint lookup (key : string) (attrs : list (string * Scalar)) : option Scalar :=
  match attrs with
  | [] => None
  | (k, v) :: rest => if String.eqb key k then Some v else lookup key rest
  end.

(** [d.get(key, default)]. *)
Definition get (attrs : list (string * Scalar)) (key : string) (default : Scalar) : Scalar :=
  match lookup key attrs with Some v => v | None => default end.

(** [bool(node)]: a dict is true when it has an entry. *)
Definition truthy (node : Node) : bool :=
  match node with
  | Dict [] None => false
  | _ => true
  end.

End PyDict.

Module PyVal.

(** [str(v)], which is what an f-string writes for [{v}]. *)
Definition str (v : Scalar) : string :=
  match v with
  | SNone => "None"
  | SBool true => "True"
  | SBool false => "False"
  | SInt z => PyStr.of_Z z
  | SStr s => s
  end.

(** [bool(v)]. *)
Definition truthy (v : Scalar) : bool :=
  match v with
  | SNone => false
  | SBool b => b
  | SInt z => negb (Z.eqb z 0)
  | SStr s => PyStr.truthy s
  end.

Definition is_not_none (v : Scalar) : bool :=
  match v with SNone => false | _ => true end.

End PyVal.

(** ** The snapshot formatters *)

(** The loop both formatters end with:
    [for child in children: child_output = format_node(child, indent + 1);
     if child_output: lines.append(child_output)]. *)
Section EachChild.

Variable fmt : Node -> string.

Fixpoint each_child (cs : list Node) (lines : list string) : list string :=
  match cs with
  | [] => lines
  | child :: cs' =>
      let child_output := fmt child in
      each_child cs'
        (if PyStr.truthy child_output then py_append lines child_output else lines)
  end.

End EachChild.

(** [format_node] of [playwright_browser.py] (inside
    [_generate_accessibility_snapshot]): one [- role "name"] line per node,
    two spaces of indentation per level. *)
Fixpoint format_node (node : Node) (indent : nat) {struct node} : string :=
  match node with
  | Dict attrs children =>
      if negb (PyDict.truthy node) then "" else
      let prefix := PyStr.times "  " indent in
      let role := PyDict.get attrs "role" (SStr "unknown") in
      let name := PyDict.get attrs "name" (SStr "") in
      let lines :=
        if PyVal.truthy name
        then [prefix ++ "- " ++ PyVal.str role ++ " " ++ PyStr.q (PyVal.str name)]
        else [prefix ++ "- " ++ PyVal.str role] in
      let lines :=
        match children with
        | None => lines
        | Some cs => each_child (fun child => format_node child (S indent)) cs lines
        end in
      PyStr.join PyStr.newline lines
  end.

(** The property lines of the richer formatter: for each of ["value"],
    ["checked"], ["selected"], in that order, a line when the key is present
    and its value is not [None]. *)
Fixpoint prop_lines (prefix : string) (attrs : list (string * Scalar))
    (prop_keys : list string) (lines : list string) : list string :=
  match prop_keys with
  | [] => lines
  | prop_key :: rest =>
      prop_lines prefix attrs rest
        (match PyDict.lookup prop_key attrs with
         | Some v =>
             if PyVal.is_not_none v
             then py_append lines (prefix ++ "  " ++ PyStr.capitalize prop_key ++ ": " ++ PyVal.str v)
             else lines
         | None => lines
         end)
  end.

(** [format_node] of [main.py] (inside [_generate_accessibility_snapshot_async]
    and its synchronous twin): a [[role]] line, then [Name:], [Description:]
    and property lines, then the children. *)
Fixpoint format_node_rich (node : Node) (indent : nat) {struct node} : string :=
  match node with
  | Dict attrs children =>
      if negb (PyDict.truthy node) then "" else
      let prefix := PyStr.times "  " indent in
      let role := PyDict.get attrs "role" (SStr "unknown") in
      let name := PyDict.get attrs "name" (SStr "") in
      let description := PyDict.get attrs "description" (SStr "") in
      let lines := [prefix ++ "[" ++ PyVal.str role ++ "]"] in
      let lines :=
        if PyVal.truthy name
        then py_append lines (prefix ++ "  Name: " ++ PyVal.str name) else lines in
      let lines :=
        if PyVal.truthy description
        then py_append lines (prefix ++ "  Description: " ++ PyVal.str description) else lines in
      let lines := prop_lines prefix attrs ["value"; "checked"; "selected"] lines in
      let lines :=
        match children with
        | None => lines
        | Some cs => each_child (fun child => format_node_rich child (S indent)) cs lines
        end in
      PyStr.join PyStr.newline lines
  end.

(** ** Exceptions and outcomes *)

(** An instance of [Exception]; [ValueError] and [TypeError] are the two
    classes the module's own code can raise, [Error] is anything raised from
    inside Playwright.  The string is [str(e)]. *)
Inductive exn : Type :=
| ValueError (msg : string)
| TypeError (msg : string)
| Error (msg : string).

Definition str_exn (e : exn) : string :=
  match e with ValueError m | TypeError m | Error m => m end.

(** The outcome of a call: a value, or an exception in flight. *)
Inductive Res (A : Type) : Type :=
| Ok (a : A)
| Raise (e : exn).
Arguments Ok {A} a.
Arguments Raise {A} e.

Definition is_ok {A : Type} (r : Res A) : bool :=
  match r with Ok _ => true | Raise _ => false end.

(** ** Playwright handles *)

Inductive Browser : Type := browser_handle (id : nat).
Inductive BrowserContext : Type := context_handle (id : nat).
Inductive Page : Type := page_handle (id : nat).

(** A locator is a description of how to find elements, built without
    touching the browser: [page.locator(sel)], [page.get_by_role(role,
    name=..., exact=...)], [loc.locator(sel)], [loc.first]; [nth] names the
    members of a resolved list. *)
Inductive Locator : Type :=
| page_locator (page : Page) (selector : string)
| get_by_role (page : Page) (role name : string) (exact : bool)
| sub_locator (parent : Locator) (selector : string)
| first (l : Locator)
| nth (l : Locator) (i : nat).

(** What [page.locator('button').all()] evaluates to where the module writes
    it, with no [await]: the list of locators under an API whose [all] is a
    plain method, the coroutine object under the asynchronous API. *)
Inductive AllValue : Type :=
| all_list (l : list Locator)
| all_coroutine.

(** One call into Playwright with its arguments and its outcome. *)
Inductive Event : Type :=
| EEnter (r : Res unit)
| EExit (r : Res unit)
| ELaunch (r : Res Browser)
| ENewContext (b : Browser) (r : Res BrowserContext)
| EAddInitScript (c : BrowserContext) (r : Res unit)
| ENewPage (c : BrowserContext) (r : Res Page)
| EGoto (p : Page) (url wait_until : string) (timeout : Z) (r : Res unit)
| EWaitForTimeout (p : Page) (ms : Z) (r : Res unit)
| EWaitForLoadState (p : Page) (state : string) (timeout : Z) (r : Res unit)
| EAccessibilitySnapshot (p : Page) (r : Res (option Node))
| EEvaluateDom (p : Page) (r : Res string)
| EIsVisible (l : Locator) (r : Res bool)
| EClick (l : Locator) (r : Res unit)
| EFill (l : Locator) (text : option string) (r : Res unit)
| EPress (l : Locator) (key : string) (r : Res unit)
| ECount (l : Locator) (r : Res Z)
| EInnerText (l : Locator) (r : Res string)
| ETagName (l : Locator) (r : Res string)
| EAll (l : Locator) (r : Res AllValue).

(** The operations of Playwright the module calls.  Each takes the world and
    answers with an outcome and the world after the call.  Where the Python
    code applies a method to the value it got back ([tag_name.upper()],
    [text.lower()], [form_count > 0]), a value of another type makes that
    method raise inside the same [try]; such a value is the [Raise] outcome
    of the operation here. *)
Class Playwright (World : Type) : Type := {
  (** [async_playwright().__aenter__()] and [__aexit__] *)
  pw_enter : World -> Res unit * World;
  pw_exit : World -> Res unit * World;
  (** [p.chromium.launch(headless=True, args=[...])] *)
  pw_launch : World -> Res Browser * World;
  (** [browser.new_context(viewport=..., user_agent=..., locale=..., timezone_id=...)] *)
  pw_new_context : Browser -> World -> Res BrowserContext * World;
  (** [context.add_init_script(...)] *)
  pw_add_init_script : BrowserContext -> World -> Res unit * World;
  pw_new_page : BrowserContext -> World -> Res Page * World;
  pw_goto : Page -> string -> string -> Z -> World -> Res unit * World;
  pw_wait_for_timeout : Page -> Z -> World -> Res unit * World;
  pw_wait_for_load_state : Page -> string -> Z -> World -> Res unit * World;
  (** [page.accessibility.snapshot()] *)
  pw_accessibility_snapshot : Page -> World -> Res (option Node) * World;
  (** [page.evaluate(...)] on the fallback DOM script *)
  pw_evaluate_dom : Page -> World -> Res string * World;
  pw_is_visible : Locator -> World -> Res bool * World;
  pw_click : Locator -> World -> Res unit * World;
  pw_fill : Locator -> option string -> World -> Res unit * World;
  pw_press : Locator -> string -> World -> Res unit * World;
  pw_count : Locator -> World -> Res Z * World;
  pw_inner_text : Locator -> World -> Res string * World;
  (** [locator.evaluate("el => el.tagName")] *)
  pw_tag_name : Locator -> World -> Res string * World;
  pw_all : Locator -> World -> Res AllValue * World
}.

(** The record [browser_navigate] returns (a dict with these seven keys). *)
Record NavigationResult : Type := mkResult {
  success : bool;
  url : string;
  search_performed : bool;
  search_query : option string;
  snapshot : string;
  res_warnings : list string;
  res_errors : list string
}.

(** ** The monad *)

Section Model.

Context {World : Type} {PW : Playwright World}.

(** The state a call of [browser_navigate] runs in: the world behind
    Playwright, the two accumulator lists, and the calls made so far. *)
Record St : Type := mkSt {
  world : World;
  warnings : list string;
  errors : list string;
  trace : list Event
}.

(** A computation: from a state to an outcome and the state it leaves.  What
    was appended to the lists before an exception is still there when the
    exception is caught. *)
Definition M (A : Type) : Type := St -> Res A * St.

Definition ret {A : Type} (a : A) : M A := fun s => (Ok a, s).

Definition raise {A : Type} (e : exn) : M A := fun s => (Raise e, s).

Definition bind {A B : Type} (m : M A) (k : A -> M B) : M B :=
  fun s =>
    match m s with
    | (Ok a, s') => k a s'
    | (Raise e, s') => (Raise e, s')
    end.

(** [try: m  except Exception as e: h e]. *)
Definition try_except {A : Type} (m : M A) (h : exn -> M A) : M A :=
  fun s =>
    match m s with
    | (Ok a, s') => (Ok a, s')
    | (Raise e, s') => h e s'
    end.

(** A call into Playwright: run the operation on the world and record it. *)
Definition call {A : Type} (op : World -> Res A * World) (ev : Res A -> Event) : M A :=
  fun s =>
    let (r, w) := op (world s) in
    (r, mkSt w (warnings s) (errors s) (py_append (trace s) (ev r))).

(** [warnings.append(msg)] and [errors.append(msg)]. *)
Definition append_warning (msg : string) : M unit :=
  fun s => (Ok tt, mkSt (world s) (py_append (warnings s) msg) (errors s) (trace s)).

Definition append_error (msg : string) : M unit :=
  fun s => (Ok tt, mkSt (world s) (warnings s) (py_append (errors s) msg) (trace s)).

Definition get_warnings : M (list string) := fun s => (Ok (warnings s), s).
Definition get_errors : M (list string) := fun s => (Ok (errors s), s).

(** [warnings: List[str] = []] and [errors: List[str] = []]. *)
Definition new_lists : M unit :=
  fun s => (Ok tt, mkSt (world s) [] [] (trace s)).

End Model.

Arguments St : clear implicits.
Arguments M : clear implicits.

Declare Scope py_scope.
Delimit Scope py_scope with py.
Notation "x <- m ;; k" := (bind m (fun x => k))
  (at level 61, m at next level, right associativity) : py_scope.
Notation "m ;; k" := (bind m (fun _ => k))
  (at level 61, right associativity) : py_scope.
Open Scope py_scope.

(** ** The module [playwright_browser] *)

Section Program.

Context {World : Type} {PW : Playwright World}.

Local Abbreviation St := (St World).
Local Abbreviation M := (M World).

(** *** Calls into Playwright *)

Definition enter : M unit := call pw_enter EEnter.
Definition exit : M unit := call pw_exit EExit.
Definition launch : M Browser := call pw_launch ELaunch.
Definition new_context (b : Browser) : M BrowserContext :=
  call (pw_new_context b) (ENewContext b).
Definition add_init_script (c : BrowserContext) : M unit :=
  call (pw_add_init_script c) (EAddInitScript c).
Definition new_page (c : BrowserContext) : M Page :=
  call (pw_new_page c) (ENewPage c).
Definition goto (p : Page) (url wait_until : string) (timeout : Z) : M unit :=
  call (pw_goto p url wait_until timeout) (EGoto p url wait_until timeout).
Definition wait_for_timeout (p : Page) (ms : Z) : M unit :=
  call (pw_wait_for_timeout p ms) (EWaitForTimeout p ms).
Definition wait_for_load_state (p : Page) (state : string) (timeout : Z) : M unit :=
  call (pw_wait_for_load_state p state timeout) (EWaitForLoadState p state timeout).
Definition accessibility_snapshot (p : Page) : M (option Node) :=
  call (pw_accessibility_snapshot p) (EAccessibilitySnapshot p).
Definition evaluate_dom (p : Page) : M string :=
  call (pw_evaluate_dom p) (EEvaluateDom p).
Definition is_visible (l : Locator) : M bool :=
  call (pw_is_visible l) (EIsVisible l).
Definition click (l : Locator) : M unit := call (pw_click l) (EClick l).
Definition fill (l : Locator) (text : option string) : M unit :=
  call (pw_fill l text) (EFill l text).
Definition press (l : Locator) (key : string) : M unit :=
  call (pw_press l key) (EPress l key).
Definition count (l : Locator) : M Z := call (pw_count l) (ECount l).
Definition inner_text (l : Locator) : M string :=
  call (pw_inner_text l) (EInnerText l).
Definition tag_name (l : Locator) : M string :=
  call (pw_tag_name l) (ETagName l).
Definition all (l : Locator) : M AllValue := call (pw_all l) (EAll l).

(** [async with enter as _: body]: the exit handler runs on every way out
    of the body; an exception of the exit handler replaces the body's
    outcome, otherwise the body's outcome stands. *)
Definition async_with {A : Type} (body : M A) : M A :=
  enter ;;
  fun s =>
    match body s with
    | (r, s1) =>
        match exit s1 with
        | (Ok _, s2) => (r, s2)
        | (Raise e, s2) => (Raise e, s2)
        end
    end.

(** *** [_generate_accessibility_snapshot] *)

Definition _generate_accessibility_snapshot (page : Page) : M string :=
  try_except
    (snapshot <- accessibility_snapshot page ;;
     match snapshot with
     | Some node =>
         if PyDict.truthy node then ret (format_node node 0)
         else ret "No accessibility tree available"
     | None => ret "No accessibility tree available"
     end)
    (fun _ =>
       try_except
         (body_text <- evaluate_dom page ;;
          ret (if PyStr.truthy body_text then body_text
               else "Could not generate snapshot"))
         (fun _ => ret "Error generating snapshot")).

(** *** [_detect_search_box] *)

(** Lines 271-279 and 294-301: the two selector lists. *)
Definition selectors : list string :=
  [ "input[type=" ++ PyStr.q "search" ++ "]";
    "input[placeholder*=" ++ PyStr.q "search" ++ " i]";
    "input[placeholder*=" ++ PyStr.q "Search" ++ " i]";
    "input[name*=" ++ PyStr.q "search" ++ " i]";
    "input[id*=" ++ PyStr.q "search" ++ " i]";
    "input[aria-label*=" ++ PyStr.q "search" ++ " i]";
    "input[aria-label*=" ++ PyStr.q "Search" ++ " i]" ].

Definition contextual_selectors : list string :=
  [ "input[placeholder*=" ++ PyStr.q "Search events" ++ " i]";
    "input[placeholder*=" ++ PyStr.q "Find tickets" ++ " i]";
    "input[placeholder*=" ++ PyStr.q "Search artists" ++ " i]";
    "input[placeholder*=" ++ PyStr.q "Search for" ++ " i]";
    "input[name*=" ++ PyStr.q "q" ++ " i]";
    "input[id*=" ++ PyStr.q "q" ++ " i]" ].

Definition searchbox_selector : string := "[role=" ++ PyStr.q "searchbox" ++ "]".

(** A stage of the detection cascade answers [Some l] when the function
    returned the locator [l] there, [None] when control falls through to the
    next stage. *)
Definition or_else {A : Type} (stage : M (option A)) (next : M (option A))
  : M (option A) :=
  found <- stage ;;
  match found with
  | Some a => ret (Some a)
  | None => next
  end.

(** Priority 1 (lines 252-259). *)
Definition detect_explicit (page : Page) (explicit_selector : option string)
  : M (option Locator) :=
  match explicit_selector with
  | Some sel =>
      if PyStr.truthy sel then
        try_except
          (let locator := first (page_locator page sel) in
           visible <- is_visible locator ;;
           if visible then ret (Some locator) else ret None)
          (fun e =>
             append_warning
               ("Explicit selector '" ++ sel ++ "' not found: " ++ str_exn e) ;;
             ret None)
      else ret None
  | None => ret None
  end.

(** Priority 2 (lines 262-268). *)
Definition detect_role (page : Page) : M (option Locator) :=
  try_except
    (let searchbox := first (page_locator page searchbox_selector) in
     visible <- is_visible searchbox ;;
     if visible then ret (Some searchbox) else ret None)
    (fun _ => ret None).

(** One turn of the loops of priorities 3 and 4 (lines 282-291, 304-312). *)
Definition probe_selector (page : Page) (selector : string)
  : M (option Locator) :=
  try_except
    (let locator := first (page_locator page selector) in
     visible <- is_visible locator ;;
     if visible then
       tag <- tag_name locator ;;
       if PyStr.in_list (PyStr.upper tag) ["INPUT"; "TEXTAREA"]
       then ret (Some locator) else ret None
     else ret None)
    (fun _ => ret None).

(** [for selector in sels: ...] of priorities 3 and 4. *)
Fixpoint scan_selectors (page : Page) (sels : list string)
  : M (option Locator) :=
  match sels with
  | [] => ret None
  | selector :: rest =>
      or_else (probe_selector page selector) (scan_selectors page rest)
  end.

Definition _detect_search_box (page : Page) (explicit_selector : option string)
    (snapshot : string) : M (option Locator) :=
  or_else (detect_explicit page explicit_selector)
    (or_else (detect_role page)
       (or_else (scan_selectors page selectors)
          (or_else (scan_selectors page contextual_selectors)
             (ret None)))).

(** *** [_click_search_button] *)

Definition text_patterns : list string := ["Search"; "search"; "Go"; "Submit"; "Find"].

Definition aria_button_selector : string :=
  "button[aria-label*=" ++ PyStr.q "search" ++ " i], button[aria-label*="
  ++ PyStr.q "Search" ++ " i], button[aria-label*=" ++ PyStr.q "submit" ++ " i]".

Definition submit_selector : string :=
  "button[type=" ++ PyStr.q "submit" ++ "], input[type=" ++ PyStr.q "submit" ++ "]".

(** A stage of the trigger cascade answers [true] when the function returned
    [True] there, [false] when control falls through. *)
Definition or_next (stage : M bool) (next : M bool) : M bool :=
  returned <- stage ;;
  if returned then ret true else next.

(** [if await button.is_visible(): await button.click(); return True]. *)
Definition click_if_visible (button : Locator) : M bool :=
  visible <- is_visible button ;;
  if visible then click button ;; ret true else ret false.

(** Priority 1 (lines 335-343). *)
Definition click_explicit (page : Page) (explicit_selector : option string) : M bool :=
  match explicit_selector with
  | Some sel =>
      if PyStr.truthy sel then
        try_except
          (click_if_visible (first (page_locator page sel)))
          (fun e =>
             append_warning
               ("Explicit button selector '" ++ sel ++ "' not found: " ++ str_exn e) ;;
             ret false)
      else ret false
  | None => ret false
  end.

(** Priority 2 (lines 346-358). *)
Definition click_form_submit (search_box : Locator) : M bool :=
  try_except
    (let form_locator := sub_locator search_box "xpath=ancestor::form" in
     form_count <- count form_locator ;;
     if (form_count >? 0)%Z then
       click_if_visible (first (sub_locator form_locator submit_selector))
     else ret false)
    (fun _ => ret false).

(** Priority 3 (lines 361-368). *)
Definition click_aria (page : Page) : M bool :=
  try_except
    (click_if_visible (first (page_locator page aria_button_selector)))
    (fun _ => ret false).

(** Priority 4, first loop (lines 374-382). *)
Fixpoint click_by_role (page : Page) (patterns : list string) : M bool :=
  match patterns with
  | [] => ret false
  | pattern :: rest =>
      or_next
        (try_except
           (click_if_visible (first (get_by_role page "button" pattern false)))
           (fun _ => ret false))
        (click_by_role page rest)
  end.

(** [text and any(pattern.lower() in text.lower() for pattern in text_patterns)]. *)
Definition text_matches (text : string) : bool :=
  PyStr.truthy text &&
  existsb (fun pattern => PyStr.contains (PyStr.lower pattern) (PyStr.lower text))
    text_patterns.

(** [buttons[:10]]: a slice of the list, a [TypeError] on a coroutine. *)
Definition first_10 (buttons : AllValue) : M (list Locator) :=
  match buttons with
  | all_list l => ret (firstn 10 l)
  | all_coroutine => raise (TypeError "'coroutine' object is not subscriptable")
  end.

(** Priority 4, second loop (lines 385-394). *)
Fixpoint click_by_text (buttons : list Locator) : M bool :=
  match buttons with
  | [] => ret false
  | btn :: rest =>
      or_next
        (try_except
           (text <- inner_text btn ;;
            if text_matches text then click_if_visible btn else ret false)
           (fun _ => ret false))
        (click_by_text rest)
  end.

(** Priority 4 (lines 371-396). *)
Definition click_by_keyword (page : Page) : M bool :=
  try_except
    (or_next (click_by_role page text_patterns)
       (buttons <- all (page_locator page "button") ;;
        candidates <- first_10 buttons ;;
        click_by_text candidates))
    (fun _ => ret false).

(** Priority 5 (lines 399-405): here the answer is the function's result. *)
Definition press_enter (search_box : Locator) : M bool :=
  try_except
    (press search_box "Enter" ;; ret true)
    (fun e =>
       append_warning ("Failed to press Enter in search box: " ++ str_exn e) ;;
       ret false).

Definition _click_search_button (page : Page) (explicit_selector : option string)
    (search_box : Locator) : M bool :=
  or_next (click_explicit page explicit_selector)
    (or_next (click_form_submit search_box)
       (or_next (click_aria page)
          (or_next (click_by_keyword page)
             (press_enter search_box)))).

(** *** [_execute_navigate] *)

(** Step 1 (lines 162-169): a failed navigation is recorded and the flow
    goes on. *)
Definition navigate (page : Page) (url : string) : M unit :=
  try_except
    (goto page url "load" 30000 ;;
     wait_for_timeout page 2000)
    (fun nav_error => append_error ("Navigation error: " ++ str_exn nav_error)).

(** Lines 198-205: the wait after the search was triggered. *)
Definition wait_for_search (page : Page) (wait_for_results : bool) (wait_timeout : Z)
  : M unit :=
  try_except
    (if wait_for_results
     then wait_for_load_state page "networkidle" wait_timeout
     else wait_for_timeout page 3000)
    (fun _ => wait_for_timeout page 3000).

(** Lines 184-215, the body of [if search_box:]; the answer is the value
    [search_performed] has after it. *)
Definition perform_search (page : Page) (search_query : option string)
    (search_button_selector : option string) (wait_for_results : bool)
    (wait_timeout : Z) (search_box : Locator) : M bool :=
  try_except
    (fill search_box search_query ;;
     wait_for_timeout page 500 ;;
     button_clicked <- _click_search_button page search_button_selector search_box ;;
     if button_clicked || negb (PyStr.truthy_opt search_button_selector) then
       wait_for_search page wait_for_results wait_timeout ;;
       ret true
     else
       append_warning "Search button not found - search may not have been triggered" ;;
       ret false)
    (fun search_error =>
       append_warning ("Error performing search: " ++ str_exn search_error) ;;
       ret false).

(** Lines 172-219: the pre-search snapshot, detection and search; the answer
    is the pair of [snapshot] and [search_performed]. *)
Definition search_step (page : Page) (should_search : bool)
    (search_query search_box_selector search_button_selector : option string)
    (wait_for_results : bool) (wait_timeout : Z) : M (string * bool) :=
  if should_search then
    snapshot <- _generate_accessibility_snapshot page ;;
    search_box <- _detect_search_box page search_box_selector snapshot ;;
    match search_box with
    | Some box =>
        search_performed <-
          perform_search page search_query search_button_selector
            wait_for_results wait_timeout box ;;
        ret (snapshot, search_performed)
    | None =>
        append_warning "Search box not found - cannot perform automatic search" ;;
        ret (snapshot, false)
    end
  else ret ("", false).

Definition _execute_navigate (page : Page) (url : string) (should_search : bool)
    (search_query search_box_selector search_button_selector : option string)
    (wait_for_results : bool) (wait_timeout : Z) : M NavigationResult :=
  navigate page url ;;
  found <- search_step page should_search search_query search_box_selector
             search_button_selector wait_for_results wait_timeout ;;
  let snapshot := fst found in
  let search_performed := snd found in
  snapshot <- (if negb (PyStr.truthy snapshot) || search_performed
               then _generate_accessibility_snapshot page
               else ret snapshot) ;;
  warnings <- get_warnings ;;
  errors <- get_errors ;;
  ret (mkResult true url search_performed
         (if should_search then search_query else None)
         snapshot warnings errors).

(** *** [browser_navigate] *)

(** The defaults of the signature. *)
Definition default_auto_search : bool := true.
Definition default_wait_for_results : bool := true.
Definition default_wait_timeout : Z := 10000.

(** The truth value of [search_query and auto_search]. *)
Definition should_search_of (search_query : option string) (auto_search : bool) : bool :=
  PyStr.truthy_opt search_query && auto_search.

Definition is_not_None {A : Type} (o : option A) : bool :=
  match o with Some _ => true | None => false end.

(** Lines 76-87, and 107-119: a context with the pinned viewport, user
    agent, locale and timezone, and the init script on it. *)
Definition create_context (browser : Browser) : M BrowserContext :=
  context <- new_context browser ;;
  add_init_script context ;;
  ret context.

(** Lines 99-121: the browser, context and page the orchestrator creates
    for itself. *)
Definition create_page : M Page :=
  browser <- launch ;;
  context <- create_context browser ;;
  new_page context.

(** Lines 128-140: the handler of the outer [try], which turns the
    exception into the record of a fatal failure. *)
Definition fatal (url : string) (should_search : bool)
    (search_query : option string) (e : exn) : M NavigationResult :=
  append_error ("Error in browser_navigate: " ++ str_exn e) ;;
  warnings <- get_warnings ;;
  errors <- get_errors ;;
  ret (mkResult false url false
         (if should_search then search_query else None)
         "" warnings errors).

Definition browser_navigate (url : string) (search_query : option string)
    (auto_search : bool) (search_box_selector search_button_selector : option string)
    (wait_for_results : bool) (wait_timeout : Z)
    (browser : option Browser) (context : option BrowserContext) (page : option Page)
  : M NavigationResult :=
  new_lists ;;
  let should_search := should_search_of search_query auto_search in
  if is_not_None browser || is_not_None context || is_not_None page then
    page <- match page with
            | Some p => ret p
            | None =>
                match context with
                | None =>
                    raise (ValueError
                      "If browser is provided, context must also be provided. If context is provided, page must also be provided.")
                | Some c => new_page c
                end
            end ;;
    _ <- match context with
         | Some c => ret c
         | None =>
             match browser with
             | None =>
                 raise (ValueError "If context is provided, browser must also be provided.")
             | Some b => create_context b
             end
         end ;;
    _execute_navigate page url should_search search_query
      search_box_selector search_button_selector wait_for_results wait_timeout
  else
    try_except
      (async_with
         (page <- create_page ;;
          _execute_navigate page url should_search search_query
            search_box_selector search_button_selector wait_for_results wait_timeout))
      (fatal url should_search search_query).

(** The state a call starts from. *)
Definition start (w : World) : St := mkSt w [] [] [].

End Program.

(** ** Concrete sites *)

(** A scripted site to run the module against.  The world is the number of
    milliseconds of waiting the tab still survives: a wait that fits in it
    elapses, a longer one finds the tab closed. *)
Module Fixture.

Record Site : Type := mkSite {
  launches : bool;
  reachable : bool;
  tree : Res (option Node);
  dom_text : Res string;
  visible : Locator -> Res bool;
  tag : Locator -> Res string;
  clickable : Locator -> Res unit;
  fillable : Res unit;
  enter_key : Res unit;
  forms : Res Z;
  text : Locator -> Res string;
  buttons : Res AllValue;
  idle : bool
}.

Definition closed : exn := Error "Target page, context or browser has been closed".
Definition timed_out : exn := Error "Timeout exceeded".

Definition wait (ms : Z) (left : Z) : Res unit * Z :=
  if (ms <=? left)%Z then (Ok tt, (left - ms)%Z) else (Raise closed, 0%Z).

Definition playwright (site : Site) : Playwright Z := {|
  pw_enter := fun w => (Ok tt, w);
  pw_exit := fun w => (Ok tt, w);
  pw_launch := fun w =>
    (if launches site then Ok (browser_handle 0)
     else Raise (Error "Executable doesn't exist"), w);
  pw_new_context := fun _ w => (Ok (context_handle 0), w);
  pw_add_init_script := fun _ w => (Ok tt, w);
  pw_new_page := fun _ w => (Ok (page_handle 0), w);
  pw_goto := fun _ _ _ _ w =>
    (if reachable site then Ok tt else Raise (Error "net::ERR_NAME_NOT_RESOLVED"), w);
  pw_wait_for_timeout := fun _ ms w => wait ms w;
  pw_wait_for_load_state := fun _ _ timeout w =>
    if idle site then (Ok tt, w)
    else if (timeout <=? w)%Z then (Raise timed_out, (w - timeout)%Z)
    else (Raise closed, 0%Z);
  pw_accessibility_snapshot := fun _ w => (tree site, w);
  pw_evaluate_dom := fun _ w => (dom_text site, w);
  pw_is_visible := fun l w => (visible site l, w);
  pw_click := fun l w => (clickable site l, w);
  pw_fill := fun _ _ w => (fillable site, w);
  pw_press := fun _ _ w => (enter_key site, w);
  pw_count := fun _ w => (forms site, w);
  pw_inner_text := fun l w => (text site l, w);
  pw_tag_name := fun l w => (tag site l, w);
  pw_all := fun _ w => (buttons site, w)
|}.

(** [l] is [page.locator(sel).first]. *)
Definition selected_by (sel : string) (l : Locator) : bool :=
  match l with
  | first (page_locator _ s) => String.eqb s sel
  | _ => false
  end.

Definition home : Node :=
  Dict [("role", SStr "WebArea"); ("name", SStr "Shop")]
    (Some [Dict [("role", SStr "heading"); ("name", SStr "Welcome")] None]).

(** A page with no input element at all. *)
Definition plain : Site := {|
  launches := true; reachable := true;
  tree := Ok (Some home); dom_text := Ok "";
  visible := fun _ => Ok false;
  tag := fun _ => Raise (Error "no element");
  clickable := fun _ => Raise (Error "no element");
  fillable := Raise (Error "no element");
  enter_key := Raise (Error "no element");
  forms := Ok 0%Z;
  text := fun _ => Raise (Error "no element");
  buttons := Ok all_coroutine;
  idle := true
|}.

(** The page of scenario A: [<input type="search" placeholder="Search">]
    and a sibling [<button>Search</button>]. *)
Definition shop : Site := {|
  launches := true; reachable := true;
  tree := Ok (Some home); dom_text := Ok "";
  visible := fun l =>
    match l with
    | first (page_locator _ s) =>
        Ok (PyStr.in_list s
              [ "input[type=" ++ PyStr.q "search" ++ "]";
                "input[placeholder*=" ++ PyStr.q "search" ++ " i]";
                "input[placeholder*=" ++ PyStr.q "Search" ++ " i]" ])
    | first (get_by_role _ "button" name false) =>
        Ok (PyStr.contains (PyStr.lower name) "search")
    | _ => Ok false
    end;
  tag := fun _ => Ok "INPUT";
  clickable := fun _ => Ok tt;
  fillable := Ok tt;
  enter_key := Ok tt;
  forms := Ok 0%Z;
  text := fun _ => Ok "Search";
  buttons := Ok all_coroutine;
  idle := true
|}.


(** [shop], on a network that never goes idle. *)
Definition busy_shop : Site := {|
  launches := launches shop; reachable := reachable shop;
  tree := tree shop; dom_text := dom_text shop;
  visible := visible shop; tag := tag shop;
  clickable := clickable shop; fillable := fillable shop;
  enter_key := enter_key shop; forms := forms shop;
  text := text shop; buttons := buttons shop;
  idle := false
|}.

(** [plain], where Chromium is not installed. *)
Definition no_chromium : Site := {|
  launches := false; reachable := reachable plain;
  tree := tree plain; dom_text := dom_text plain;
  visible := visible plain; tag := tag plain;
  clickable := clickable plain; fillable := fillable plain;
  enter_key := enter_key plain; forms := forms plain;
  text := text plain; buttons := buttons plain;
  idle := idle plain
|}.

(** A page with a visible search field the caller names by [#q], which
    also carries [role="searchbox"]. *)
Definition labelled : Site := {|
  launches := true; reachable := true;
  tree := Ok (Some home); dom_text := Ok "";
  visible := fun l => Ok (selected_by "#q" l || selected_by searchbox_selector l);
  tag := fun _ => Ok "INPUT";
  clickable := fun _ => Ok tt;
  fillable := Ok tt;
  enter_key := Ok tt;
  forms := Ok 0%Z;
  text := fun _ => Ok "";
  buttons := Ok all_coroutine;
  idle := true
|}.

(** A page with twelve visible buttons, none of them about searching, under
    an API whose [all] answers the list itself. *)
Definition menu_buttons : list Locator :=
  map (nth (page_locator (page_handle 0) "button")) (seq 0 12).

Definition crowded : Site := {|
  launches := true; reachable := true;
  tree := Ok (Some home); dom_text := Ok "";
  visible := fun _ => Ok false;
  tag := fun _ => Ok "BUTTON";
  clickable := fun _ => Ok tt;
  fillable := Ok tt;
  enter_key := Ok tt;
  forms := Ok 0%Z;
  text := fun _ => Ok "Menu";
  buttons := Ok (all_list menu_buttons);
  idle := true
|}.

(** A page whose search field takes text, with nothing to click and a
    field that rejects the Enter key. *)
Definition inert : Site := {|
  launches := true; reachable := true;
  tree := Ok (Some home); dom_text := Ok "";
  visible := fun _ => Ok false;
  tag := fun _ => Ok "INPUT";
  clickable := fun _ => Raise (Error "no element");
  fillable := Ok tt;
  enter_key := Raise (Error "element is not editable");
  forms := Ok 0%Z;
  text := fun _ => Raise (Error "no element");
  buttons := Ok all_coroutine;
  idle := true
|}.

Definition forever : Z := 1000000.

Definition page0 : Page := page_handle 0.
Definition context0 : BrowserContext := context_handle 0.
Definition browser0 : Browser := browser_handle 0.

End Fixture.


(** ** The HTTP layer: [main.py] and what it calls *)

(** Python's [str] for the HTTP layer: a sequence of code points. *)
Module PyText.

Definition str : Type := list N.

(** The code point of an ASCII character and the [str] of an ASCII literal
    of the source. *)
Definition chr (c : ascii) : N := N_of_ascii c.

Definition lit (s : string) : str := map N_of_ascii (list_ascii_of_string s).

(** [s.lower()] follows the character database of the interpreter, which is
    not part of the repository: it is an operation of an interface, as the
    calls into Playwright are. *)
Class Unicode : Type := {
  lower : str -> str
}.

(** [c.isspace()], which is also the class [\s] of a pattern on [str]: the
    code points of category Zs or of bidirectional class WS, B or S. *)
Definition is_space (c : N) : bool :=
  (((9 <=? c) && (c <=? 13)) || ((28 <=? c) && (c <=? 32)) ||
   (c =? 133) || (c =? 160) || (c =? 5760) ||
   ((8192 <=? c) && (c <=? 8202)) ||
   (c =? 8232) || (c =? 8233) || (c =? 8239) || (c =? 8287) || (c =? 12288))%N.

(** [bool(s)] and [len(s)]. *)
Definition truthy (s : str) : bool :=
  match s with [] => false | _ :: _ => true end.

Definition len (s : str) : Z := Z.of_nat (length s).

(** [a == b]. *)
Fixpoint eqb (a b : str) : bool :=
  match a, b with
  | [], [] => true
  | x :: a', y :: b' => (x =? y)%N && eqb a' b'
  | _, _ => false
  end.

(** [s.lstrip()], [s.rstrip()] and [s.strip()]. *)
Fixpoint lstrip (s : str) : str :=
  match s with
  | [] => []
  | c :: s' => if is_space c then lstrip s' else s
  end.

Fixpoint rstrip (s : str) : str :=
  match s with
  | [] => []
  | c :: s' =>
      match rstrip s' with
      | [] => if is_space c then [] else [c]
      | rest => c :: rest
      end
  end.

Definition strip (s : str) : str := rstrip (lstrip s).

(** [s.startswith(p)] and [s.endswith(p)]. *)
Fixpoint startswith (s p : str) : bool :=
  match p, s with
  | [], _ => true
  | _ :: _, [] => false
  | x :: p', y :: s' => (x =? y)%N && startswith s' p'
  end.

Fixpoint endswith (s p : str) : bool :=
  eqb s p ||
  match s with
  | [] => false
  | _ :: s' => endswith s' p
  end.

(** [pat in s]. *)
Fixpoint contains (pat s : str) : bool :=
  startswith s pat ||
  match s with
  | [] => false
  | _ :: s' => contains pat s'
  end.

(** [s.split(sep)] for a separator of one character. *)
Fixpoint split (sep : N) (s : str) : list str :=
  match s with
  | [] => [[]]
  | c :: s' =>
      if (c =? sep)%N then [] :: split sep s'
      else match split sep s' with
           | part :: parts => (c :: part) :: parts
           | [] => [[c]]
           end
  end.

(** [sep.join(l)]. *)
Fixpoint join (sep : str) (l : list str) : str :=
  match l with
  | [] => []
  | [x] => x
  | x :: rest => (x ++ sep ++ join sep rest)%list
  end.

(** An interpreter's [lower] on ASCII text, by which the examples run. *)
Definition lower_code (c : N) : N :=
  if ((65 <=? c) && (c <=? 90))%N then (c + 32)%N else c.

Definition ascii_text : Unicode := {| lower := map lower_code |}.

End PyText.

(** [l[:n]] on a list, for any integer [n]: a negative [n] counts from the
    end. *)
Definition slice_to {A : Type} (n : Z) (l : list A) : list A :=
  if (0 <=? n)%Z then firstn (Z.to_nat n) l
  else firstn (length l - Z.to_nat (- n)) l.

(** A Python [dict] with string keys, in insertion order. *)
Module ODict.

Section WithValue.

Variable V : Type.

(** [d.get(key)]. *)
Fixpoint get (key : string) (d : list (string * V)) : option V :=
  match d with
  | [] => None
  | (k, v) :: rest => if String.eqb key k then Some v else get key rest
  end.

(** [key in d]. *)
Definition mem (key : string) (d : list (string * V)) : bool :=
  match get key d with Some _ => true | None => false end.

(** [d[key] = v]: the value is replaced where the key stands, or the entry
    is added at the end. *)
Fixpoint set (key : string) (v : V) (d : list (string * V)) : list (string * V) :=
  match d with
  | [] => [(key, v)]
  | (k, v0) :: rest =>
      if String.eqb key k then (k, v) :: rest else (k, v0) :: set key v rest
  end.

(** [del d[key]]. *)
Fixpoint del (key : string) (d : list (string * V)) : list (string * V) :=
  match d with
  | [] => []
  | (k, v0) :: rest => if String.eqb key k then rest else (k, v0) :: del key rest
  end.

(** [list(d.keys())]. *)
Definition keys (d : list (string * V)) : list string := map fst d.

End WithValue.

Arguments get {V} key d.
Arguments mem {V} key d.
Arguments set {V} key v d.
Arguments del {V} key d.
Arguments keys {V} d.

End ODict.

(** A Python [dict] with [str] keys, in insertion order. *)
Module TDict.

Section WithValue.

Variable V : Type.

(** [d.get(key)]. *)
Fixpoint get (key : PyText.str) (d : list (PyText.str * V)) : option V :=
  match d with
  | [] => None
  | (k, v) :: rest => if PyText.eqb key k then Some v else get key rest
  end.

(** [d[key] = v]: the value is replaced where the key stands, or the entry
    is added at the end. *)
Fixpoint set (key : PyText.str) (v : V) (d : list (PyText.str * V))
  : list (PyText.str * V) :=
  match d with
  | [] => [(key, v)]
  | (k, v0) :: rest =>
      if PyText.eqb key k then (k, v) :: rest else (k, v0) :: set key v rest
  end.

(** [del d[key]]. *)
Fixpoint del (key : PyText.str) (d : list (PyText.str * V))
  : list (PyText.str * V) :=
  match d with
  | [] => []
  | (k, v0) :: rest => if PyText.eqb key k then rest else (k, v0) :: del key rest
  end.

(** [list(d.keys())]. *)
Definition keys (d : list (PyText.str * V)) : list PyText.str := map fst d.

End WithValue.

Arguments get {V} key d.
Arguments set {V} key v d.
Arguments del {V} key d.
Arguments keys {V} d.

End TDict.

Module Main.

Import PyText.

(** What an endpoint does: it answers, or raises [HTTPException]. *)
Inductive Http (A : Type) : Type :=
| Respond (a : A)
| HTTPException (status_code : Z) (detail : string).
Arguments Respond {A} a.
Arguments HTTPException {A} status_code detail.

Section Preview.

(** [_preview] only counts and cuts its text, so the text is a list over
    any alphabet of code points; [ellipsis] is the one the source writes. *)
Variable char : Type.
Variable ellipsis : char.

Definition _preview (text : option (list char)) (limit : Z) : list char :=
  match text with
  | None => []
  | Some t =>
      if (Z.of_nat (length t) <=? limit)%Z then t
      else (slice_to limit t ++ [ellipsis])%list
  end.

End Preview.

(** [_estimate_token_count]: [len(text) // 4]. *)
Definition _estimate_token_count (text : str) : Z := (len text / 4)%Z.

Definition has_scheme (s : str) : bool :=
  startswith s (lit "http://") || startswith s (lit "https://").

(** [if not url.startswith(("http://", "https://")): url = "https://" + url]. *)
Definition add_scheme (url : str) : str :=
  if negb (has_scheme url) then (lit "https://" ++ url)%list else url.

Definition _get_cache_key {U : Unicode} (url : str) : str :=
  let url_lower := strip (lower url) in
  add_scheme url_lower.

Definition _CACHE_POPULAR_SITES : list str :=
  [lit "amazon.com"; lit "github.com"; lit "google.com"; lit "stackoverflow.com"].

Definition _is_popular_site {U : Unicode} (url : str) : bool :=
  let url_lower := lower url in
  existsb (fun site => contains site url_lower) _CACHE_POPULAR_SITES.

(** An entry of [_playwright_cache]. *)
Record CachedSnapshot : Type := mkCached {
  cached_snapshot : str;
  cached_url : str;
  cached_token_count : Z
}.

Definition Cache : Type := list (str * CachedSnapshot).

Record PlaywrightSnapshotRequest : Type := mkSnapshotRequest {
  req_url : str;
  req_use_cache : bool
}.

Record PlaywrightSnapshotResponse : Type := mkSnapshotResponse {
  resp_snapshot : str;
  resp_url : str;
  resp_cached : bool;
  resp_token_count : option Z
}.

(** Lines 768-777: the store after a miss, with its bound of 50 entries. *)
Definition store_snapshot (cache_key : str) (entry : CachedSnapshot)
    (cache : Cache) : Cache :=
  let cache := TDict.set cache_key entry cache in
  if (Z.of_nat (length cache) >? 50)%Z then
    match TDict.keys cache with
    | oldest_key :: _ => TDict.del oldest_key cache
    | [] => cache
    end
  else cache.

(** [get_playwright_snapshot].  [generate] stands for the awaited call of
    [_generate_accessibility_snapshot(url)], which answers the snapshot or
    raises [HTTPException]; the module's cache is passed in and out. *)
Definition get_playwright_snapshot {U : Unicode} (generate : str -> Http str)
    (request : PlaywrightSnapshotRequest) (cache : Cache)
  : Http PlaywrightSnapshotResponse * Cache :=
  let url := strip (req_url request) in
  if negb (truthy url) then (HTTPException 400 "URL is required", cache) else
  let url := add_scheme url in
  let cache_key := _get_cache_key url in
  match (if req_use_cache request && _is_popular_site url
         then TDict.get cache_key cache else None) with
  | Some cached_data =>
      (Respond (mkSnapshotResponse (cached_snapshot cached_data)
                  (cached_url cached_data) true
                  (Some (cached_token_count cached_data))),
       cache)
  | None =>
      match generate url with
      | HTTPException status detail => (HTTPException status detail, cache)
      | Respond snapshot =>
          let token_count := _estimate_token_count snapshot in
          let cache :=
            if req_use_cache request && _is_popular_site url
            then store_snapshot cache_key (mkCached snapshot url token_count) cache
            else cache in
          (Respond (mkSnapshotResponse snapshot url false (Some token_count)), cache)
      end
  end.

(** One entry of the matches [test_playwright_prompt] answers. *)
Record PromptMatch : Type := mkMatch {
  match_line : nat;
  match_content : str;
  match_context : str
}.

Record PromptResponse : Type := mkPromptResponse {
  matches : list PromptMatch;
  prompt_echo : str;
  total_matches : nat
}.

(** Lines 801-811: the keywords a prompt asks for. *)
Definition keywords_of (prompt_lower : str) : list str :=
  ((if contains (lit "login") prompt_lower || contains (lit "sign in") prompt_lower
    then [lit "button"; lit "login"; lit "sign in"; lit "submit"] else []) ++
   (if contains (lit "button") prompt_lower then [lit "button"] else []) ++
   (if contains (lit "link") prompt_lower then [lit "link"] else []) ++
   (if contains (lit "input") prompt_lower || contains (lit "field") prompt_lower
    then [lit "input"; lit "textbox"; lit "field"] else []))%list.

(** [lines[max(0, i-2):min(len(lines), i+3)]]. *)
Definition context_lines (lines : list str) (i : nat) : list str :=
  skipn (i - 2) (firstn (Nat.min (length lines) (i + 3)) lines).

(** The code point of the line feed. *)
Definition newline : N := 10%N.

(** Lines 816-823: the loop over [enumerate(lines)], from index [i] on. *)
Fixpoint scan_lines {U : Unicode} (keywords : list str) (lines : list str)
    (i : nat) (remaining : list str) : list PromptMatch :=
  match remaining with
  | [] => []
  | line :: rest =>
      let line_lower := lower line in
      if existsb (fun keyword => contains keyword line_lower) keywords
      then mkMatch (i + 1) (strip line)
             (join [newline] (context_lines lines i))
           :: scan_lines keywords lines (S i) rest
      else scan_lines keywords lines (S i) rest
  end.

(** [test_playwright_prompt]; a key the request lacks reads as [""]. *)
Definition test_playwright_prompt {U : Unicode} (snapshot prompt : str)
  : Http PromptResponse :=
  if negb (truthy snapshot) || negb (truthy prompt)
  then HTTPException 400 "Both snapshot and prompt are required"
  else
    let prompt_lower := lower prompt in
    let keywords := keywords_of prompt_lower in
    let lines := split newline snapshot in
    let found := scan_lines keywords lines 0 lines in
    Respond (mkPromptResponse (slice_to 10 found) prompt (length found)).

End Main.

(** ** [policy.py] *)

Module Policy.

Import PyText.

(** The two patterns of the module are matched by hand.  Both start with
    [https?://] under [re.IGNORECASE]: in a pattern on [str] a letter of the
    pattern matches itself and its capital, and [s] matches U+017F, the
    long s, as well; the punctuation matches itself. *)
Definition is_h (c : N) : bool := ((c =? 104) || (c =? 72))%N.
Definition is_t (c : N) : bool := ((c =? 116) || (c =? 84))%N.
Definition is_p (c : N) : bool := ((c =? 112) || (c =? 80))%N.
Definition is_s (c : N) : bool := ((c =? 115) || (c =? 83) || (c =? 383))%N.
Definition is_char (a : ascii) (c : N) : bool := (c =? chr a)%N.

Definition http_scheme : list (N -> bool) :=
  [is_h; is_t; is_t; is_p; is_char ":"; is_char "/"; is_char "/"].

Definition https_scheme : list (N -> bool) :=
  [is_h; is_t; is_t; is_p; is_s; is_char ":"; is_char "/"; is_char "/"].

(** [drop_prefix p s]: what follows in [s] the characters that match [p]
    one by one, when [s] starts with such characters. *)
Fixpoint drop_prefix (p : list (N -> bool)) (s : str) : option str :=
  match p, s with
  | [], _ => Some s
  | _ :: _, [] => None
  | f :: p', c :: s' => if f c then drop_prefix p' s' else None
  end.

(** What follows [https?://] at the head of [s]. *)
Definition after_scheme (s : str) : option str :=
  match drop_prefix https_scheme s with
  | Some rest => Some rest
  | None => drop_prefix http_scheme s
  end.

(** The longest prefix of characters in a class: a greedy [[...]*]. *)
Fixpoint take_while (f : N -> bool) (s : str) : str :=
  match s with
  | [] => []
  | c :: s' => if f c then c :: take_while f s' else []
  end.

(** The class [[^\s)]]. *)
Definition url_char (c : N) : bool :=
  negb (is_space c) && negb (c =? chr ")")%N.

(** The match of [_URL_RE] that starts at the head of [s], if there is one. *)
Definition match_url (s : str) : option str :=
  match after_scheme s with
  | None => None
  | Some rest =>
      match take_while url_char rest with
      | [] => None
      | body => Some (firstn (length s - length rest + length body) s)
      end
  end.

(** [_URL_RE.findall]: the matches from left to right, none overlapping
    another; [skip] counts the characters still inside the last match. *)
Fixpoint find_urls (skip : nat) (s : str) : list str :=
  match s with
  | [] => []
  | _ :: s' =>
      match skip with
      | S k => find_urls k s'
      | O =>
          match match_url s with
          | Some u => u :: find_urls (length u - 1) s'
          | None => find_urls 0 s'
          end
      end
  end.

Definition _extract_urls (text : str) : list str := find_urls 0 text.

(** The class [[^/]]. *)
Definition not_slash (c : N) : bool := negb (c =? chr "/")%N.

Definition _domain_of {U : Unicode} (url : str) : option str :=
  match after_scheme url with
  | None => None
  | Some rest =>
      match take_while not_slash rest with
      | [] => None
      | host =>
          let host :=
            match split (chr ":") host with
            | h :: _ => h
            | [] => []
            end in
          Some (lower host)
      end
  end.

(** The loop of [_host_allowed], on the lowered host. *)
Fixpoint host_in {U : Unicode} (host : str) (allowlisted_domains : list str)
  : bool :=
  match allowlisted_domains with
  | [] => false
  | allowed :: rest =>
      let a := lower allowed in
      if eqb host a then true
      else if endswith host (lit "." ++ a)%list then true
      else host_in host rest
  end.

Definition _host_allowed {U : Unicode} (host : str)
    (allowlisted_domains : list str) : bool :=
  match allowlisted_domains with
  | [] => true
  | _ => host_in (lower host) allowlisted_domains
  end.

Record PolicyDecision : Type := mkDecision {
  allowed : bool;
  status_code : Z;
  reason : option str;
  code : option string
}.

(** [PolicyDecision(allowed=True)], with the defaults of the dataclass. *)
Definition allow : PolicyDecision := mkDecision true 200 None None.

Definition too_large (query : str) (max_query_chars : Z) : PolicyDecision :=
  mkDecision false 413
    (Some (lit "Query too large (len=" ++ lit (PyStr.of_Z (len query)) ++
           lit " > MAX_QUERY_CHARS=" ++ lit (PyStr.of_Z max_query_chars) ++
           lit ")")%list)
    (Some "PAYLOAD_TOO_LARGE").

Definition not_allowlisted (host : str) : PolicyDecision :=
  mkDecision false 403
    (Some (lit "URL domain not allowlisted: " ++ host)%list)
    (Some "DOMAIN_NOT_ALLOWED").

(** Lines 77-85: the loop over the URLs, which returns at the first host that
    is not allowed. *)
Fixpoint check_urls {U : Unicode} (urls : list str)
    (allowlisted_domains : list str) : option PolicyDecision :=
  match urls with
  | [] => None
  | url :: rest =>
      match _domain_of url with
      | Some host =>
          if truthy host && negb (_host_allowed host allowlisted_domains)
          then Some (not_allowlisted host)
          else check_urls rest allowlisted_domains
      | None => check_urls rest allowlisted_domains
      end
  end.

Definition evaluate_invoke_policy {U : Unicode} (query : str)
    (max_query_chars : Z) (allowlisted_domains : list str) : PolicyDecision :=
  if eqb (strip query) (lit "") then allow
  else if (len query >? max_query_chars)%Z
  then too_large query max_query_chars
  else
    let urls := _extract_urls query in
    match urls, allowlisted_domains with
    | _ :: _, _ :: _ =>
        match check_urls urls allowlisted_domains with
        | Some decision => decision
        | None => allow
        end
    | _, _ => allow
    end.

End Policy.

(** ** [state_store.py]: the store in memory *)

Module StateStore.

Section Store.

(** Times are floats and the two previews are [str]; the store only carries
    them, so both are any type. *)
Variable timestamp : Type.
Variable text : Type.

Record TaskRecord : Type := mkTask {
  task_id : string;
  created_at : timestamp;
  updated_at : timestamp;
  status : string;
  attempts : Z;
  query_preview : text;
  query_sha256 : string;
  last_output_preview : option text;
  last_error : option text
}.

Record InMemoryStateStore : Type := mkStore {
  _tasks : list (string * TaskRecord);
  _recent : list string
}.

(** [__init__]. *)
Definition init : InMemoryStateStore := mkStore [] [].

Definition get_task (self : InMemoryStateStore) (id : string) : option TaskRecord :=
  ODict.get id (_tasks self).

Definition put_task (self : InMemoryStateStore) (record : TaskRecord)
    (ttl_seconds : Z) : InMemoryStateStore :=
  mkStore (ODict.set (task_id record) record (_tasks self)) (_recent self).

(** [l.remove(x)] where [x in l]: the first occurrence goes. *)
Fixpoint remove (x : string) (l : list string) : list string :=
  match l with
  | [] => []
  | y :: rest => if String.eqb y x then rest else y :: remove x rest
  end.

Definition add_recent (self : InMemoryStateStore) (id : string) (max_items : Z)
  : InMemoryStateStore :=
  let recent := _recent self in
  let recent := if PyStr.in_list id recent then remove id recent else recent in
  let recent := id :: recent in
  mkStore (_tasks self) (slice_to max_items recent).

Definition list_recent (self : InMemoryStateStore) (limit : Z) : list string :=
  slice_to limit (_recent self).

End Store.

Arguments mkTask {timestamp text}.
Arguments task_id {timestamp text}.
Arguments created_at {timestamp text}.
Arguments updated_at {timestamp text}.
Arguments status {timestamp text}.
Arguments attempts {timestamp text}.
Arguments query_preview {timestamp text}.
Arguments query_sha256 {timestamp text}.
Arguments last_output_preview {timestamp text}.
Arguments last_error {timestamp text}.
Arguments mkStore {timestamp text}.
Arguments _tasks {timestamp text}.
Arguments _recent {timestamp text}.
Arguments init {timestamp text}.
Arguments get_task {timestamp text}.
Arguments put_task {timestamp text}.
Arguments add_recent {timestamp text}.
Arguments list_recent {timestamp text}.

End StateStore.

(** ** The task endpoints of [main.py], over the store in memory *)

Module Tasks.

Import StateStore.

(** [api_key and authorization != f"Bearer {api_key}"]. *)
Definition unauthorized (api_key authorization : option string) : bool :=
  match api_key with
  | None => false
  | Some key =>
      PyStr.truthy key &&
      negb (match authorization with
            | Some a => String.eqb a ("Bearer " ++ key)
            | None => false
            end)
  end.

Definition unauthorized_detail : string :=
  "Unauthorized - Invalid or missing API key".

Section Endpoints.

(** A text is a list of code points, as for [_preview]. *)
Variable char : Type.
Variable ellipsis : char.
Variable timestamp : Type.

(** [_sha256]; the digest is computed by [hashlib]. *)
Variable _sha256 : list char -> string.

Local Abbreviation TaskRecord := (TaskRecord timestamp (list char)).
Local Abbreviation Store := (InMemoryStateStore timestamp (list char)).

(** Lines 284-288: the records of the ids, leaving out the ids without one.
    [to_dict] copies the nine fields, so the record stands for its dict. *)
Fixpoint records_of (store : Store) (task_ids : list string) : list TaskRecord :=
  match task_ids with
  | [] => []
  | tid :: rest =>
      match get_task store tid with
      | Some rec => rec :: records_of store rest
      | None => records_of store rest
      end
  end.

Definition list_tasks (api_key authorization : option string) (limit : Z)
    (store : Store) : Main.Http (list TaskRecord) :=
  if unauthorized api_key authorization
  then Main.HTTPException 401 unauthorized_detail
  else
    let limit := Z.max 1 (Z.min 200 limit) in
    let task_ids := list_recent store limit in
    Main.Respond (records_of store task_ids).

(** Lines 372-386 of [invoke_tool]: the record written when a run starts. *)
Definition start_task (started : timestamp) (id : string) (query : list char)
    (task_ttl_seconds recent_tasks_max : Z) (store : Store) : TaskRecord * Store :=
  let existing := get_task store id in
  let record :=
    mkTask id
      (match existing with Some e => created_at e | None => started end)
      started
      "running"
      (match existing with Some e => (attempts e + 1)%Z | None => 1%Z end)
      (Main._preview char ellipsis (Some query) 500)
      (_sha256 query)
      None
      None in
  let store := put_task store record task_ttl_seconds in
  let store := add_recent store id recent_tasks_max in
  (record, store).

(** Lines 405-410: the record of a run that succeeded; [final_answer] is
    what the agent put under ["output"], which may be [None]. *)
Definition task_succeeded (finished : timestamp) (record : TaskRecord)
    (final_answer : option (list char)) (task_ttl_seconds : Z) (store : Store) : Store :=
  let record :=
    mkTask (task_id record) (created_at record) finished "succeeded"
      (attempts record) (query_preview record) (query_sha256 record)
      (Some (Main._preview char ellipsis final_answer 1000))
      None in
  put_task store record task_ttl_seconds.

(** Lines 427-433: the record of a run that failed, [error] being [str(e)]. *)
Definition task_failed (finished : timestamp) (id : string) (error : list char)
    (task_ttl_seconds : Z) (store : Store) : Store :=
  match get_task store id with
  | Some rec =>
      let rec :=
        mkTask (task_id rec) (created_at rec) finished "failed"
          (attempts rec) (query_preview rec) (query_sha256 rec)
          (last_output_preview rec)
          (Some (Main._preview char ellipsis (Some error) 1000)) in
      put_task store rec task_ttl_seconds
  | None => store
  end.

End Endpoints.

End Tasks.

(** ** [config.py] *)

Module Config.

Import PyText.

(** [os.environ]. *)
Definition Env : Type := list (str * str).

Definition _get_env (name : str) (default : option str) (env : Env)
  : option str :=
  let v := match TDict.get name env with Some v => Some v | None => default end in
  match v with
  | None => None
  | Some v =>
      let v := strip v in
      if negb (eqb v (lit "")) then Some v else None
  end.

(** [[part.strip() for part in parts if part.strip()]]. *)
Fixpoint stripped_parts (parts : list str) : list str :=
  match parts with
  | [] => []
  | part :: rest =>
      if truthy (strip part)
      then strip part :: stripped_parts rest
      else stripped_parts rest
  end.

Definition _get_csv (name : str) (env : Env) : list str :=
  match _get_env name None env with
  | None => []
  | Some v =>
      if negb (truthy v) then []
      else stripped_parts (split (chr ",") v)
  end.

End Config.

(** ** Vocabulary of the properties *)

(** *** Structural identity of trees *)

(** Two dicts hold the same scalar entries when every key looks up the same
    in both, whatever the order the keys were inserted in. *)
Definition same_attrs (a1 a2 : list (string * Scalar)) : Prop :=
  forall key, PyDict.lookup key a1 = PyDict.lookup key a2.

Section SameList.

Variable same : Node -> Node -> Prop.

Fixpoint same_list (l1 l2 : list Node) : Prop :=
  match l1, l2 with
  | [], [] => True
  | x :: xs, y :: ys => same x y /\ same_list xs ys
  | _, _ => False
  end.

End SameList.

(** Two trees are structurally identical: same entries at every node, the
    key ["children"] present in both or in neither, and the children
    identical one by one, in order. *)
Fixpoint same_tree (n1 n2 : Node) {struct n1} : Prop :=
  match n1, n2 with
  | Dict a1 c1, Dict a2 c2 =>
      same_attrs a1 a2 /\
      match c1, c2 with
      | None, None => True
      | Some l1, Some l2 => same_list same_tree l1 l2
      | _, _ => False
      end
  end.

(** Induction over a tree, with the property at hand for every child. *)
Fixpoint Node_induction (P : Node -> Prop)
    (step : forall attrs children,
        match children with Some cs => Forall P cs | None => True end ->
        P (Dict attrs children))
    (n : Node) {struct n} : P n :=
  match n with
  | Dict attrs children =>
      step attrs children
        (match children
           return match children with Some cs => Forall P cs | None => True end
         with
         | None => I
         | Some cs =>
             (fix all_children (l : list Node) : Forall P l :=
                match l with
                | [] => Forall_nil P
                | c :: l' => Forall_cons c (Node_induction P step c) (all_children l')
                end) cs
         end)
  end.

(** *** Outcomes and traces *)

(** [m] returns from every state: no exception leaves it. *)
Definition no_raise {World A : Type} (m : M World A) : Prop :=
  forall s, exists a s', m s = (Ok a, s').

(** The calls that submit a search: a click that succeeded, or a key press. *)
Definition is_trigger (ev : Event) : bool :=
  match ev with
  | EClick _ (Ok _) => true
  | EPress _ _ _ => true
  | _ => false
  end.

Definition no_trigger (evs : list Event) : Prop :=
  forallb (fun ev => negb (is_trigger ev)) evs = true.

(** What a stage of the trigger cascade leaves in the trace: when it answers
    [true], a successful click as its last call and no trigger before it;
    when it answers [false], no trigger at all. *)
Definition fired (b : bool) (evs : list Event) : Prop :=
  if b then exists before button,
              evs = (before ++ [EClick button (Ok tt)])%list /\ no_trigger before
  else no_trigger evs.

Definition stage_ok {World : Type} (m : M World bool) : Prop :=
  forall s, exists b s' evs,
    m s = (Ok b, s') /\ trace s' = (trace s ++ evs)%list /\ fired b evs.

(** The buttons whose inner text was read, in the order it was read. *)
Fixpoint examined (evs : list Event) : list Locator :=
  match evs with
  | [] => []
  | EInnerText btn _ :: rest => btn :: examined rest
  | _ :: rest => examined rest
  end.

(** The calls that search: every call on a locator. *)
Definition is_search_call (ev : Event) : bool :=
  match ev with
  | EIsVisible _ _ | EClick _ _ | EFill _ _ _ | EPress _ _ _ | ECount _ _
  | EInnerText _ _ | ETagName _ _ | EAll _ _ => true
  | _ => false
  end.

(** The warning priority 1 of the detector leaves behind: one line when an
    explicit selector was given and its visibility check raised in world
    [w], nothing otherwise. *)
Definition explicit_miss {World : Type} {PW : Playwright World}
    (page : Page) (explicit_selector : option string) (w : World) : list string :=
  match explicit_selector with
  | Some sel =>
      if PyStr.truthy sel then
        match fst (pw_is_visible (first (page_locator page sel)) w) with
        | Raise e => ["Explicit selector '" ++ sel ++ "' not found: " ++ str_exn e]
        | Ok _ => []
        end
      else []
  | None => []
  end.


(** No call of [evs] is a call on a locator. *)
Definition no_search_call (evs : list Event) : Prop :=
  forallb (fun ev => negb (is_search_call ev)) evs = true.

(** *** Pages without a search box *)




(** *** Frames *)

(** Every run of [m] takes a state to one related to it by [R]. *)
Definition keeps {World A : Type} (R : St World -> St World -> Prop)
    (m : M World A) : Prop :=
  forall s, R s (snd (m s)).

(** The calls that create or release what the orchestrator owns. *)
Definition is_lifecycle (ev : Event) : bool :=
  match ev with
  | EEnter _ | EExit _ | ELaunch _ | ENewContext _ _ | EAddInitScript _ _
  | ENewPage _ _ => true
  | _ => false
  end.

Definition page_calls (evs : list Event) : Prop :=
  forallb (fun ev => negb (is_lifecycle ev)) evs = true.

(** From [s] to [s']: [errors] is as it was, and the trace grew by calls
    on the page and its locators only. *)
Definition page_step {World : Type} (s s' : St World) : Prop :=
  errors s' = errors s /\
  exists evs, trace s' = (trace s ++ evs)%list /\ page_calls evs.

(** [page_step], with [warnings] as it was too. *)
Definition silent_step {World : Type} (s s' : St World) : Prop :=
  warnings s' = warnings s /\ page_step s s'.

(** The line step 1 of [_execute_navigate] adds to [errors] in world [w]:
    one line when [goto], or the wait of 2000 ms after it, raises; none
    otherwise. *)
Definition navigation_error {World : Type} {PW : Playwright World}
    (page : Page) (target : string) (w : World) : list string :=
  match pw_goto page target "load" 30000 w with
  | (Raise e, _) => ["Navigation error: " ++ str_exn e]
  | (Ok _, w1) =>
      match pw_wait_for_timeout page 2000 w1 with
      | (Raise e, _) => ["Navigation error: " ++ str_exn e]
      | (Ok _, _) => []
      end
  end.

(** Entering and leaving Playwright. *)
Definition is_session (ev : Event) : bool :=
  match ev with
  | EEnter _ | EExit _ => true
  | _ => false
  end.

Definition no_session (evs : list Event) : Prop :=
  forallb (fun ev => negb (is_session ev)) evs = true.

(** Entering, leaving, or launching a browser. *)
Definition is_ownership (ev : Event) : bool :=
  match ev with
  | EEnter _ | EExit _ | ELaunch _ => true
  | _ => false
  end.

Definition no_ownership (evs : list Event) : Prop :=
  forallb (fun ev => negb (is_ownership ev)) evs = true.

(** *** The HTTP layer *)

(** What a match of [test_playwright_prompt] says about the lines of the
    snapshot: where the line stands, that it holds a keyword, and that the
    context is at most five lines around it. *)
Definition match_of {U : PyText.Unicode} (lines keywords : list PyText.str)
    (m : Main.PromptMatch) : Prop :=
  exists line ctx,
    nth_error lines (Main.match_line m - 1) = Some line /\
    (1 <= Main.match_line m)%nat /\
    Main.match_content m = PyText.strip line /\
    existsb (fun keyword => PyText.contains keyword (PyText.lower line)) keywords = true /\
    Main.match_context m = PyText.join [Main.newline] ctx /\
    (length ctx <= 5)%nat /\
    In line ctx.

(** [has_char c s]: the character occurs in the text. *)
Definition has_char (c : N) (s : PyText.str) : Prop := In c s.

(** A text [str.strip] leaves as it is: it neither starts nor ends with
    white space. *)
Definition stripped (s : PyText.str) : Prop := PyText.strip s = s.

(** The text starts with [https?://], in the sense of the two patterns of
    [policy.py], and [rest] follows. *)
Definition scheme_then (s rest : PyText.str) : Prop :=
  Policy.after_scheme s = Some rest.

(** *** Tactics *)

Ltac unfold_monad :=
  unfold or_next, or_else, click_if_visible, bind, try_except, ret, raise,
    append_warning, append_error, get_warnings, get_errors, new_lists,
    enter, exit, launch, new_context, add_init_script, new_page, goto,
    wait_for_timeout, wait_for_load_state, accessibility_snapshot,
    evaluate_dom, is_visible, click, fill, press, count, inner_text,
    tag_name, all, call in *.

(** Case analysis on the outcome of the next call into Playwright. *)
Ltac destruct_call c :=
  lazymatch c with
  | context [match _ with _ => _ end] => fail
  | _ => let E := fresh "E" in destruct c as [[?|?] ?] eqn:E
  end.

Ltac run_call :=
  match goal with
  | |- context [let (_, _) := ?c in _] => destruct_call c
  | |- context [match ?c with pair _ _ => _ end] => destruct_call c
  end.

Ltac run_bool :=
  match goal with
  | |- context [if ?b then _ else _] => is_var b; destruct b
  | u : unit |- _ => destruct u
  end.

Ltac run := repeat (first [run_call | run_bool]; simpl).

(** Puts a trace built by successive appends in the form [old ++ new]. *)
Ltac flat_trace :=
  unfold py_append in *; repeat rewrite <- app_assoc; simpl.

(** * Properties *)

(** ** The formatters *)

Lemma same_attrs_get a1 a2 key default :
  same_attrs a1 a2 -> PyDict.get a1 key default = PyDict.get a2 key default.
Proof. intros H. unfold PyDict.get. rewrite (H key). reflexivity. Qed.

Lemma same_attrs_nil a : same_attrs [] a -> a = [].
Proof.
  destruct a as [|[k v] rest]; [reflexivity|].
  intros H. specialize (H k). simpl in H. rewrite String.eqb_refl in H. discriminate.
Qed.

Lemma same_tree_truthy n1 n2 :
  same_tree n1 n2 -> PyDict.truthy n1 = PyDict.truthy n2.
Proof.
  destruct n1 as [a1 c1], n2 as [a2 c2]. simpl. intros [Ha Hc].
  destruct c1, c2; try contradiction.
  - destruct a1, a2; reflexivity.
  - destruct a1 as [|p1 r1].
    + rewrite (same_attrs_nil _ Ha). reflexivity.
    + destruct a2 as [|p2 r2]; [|destruct p1; reflexivity].
      assert (E : p1 :: r1 = []).
      { apply same_attrs_nil. intros k. symmetry. apply Ha. }
      discriminate.
Qed.

Lemma each_child_same (f g : Node -> string) (l1 : list Node) :
  forall l2,
    Forall (fun c => forall c2, same_tree c c2 -> f c = g c2) l1 ->
    same_list same_tree l1 l2 ->
    forall lines, each_child f l1 lines = each_child g l2 lines.
Proof.
  induction l1 as [|c l1 IH]; intros [|c2 l2] HF Hs lines; simpl in Hs;
    try contradiction; [reflexivity|].
  destruct Hs as [Hc Hl]. inversion HF as [|? ? Hhead Htail]; subst.
  simpl. rewrite (Hhead c2 Hc). apply IH; assumption.
Qed.

Lemma prop_lines_same prefix a1 a2 keys :
  same_attrs a1 a2 ->
  forall lines, prop_lines prefix a1 keys lines = prop_lines prefix a2 keys lines.
Proof.
  intros Ha. induction keys as [|k keys IH]; intros lines; simpl; [reflexivity|].
  rewrite (Ha k). apply IH.
Qed.

Lemma format_node_same t1 :
  forall t2 indent, same_tree t1 t2 -> format_node t1 indent = format_node t2 indent.
Proof.
  induction t1 as [a1 c1 IH] using Node_induction.
  intros [a2 c2] indent H. pose proof (same_tree_truthy _ _ H) as Ht.
  destruct H as [Ha Hc].
  cbn [format_node]. rewrite Ht.
  destruct (negb (PyDict.truthy (Dict a2 c2))); [reflexivity|].
  rewrite !(same_attrs_get a1 a2) by exact Ha.
  destruct c1 as [l1|], c2 as [l2|]; try contradiction; [|reflexivity].
  f_equal. apply each_child_same; [|exact Hc].
  eapply Forall_impl; [|exact IH]. intros c Hrec c2 Hsame. apply Hrec, Hsame.
Qed.

Lemma format_node_rich_same t1 :
  forall t2 indent,
    same_tree t1 t2 -> format_node_rich t1 indent = format_node_rich t2 indent.
Proof.
  induction t1 as [a1 c1 IH] using Node_induction.
  intros [a2 c2] indent H. pose proof (same_tree_truthy _ _ H) as Ht.
  destruct H as [Ha Hc].
  cbn [format_node_rich]. rewrite Ht.
  destruct (negb (PyDict.truthy (Dict a2 c2))); [reflexivity|].
  rewrite !(same_attrs_get a1 a2) by exact Ha.
  rewrite (prop_lines_same _ a1 a2) by exact Ha.
  destruct c1 as [l1|], c2 as [l2|]; try contradiction; [|reflexivity].
  f_equal. apply each_child_same; [|exact Hc].
  eapply Forall_impl; [|exact IH]. intros c Hrec c2 Hsame. apply Hrec, Hsame.
Qed.

Lemma same_tree_reordered :
  same_tree
    (Dict [("role", SStr "button"); ("name", SStr "Go")]
       (Some [Dict [("name", SStr "x"); ("role", SStr "link")] None]))
    (Dict [("name", SStr "Go"); ("role", SStr "button")]
       (Some [Dict [("role", SStr "link"); ("name", SStr "x")] None])).
Proof.
  simpl. repeat split; intros key; simpl;
    destruct (String.eqb_spec key "role"), (String.eqb_spec key "name");
    subst; try reflexivity; discriminate.
Qed.

(** C6. [format_node] is a function of the tree alone: on two structurally
    identical trees (the same entries at every node, whatever the order the
    keys were inserted in, and identical children in order) it gives the same
    string, at every indentation, in the role-line variant of
    [playwright_browser.py] and in the [Name:]/[Description:] variant of
    [main.py]. *)
Theorem format_node_deterministic (t1 t2 : Node) (indent : nat) :
  same_tree t1 t2 ->
  format_node t1 indent = format_node t2 indent /\
  format_node_rich t1 indent = format_node_rich t2 indent.
Proof.
  intros H. split.
  - apply format_node_same, H.
  - apply format_node_rich_same, H.
Qed.

Lemma format_node_deterministic_witness :
  format_node
    (Dict [("role", SStr "button"); ("name", SStr "Go")]
       (Some [Dict [("name", SStr "x"); ("role", SStr "link")] None])) 0 =
  format_node
    (Dict [("name", SStr "Go"); ("role", SStr "button")]
       (Some [Dict [("role", SStr "link"); ("name", SStr "x")] None])) 0 /\
  format_node_rich
    (Dict [("role", SStr "button"); ("name", SStr "Go")]
       (Some [Dict [("name", SStr "x"); ("role", SStr "link")] None])) 0 =
  format_node_rich
    (Dict [("name", SStr "Go"); ("role", SStr "button")]
       (Some [Dict [("role", SStr "link"); ("name", SStr "x")] None])) 0.
Proof.
  apply (format_node_deterministic _ _ 0 same_tree_reordered).
Defined.

(** ** The trigger cascade *)

Section Trigger.

Context {World : Type} {PW : Playwright World}.

Local Abbreviation St := (St World).
Local Abbreviation M := (M World).

Lemma no_trigger_app a b : no_trigger a -> no_trigger b -> no_trigger (a ++ b).
Proof.
  unfold no_trigger. intros Ha Hb. rewrite forallb_app, Ha, Hb. reflexivity.
Qed.

Lemma fired_app a b evs : no_trigger a -> fired b evs -> fired b (a ++ evs).
Proof.
  intros Ha. destruct b; simpl.
  - intros (before & button & E & Hb). exists (a ++ before)%list, button.
    split; [rewrite E; apply app_assoc | apply no_trigger_app; assumption].
  - apply no_trigger_app, Ha.
Qed.

Lemma stage_ok_ret_false : stage_ok (ret false : M bool).
Proof.
  intros s. exists false, s, []. repeat split. symmetry. apply app_nil_r.
Qed.

Lemma stage_ok_or_next (stage next : M bool) :
  stage_ok stage -> stage_ok next -> stage_ok (or_next stage next).
Proof.
  intros Hs Hn s. destruct (Hs s) as (b & s1 & evs & E & T & F).
  unfold or_next, bind. rewrite E. destruct b.
  - exists true, s1, evs. repeat split; assumption.
  - destruct (Hn s1) as (b2 & s2 & evs2 & E2 & T2 & F2).
    exists b2, s2, (evs ++ evs2)%list. split; [exact E2|]. split.
    + rewrite T2, T. symmetry. apply app_assoc.
    + apply fired_app; assumption.
Qed.

(** A guarded click whose failures are swallowed: priorities 1 to 4 all end
    in one. *)
Lemma stage_ok_guarded_click (button : Locator) (h : exn -> M bool) :
  (forall e s, exists s', h e s = (Ok false, s') /\ trace s' = trace s) ->
  stage_ok (try_except (click_if_visible button) h).
Proof.
  intros Hh s. unfold_monad. simpl. run.
  - exists true. eexists _, _. split; [reflexivity|]. simpl. flat_trace.
    split; [reflexivity|]. exists [EIsVisible button (Ok true)], button.
    split; reflexivity.
  - match goal with |- context [h ?e ?st] => destruct (Hh e st) as (s' & Eh & Th) end.
    rewrite Eh. exists false, s'. eexists. split; [reflexivity|].
    rewrite Th. simpl. flat_trace. split; reflexivity.
  - exists false. eexists _, _. split; [reflexivity|]. simpl. flat_trace.
    split; reflexivity.
  - match goal with |- context [h ?e ?st] => destruct (Hh e st) as (s' & Eh & Th) end.
    rewrite Eh. exists false, s'. eexists. split; [reflexivity|].
    rewrite Th. simpl. flat_trace. split; reflexivity.
Qed.

Lemma swallow_ok (e : exn) (s : St) :
  exists s', (fun _ : exn => ret false : M bool) e s = (Ok false, s') /\ trace s' = trace s.
Proof. exists s. split; reflexivity. Qed.

Lemma stage_ok_click_explicit page explicit_selector :
  stage_ok (click_explicit page explicit_selector).
Proof.
  unfold click_explicit. destruct explicit_selector as [sel|];
    [destruct (PyStr.truthy sel)|]; try apply stage_ok_ret_false.
  apply stage_ok_guarded_click. intros e s. eexists. split; reflexivity.
Qed.

Lemma stage_ok_click_form_submit search_box :
  stage_ok (click_form_submit search_box).
Proof.
  intros s. unfold click_form_submit.
  set (form := sub_locator search_box "xpath=ancestor::form").
  set (button := first (sub_locator form submit_selector)).
  pose proof (stage_ok_guarded_click button (fun _ => ret false) swallow_ok) as Hclick.
  unfold try_except, bind, count, call in *. simpl.
  destruct (pw_count form (world s)) as [[n|e] w] eqn:E; simpl.
  - destruct (n >? 0)%Z.
    + match goal with |- context [click_if_visible button ?st] =>
        destruct (Hclick st) as (b & s' & evs & Ec & T & F) end.
      destruct (click_if_visible button _) as [[b'|e'] s''] eqn:Eb;
        inversion Ec; subst.
      * exists b, s', (ECount form (Ok n) :: evs). split; [reflexivity|].
        split; [rewrite T; simpl; flat_trace; reflexivity|].
        apply (fired_app [ECount form (Ok n)]); [reflexivity | exact F].
      * exists false, s', (ECount form (Ok n) :: evs). split; [reflexivity|].
        split; [rewrite T; simpl; flat_trace; reflexivity|].
        apply (fired_app [ECount form (Ok n)] false); [reflexivity | exact F].
    + exists false. eexists _, [ECount form (Ok n)]. repeat split.
  - exists false. eexists _, [ECount form (Raise e)]. repeat split.
Qed.

Lemma stage_ok_click_aria page : stage_ok (click_aria page).
Proof. apply stage_ok_guarded_click, swallow_ok. Qed.

Lemma stage_ok_click_by_role page patterns : stage_ok (click_by_role page patterns).
Proof.
  induction patterns as [|pattern rest IH]; simpl.
  - apply stage_ok_ret_false.
  - apply stage_ok_or_next; [|exact IH].
    apply stage_ok_guarded_click, swallow_ok.
Qed.

(** One turn of the text loop (lines 386-394). *)
Lemma stage_ok_text_turn btn :
  stage_ok (try_except
              (text <- inner_text btn ;;
               if text_matches text then click_if_visible btn else ret false)
              (fun _ => ret false)).
Proof.
  intros s.
  pose proof (stage_ok_guarded_click btn (fun _ => ret false) swallow_ok) as Hclick.
  unfold try_except, bind, inner_text, call in *. simpl.
  destruct (pw_inner_text btn (world s)) as [[text|e] w] eqn:E; simpl.
  - destruct (text_matches text).
    + match goal with |- context [click_if_visible btn ?st] =>
        destruct (Hclick st) as (b & s' & evs & Ec & T & F) end.
      destruct (click_if_visible btn _) as [[b'|e'] s''] eqn:Eb;
        inversion Ec; subst.
      * exists b, s', (EInnerText btn (Ok text) :: evs). split; [reflexivity|].
        split; [rewrite T; simpl; flat_trace; reflexivity|].
        apply (fired_app [EInnerText btn (Ok text)]); [reflexivity | exact F].
      * exists false, s', (EInnerText btn (Ok text) :: evs). split; [reflexivity|].
        split; [rewrite T; simpl; flat_trace; reflexivity|].
        apply (fired_app [EInnerText btn (Ok text)] false); [reflexivity | exact F].
    + exists false. eexists _, [EInnerText btn (Ok text)]. repeat split.
  - exists false. eexists _, [EInnerText btn (Raise e)]. repeat split.
Qed.

Lemma stage_ok_click_by_text buttons : stage_ok (click_by_text buttons).
Proof.
  induction buttons as [|btn rest IH]; simpl.
  - apply stage_ok_ret_false.
  - apply stage_ok_or_next; [apply stage_ok_text_turn | exact IH].
Qed.

Lemma stage_ok_click_by_keyword page : stage_ok (click_by_keyword page).
Proof.
  intros s. unfold click_by_keyword, try_except, or_next, bind.
  destruct (stage_ok_click_by_role page text_patterns s) as (b & s1 & evs & E & T & F).
  rewrite E. destruct b.
  - exists true, s1, evs. repeat split; assumption.
  - unfold all, call. simpl.
    set (buttons := page_locator page "button").
    destruct (pw_all buttons (world s1)) as [[[l|]|e] w] eqn:Ea; simpl.
    + match goal with |- context [click_by_text ?bs ?st] =>
        destruct (stage_ok_click_by_text bs st) as (b2 & s2 & evs2 & E2 & T2 & F2) end.
      rewrite E2. exists b2, s2, (evs ++ EAll buttons (Ok (all_list l)) :: evs2)%list.
      split; [reflexivity|]. split.
      * rewrite T2. simpl. rewrite T. flat_trace. reflexivity.
      * apply fired_app; [exact F|].
        apply (fired_app [EAll buttons (Ok (all_list l))]); [reflexivity | exact F2].
    + exists false. eexists _, (evs ++ [EAll buttons (Ok all_coroutine)])%list.
      split; [reflexivity|]. split.
      * simpl. rewrite T. flat_trace. reflexivity.
      * apply (fired_app evs false); [exact F | reflexivity].
    + exists false. eexists _, (evs ++ [EAll buttons (Raise e)])%list.
      split; [reflexivity|]. split.
      * simpl. rewrite T. flat_trace. reflexivity.
      * apply (fired_app evs false); [exact F | reflexivity].
Qed.

Lemma press_enter_outcome search_box (s : St) :
  exists s' r,
    press_enter search_box s = (Ok (is_ok r), s') /\
    trace s' = (trace s ++ [EPress search_box "Enter" r])%list.
Proof.
  unfold press_enter. unfold_monad. simpl. run.
  - eexists _, (Ok tt). split; reflexivity.
  - eexists _, (Raise e). split; reflexivity.
Qed.

(** C3. [_click_search_button] returns from every state, whatever the page
    does.  The calls it makes end with its first trigger: either a click that
    succeeded, and then the result is [True] and nothing is tried after it;
    or, when no click of priorities 1 to 4 succeeded, the press of Enter in
    the search box, and then the result is [True] when the press returned and
    [False] when it raised. *)
Theorem click_search_button_outcome (page : Page)
    (explicit_selector : option string) (search_box : Locator) (s : St) :
  exists b s' before last,
    _click_search_button page explicit_selector search_box s = (Ok b, s') /\
    trace s' = (trace s ++ before ++ [last])%list /\
    no_trigger before /\
    ((exists button, last = EClick button (Ok tt) /\ b = true) \/
     (exists r, last = EPress search_box "Enter" r /\ b = is_ok r)).
Proof.
  assert (Hstages : stage_ok
            (or_next (click_explicit page explicit_selector)
               (or_next (click_form_submit search_box)
                  (or_next (click_aria page)
                     (or_next (click_by_keyword page) (ret false)))))).
  { repeat apply stage_ok_or_next;
      auto using stage_ok_click_explicit, stage_ok_click_form_submit,
        stage_ok_click_aria, stage_ok_click_by_keyword, stage_ok_ret_false. }
  destruct (Hstages s) as (b & s1 & evs & E & T & F).
  unfold _click_search_button. unfold or_next, bind in *.
  destruct (click_explicit page explicit_selector s) as [[[|]|e1] t1];
    [| destruct (click_form_submit search_box t1) as [[[|]|e2] t2];
       [| destruct (click_aria page t2) as [[[|]|e3] t3];
          [| destruct (click_by_keyword page t3) as [[[|]|e4] t4] | ] | ] | ];
    try discriminate; inversion E; subst; clear E.
  1-4: destruct F as (before & button & Eevs & Hq);
       exists true, s1, before, (EClick button (Ok tt));
       (split; [reflexivity|]); (split; [rewrite T, Eevs; reflexivity|]);
       (split; [exact Hq|]); left; exists button; split; reflexivity.
  destruct (press_enter_outcome search_box s1) as (s' & r & Ep & Tp).
  exists (is_ok r), s', evs, (EPress search_box "Enter" r).
  split; [exact Ep|]. split; [rewrite Tp, T; symmetry; apply app_assoc|].
  split; [exact F|]. right. exists r. split; reflexivity.
Qed.

End Trigger.

(** ** The text scan of priority 4 *)

Section TextScan.

Context {World : Type} {PW : Playwright World}.

Local Abbreviation St := (St World).
Local Abbreviation M := (M World).

Lemma examined_app a b : examined (a ++ b) = (examined a ++ examined b)%list.
Proof.
  induction a as [|ev a IH]; simpl; [reflexivity|].
  destruct ev; simpl; rewrite ?IH; reflexivity.
Qed.

(** The role lookups read no inner text, and when none of them clicked,
    every keyword was looked up. *)
Lemma click_by_role_trace page patterns (s : St) :
  exists b s' evs,
    click_by_role page patterns s = (Ok b, s') /\
    trace s' = (trace s ++ evs)%list /\
    examined evs = [] /\
    (b = false ->
     forall pattern, In pattern patterns ->
       exists r, In (EIsVisible (first (get_by_role page "button" pattern false)) r) evs).
Proof.
  revert s. induction patterns as [|pattern rest IH]; intros s; simpl.
  - exists false, s, []. repeat split; [symmetry; apply app_nil_r | intros _ p []].
  - set (button := first (get_by_role page "button" pattern false)).
    unfold or_next, try_except, click_if_visible, is_visible, click, call, ret, bind.
    simpl.
    destruct (pw_is_visible button (world s)) as [[[|]|e] w] eqn:Ev; simpl.
    + destruct (pw_click button w) as [[[]|e] w'] eqn:Ec; simpl.
      * exists true. eexists _, _. split; [reflexivity|]. simpl. flat_trace.
        repeat split. discriminate.
      * match goal with |- context [click_by_role page rest ?st] =>
          destruct (IH st) as (b & s' & evs & E & T & X & L) end.
        rewrite E. exists b, s',
          (EIsVisible button (Ok true) :: EClick button (Raise e) :: evs).
        split; [reflexivity|]. split; [rewrite T; simpl; flat_trace; reflexivity|].
        split; [exact X|]. intros Hb p [<-|Hp].
        -- exists (Ok true). left. reflexivity.
        -- destruct (L Hb p Hp) as (r & Hr). exists r. right. right. exact Hr.
    + match goal with |- context [click_by_role page rest ?st] =>
        destruct (IH st) as (b & s' & evs & E & T & X & L) end.
      rewrite E. exists b, s', (EIsVisible button (Ok false) :: evs).
      split; [reflexivity|]. split; [rewrite T; simpl; flat_trace; reflexivity|].
      split; [exact X|]. intros Hb p [<-|Hp].
      * exists (Ok false). left. reflexivity.
      * destruct (L Hb p Hp) as (r & Hr). exists r. right. exact Hr.
    + match goal with |- context [click_by_role page rest ?st] =>
        destruct (IH st) as (b & s' & evs & E & T & X & L) end.
      rewrite E. exists b, s', (EIsVisible button (Raise e) :: evs).
      split; [reflexivity|]. split; [rewrite T; simpl; flat_trace; reflexivity|].
      split; [exact X|]. intros Hb p [<-|Hp].
      * exists (Raise e). left. reflexivity.
      * destruct (L Hb p Hp) as (r & Hr). exists r. right. exact Hr.
Qed.

(** The text loop reads the inner text of a prefix of its candidates, each
    once and in order, and of nothing else. *)
Lemma click_by_text_trace buttons (s : St) :
  exists b s' evs n,
    click_by_text buttons s = (Ok b, s') /\
    trace s' = (trace s ++ evs)%list /\
    examined evs = firstn n buttons.
Proof.
  revert s. induction buttons as [|btn rest IH]; intros s; simpl.
  - exists false, s, [], 0%nat. repeat split. symmetry. apply app_nil_r.
  - unfold or_next, try_except, click_if_visible, inner_text, is_visible,
      click, call, ret, bind. simpl.
    destruct (pw_inner_text btn (world s)) as [[text|e] w] eqn:Et; simpl.
    + destruct (text_matches text); simpl.
      * destruct (pw_is_visible btn w) as [[[|]|e] w1] eqn:Ev; simpl.
        -- destruct (pw_click btn w1) as [[[]|e] w2] eqn:Ec; simpl.
           ++ exists true. eexists _, _, 1%nat. split; [reflexivity|]. simpl.
              flat_trace. split; reflexivity.
           ++ match goal with |- context [click_by_text rest ?st] =>
                destruct (IH st) as (b & s' & evs & n & E & T & X) end.
              rewrite E. exists b, s',
                (EInnerText btn (Ok text) :: EIsVisible btn (Ok true)
                   :: EClick btn (Raise e) :: evs), (S n).
              split; [reflexivity|].
              split; [rewrite T; simpl; flat_trace; reflexivity|].
              simpl. rewrite X. reflexivity.
        -- match goal with |- context [click_by_text rest ?st] =>
             destruct (IH st) as (b & s' & evs & n & E & T & X) end.
           rewrite E. exists b, s',
             (EInnerText btn (Ok text) :: EIsVisible btn (Ok false) :: evs), (S n).
           split; [reflexivity|].
           split; [rewrite T; simpl; flat_trace; reflexivity|].
           simpl. rewrite X. reflexivity.
        -- match goal with |- context [click_by_text rest ?st] =>
             destruct (IH st) as (b & s' & evs & n & E & T & X) end.
           rewrite E. exists b, s',
             (EInnerText btn (Ok text) :: EIsVisible btn (Raise e) :: evs), (S n).
           split; [reflexivity|].
           split; [rewrite T; simpl; flat_trace; reflexivity|].
           simpl. rewrite X. reflexivity.
      * match goal with |- context [click_by_text rest ?st] =>
          destruct (IH st) as (b & s' & evs & n & E & T & X) end.
        rewrite E. exists b, s', (EInnerText btn (Ok text) :: evs), (S n).
        split; [reflexivity|].
        split; [rewrite T; simpl; flat_trace; reflexivity|].
        simpl. rewrite X. reflexivity.
    + match goal with |- context [click_by_text rest ?st] =>
        destruct (IH st) as (b & s' & evs & n & E & T & X) end.
      rewrite E. exists b, s', (EInnerText btn (Raise e) :: evs), (S n).
      split; [reflexivity|].
      split; [rewrite T; simpl; flat_trace; reflexivity|].
      simpl. rewrite X. reflexivity.
Qed.

Local Arguments firstn : simpl never.

Lemma firstn_firstn_10 (n : nat) (l : list Locator) :
  exists k, k <= 10 /\ firstn n (firstn 10 l) = firstn k l.
Proof.
  exists (Nat.min n 10). split; [apply Nat.le_min_r | apply firstn_firstn].
Qed.

Lemma text_matches_keywords (text : string) :
  text_matches text =
  PyStr.truthy text &&
  existsb (fun keyword => PyStr.contains (PyStr.lower keyword) (PyStr.lower text))
    ["Search"; "Go"; "Submit"; "Find"].
Proof.
  unfold text_matches, text_patterns. f_equal. simpl.
  change (PyStr.lower "search") with (PyStr.lower "Search").
  destruct (PyStr.contains (PyStr.lower "Search") (PyStr.lower text)); reflexivity.
Qed.

(** C9. The raw-text scan of priority 4 reads the inner text of at most 10
    buttons.  Whenever it reads any, the calls of the stage are: first the
    role lookups, one at least for every pattern of [text_patterns] and none
    of them reading inner text; then the listing of the page's buttons; then
    the scan, which reads the inner text of the first [k] buttons of that
    list, in order, for some [k <= 10].  The text test of the scan is the
    test against the four keywords Search, Go, Submit, Find, case ignored. *)
Theorem text_scan_bounded (page : Page) (s : St) :
  exists evs,
    trace (snd (click_by_keyword page s)) = (trace s ++ evs)%list /\
    length (examined evs) <= 10 /\
    (examined evs <> [] ->
     exists before buttons after k,
       evs = (before ++
              EAll (page_locator page "button") (Ok (all_list buttons)) :: after)%list /\
       examined before = [] /\
       (forall pattern, In pattern text_patterns ->
          exists r,
            In (EIsVisible (first (get_by_role page "button" pattern false)) r) before) /\
       k <= 10 /\
       examined after = firstn k buttons) /\
    (forall text,
       text_matches text =
       PyStr.truthy text &&
       existsb (fun keyword => PyStr.contains (PyStr.lower keyword) (PyStr.lower text))
         ["Search"; "Go"; "Submit"; "Find"]).
Proof.
  unfold click_by_keyword, try_except, or_next, bind.
  destruct (click_by_role_trace page text_patterns s) as (b & s1 & evs & E & T & X & L).
  rewrite E. destruct b.
  - exists evs. simpl. split; [exact T|]. rewrite X. simpl.
    split; [lia|]. split; [intros H; contradiction H; reflexivity|].
    apply text_matches_keywords.
  - unfold all, call. simpl.
    set (button := page_locator page "button").
    destruct (pw_all button (world s1)) as [[[l|]|e] w] eqn:Ea; simpl.
    + match goal with |- context [click_by_text ?bs ?st] =>
        destruct (click_by_text_trace bs st) as (b2 & s2 & evs2 & n & E2 & T2 & X2) end.
      rewrite E2. simpl.
      destruct (firstn_firstn_10 n l) as (k & Hk & Ek). rewrite Ek in X2.
      exists (evs ++ EAll button (Ok (all_list l)) :: evs2)%list.
      split; [rewrite T2; simpl; rewrite T; flat_trace; reflexivity|].
      rewrite examined_app, X. simpl. rewrite X2.
      split; [rewrite length_firstn; lia|].
      split; [|apply text_matches_keywords].
      intros _. exists evs, l, evs2, k. repeat split; auto.
    + exists (evs ++ [EAll button (Ok all_coroutine)])%list.
      split; [rewrite T; flat_trace; reflexivity|].
      rewrite examined_app, X. simpl.
      split; [lia|]. split; [intros H; contradiction H; reflexivity|].
      apply text_matches_keywords.
    + exists (evs ++ [EAll button (Raise e)])%list.
      split; [rewrite T; flat_trace; reflexivity|].
      rewrite examined_app, X. simpl.
      split; [lia|]. split; [intros H; contradiction H; reflexivity|].
      apply text_matches_keywords.
Qed.

End TextScan.

(** ** The detection cascade *)

Section Detection.

Context {World : Type} {PW : Playwright World}.

Local Abbreviation St := (St World).
Local Abbreviation M := (M World).

Local Arguments PyStr.in_list : simpl never.

(** One probe of priorities 3 and 4: what it answers, by the outcomes of its
    two calls. *)
Lemma probe_selector_run page selector (s : St) :
  let locator := first (page_locator page selector) in
  exists s' evs,
    ((exists tag,
        probe_selector page selector s = (Ok (Some locator), s') /\
        evs = [EIsVisible locator (Ok true); ETagName locator (Ok tag)] /\
        PyStr.in_list (PyStr.upper tag) ["INPUT"; "TEXTAREA"] = true) \/
     (probe_selector page selector s = (Ok None, s') /\
      (evs = [EIsVisible locator (Ok false)] \/
       (exists e, evs = [EIsVisible locator (Raise e)]) \/
       (exists e, evs = [EIsVisible locator (Ok true); ETagName locator (Raise e)]) \/
       (exists tag,
          evs = [EIsVisible locator (Ok true); ETagName locator (Ok tag)] /\
          PyStr.in_list (PyStr.upper tag) ["INPUT"; "TEXTAREA"] = false)))) /\
    trace s' = (trace s ++ evs)%list /\
    warnings s' = warnings s /\ errors s' = errors s.
Proof.
  intros locator. unfold probe_selector. fold locator.
  unfold try_except, is_visible, tag_name, call, ret, bind. simpl.
  destruct (pw_is_visible locator (world s)) as [[[|]|e] w] eqn:Ev; simpl.
  - destruct (pw_tag_name locator w) as [[tag|e] w1] eqn:Et; simpl.
    + destruct (PyStr.in_list (PyStr.upper tag) ["INPUT"; "TEXTAREA"]) eqn:Etag.
      * eexists _, _. split.
        -- left. exists tag. repeat split. exact Etag.
        -- simpl. flat_trace. repeat split.
      * eexists _, _. split.
        -- right. split; [reflexivity|]. right. right. right. exists tag. split; auto.
        -- simpl. flat_trace. repeat split.
    + eexists _, _. split.
      * right. split; [reflexivity|]. right. right. left. exists e. reflexivity.
      * simpl. flat_trace. repeat split.
  - eexists _, _. split.
    + right. split; [reflexivity|]. left. reflexivity.
    + simpl. flat_trace. repeat split.
  - eexists _, _. split.
    + right. split; [reflexivity|]. right. left. exists e. reflexivity.
    + simpl. flat_trace. repeat split.
Qed.

Lemma probe_selector_no_raise page selector : no_raise (probe_selector page selector).
Proof.
  intros s. destruct (probe_selector_run page selector s)
    as (s' & evs & [(tag & E & _) | (E & _)] & _); eauto.
Qed.

(** The loops of priorities 3 and 4 return, leave the two lists alone, and
    answer a locator only right after its tag was read and found to be
    [INPUT] or [TEXTAREA]. *)
Lemma scan_selectors_run page sels (s : St) :
  exists found s' evs,
    scan_selectors page sels s = (Ok found, s') /\
    trace s' = (trace s ++ evs)%list /\
    warnings s' = warnings s /\ errors s' = errors s /\
    (forall locator, found = Some locator ->
       exists selector tag before,
         In selector sels /\
         locator = first (page_locator page selector) /\
         evs = (before ++ [EIsVisible locator (Ok true); ETagName locator (Ok tag)])%list /\
         PyStr.in_list (PyStr.upper tag) ["INPUT"; "TEXTAREA"] = true).
Proof.
  revert s. induction sels as [|selector rest IH]; intros s; simpl.
  - exists None, s, []. repeat split; [symmetry; apply app_nil_r | discriminate].
  - unfold or_else, bind.
    destruct (probe_selector_run page selector s)
      as (s1 & evs1 & [(tag & E & Eevs & Htag) | (E & _)] & T1 & W1 & R1);
      rewrite E.
    + exists (Some (first (page_locator page selector))), s1, evs1.
      repeat split; try assumption.
      intros locator Hl. inversion Hl; subst locator.
      exists selector, tag, [].
      split; [left; reflexivity|]. split; [reflexivity|]. split; assumption.
    + destruct (IH s1) as (found & s2 & evs2 & E2 & T2 & W2 & R2 & Hfound).
      exists found, s2, (evs1 ++ evs2)%list. split; [exact E2|].
      split; [rewrite T2, T1; symmetry; apply app_assoc|].
      split; [congruence|]. split; [congruence|].
      intros locator Hl.
      destruct (Hfound locator Hl) as (sel & tag & before & Hin & El & Eevs & Htag).
      exists sel, tag, (evs1 ++ before)%list.
      split; [right; exact Hin|]. split; [exact El|].
      split; [rewrite Eevs; apply app_assoc | exact Htag].
Qed.

(** C5. The loop of priorities 3 and 4, over any list of selectors, answers
    a locator only when the last two calls it made are the visibility check
    of that locator, answered [True], and the reading of its tag name,
    answered with a tag whose upper case is [INPUT] or [TEXTAREA]; the
    locator is the first match of one of the selectors.  A visible match
    whose tag is neither is not answered by its probe: the loop goes on to
    the next selector. *)
Theorem scan_selectors_verified :
  (forall page sels (s s' : St) locator,
     scan_selectors page sels s = (Ok (Some locator), s') ->
     exists selector tag before,
       In selector sels /\
       locator = first (page_locator page selector) /\
       trace s' =
         (trace s ++ before ++
          [EIsVisible locator (Ok true); ETagName locator (Ok tag)])%list /\
       PyStr.in_list (PyStr.upper tag) ["INPUT"; "TEXTAREA"] = true) /\
  (forall page selector rest (s : St) w tag w',
     pw_is_visible (first (page_locator page selector)) (world s) = (Ok true, w) ->
     pw_tag_name (first (page_locator page selector)) w = (Ok tag, w') ->
     PyStr.in_list (PyStr.upper tag) ["INPUT"; "TEXTAREA"] = false ->
     exists s1,
       probe_selector page selector s = (Ok None, s1) /\
       scan_selectors page (selector :: rest) s = scan_selectors page rest s1).
Proof.
  split.
  - intros page sels s s' locator H.
    destruct (scan_selectors_run page sels s)
      as (found & s1 & evs & E & T & _ & _ & Hfound).
    rewrite E in H. inversion H; subst.
    destruct (Hfound locator eq_refl) as (sel & tag & before & Hin & El & Eevs & Htag).
    exists sel, tag, before. repeat split; auto. rewrite T, Eevs. reflexivity.
  - intros page selector rest s w tag w' Hv Ht Htag.
    assert (Hp : exists s1, probe_selector page selector s = (Ok None, s1)).
    { unfold probe_selector, try_except, is_visible, tag_name, call, ret, bind.
      simpl. rewrite Hv. simpl. rewrite Ht. simpl. rewrite Htag. eauto. }
    destruct Hp as (s1 & Hp). exists s1. split; [exact Hp|].
    simpl. unfold or_else, bind. rewrite Hp. reflexivity.
Qed.

Lemma detect_explicit_run page explicit_selector (s : St) :
  exists found s' evs,
    detect_explicit page explicit_selector s = (Ok found, s') /\
    trace s' = (trace s ++ evs)%list /\
    errors s' = errors s /\
    (found = None ->
     warnings s' = (warnings s ++ explicit_miss page explicit_selector (world s))%list).
Proof.
  unfold detect_explicit, explicit_miss.
  destruct explicit_selector as [sel|]; [destruct (PyStr.truthy sel)|].
  - unfold try_except, is_visible, append_warning, call, ret, bind. simpl.
    destruct (pw_is_visible (first (page_locator page sel)) (world s))
      as [[[|]|e] w] eqn:Ev; simpl.
    + eexists _, _, _. split; [reflexivity|]. simpl. flat_trace.
      repeat split. discriminate.
    + eexists _, _, _. split; [reflexivity|]. simpl. flat_trace.
      repeat split. intros _. symmetry. apply app_nil_r.
    + eexists _, _, _. split; [reflexivity|]. simpl. flat_trace. repeat split.
  - exists None, s, []. repeat split; symmetry; apply app_nil_r.
  - exists None, s, []. repeat split; symmetry; apply app_nil_r.
Qed.

Lemma detect_role_run page (s : St) :
  exists found s' evs,
    detect_role page s = (Ok found, s') /\
    trace s' = (trace s ++ evs)%list /\
    warnings s' = warnings s /\ errors s' = errors s.
Proof.
  unfold detect_role, try_except, is_visible, call, ret, bind. simpl.
  run; eexists _, _, _; (split; [reflexivity|]); simpl; flat_trace; repeat split.
Qed.

(** The detector returns from every state; it leaves [errors] alone, and
    when it answers [None] the only warning it may have added is the one of
    priority 1. *)
Lemma detect_search_box_run page explicit_selector snapshot (s : St) :
  exists found s' evs,
    _detect_search_box page explicit_selector snapshot s = (Ok found, s') /\
    trace s' = (trace s ++ evs)%list /\
    errors s' = errors s /\
    (found = None ->
     warnings s' = (warnings s ++ explicit_miss page explicit_selector (world s))%list).
Proof.
  unfold _detect_search_box, or_else, bind.
  destruct (detect_explicit_run page explicit_selector s)
    as (f1 & s1 & evs1 & E1 & T1 & R1 & W1). rewrite E1.
  destruct f1 as [l1|].
  { exists (Some l1), s1, evs1.
    split; [reflexivity|]. split; [exact T1|]. split; [exact R1 | discriminate]. }
  destruct (detect_role_run page s1) as (f2 & s2 & evs2 & E2 & T2 & W2 & R2).
  rewrite E2. destruct f2 as [l2|].
  { exists (Some l2), s2, (evs1 ++ evs2)%list. split; [reflexivity|].
    split; [rewrite T2, T1; symmetry; apply app_assoc|].
    split; [congruence | discriminate]. }
  destruct (scan_selectors_run page selectors s2)
    as (f3 & s3 & evs3 & E3 & T3 & W3 & R3 & _).
  rewrite E3. destruct f3 as [l3|].
  { exists (Some l3), s3, (evs1 ++ evs2 ++ evs3)%list. split; [reflexivity|].
    split; [rewrite T3, T2, T1; rewrite <- !app_assoc; reflexivity|].
    split; [congruence | discriminate]. }
  destruct (scan_selectors_run page contextual_selectors s3)
    as (f4 & s4 & evs4 & E4 & T4 & W4 & R4 & _).
  rewrite E4.
  exists f4, s4, (evs1 ++ evs2 ++ evs3 ++ evs4)%list.
  split; [destruct f4; reflexivity|].
  split; [rewrite T4, T3, T2, T1; rewrite <- !app_assoc; reflexivity|].
  split; [congruence|].
  intros _. rewrite W4, W3, W2. apply W1. reflexivity.
Qed.

Lemma detect_search_box_no_raise page explicit_selector snapshot :
  no_raise (_detect_search_box page explicit_selector snapshot).
Proof.
  intros s. destruct (detect_search_box_run page explicit_selector snapshot s)
    as (found & s' & _ & E & _). eauto.
Qed.






(** C4. When the caller gives an explicit search-box selector and its first
    match is visible, and an element with [role="searchbox"] is visible too,
    [_detect_search_box] answers the locator of the explicit selector.  The
    only call it makes is the visibility check of that locator: priority 2 is
    not attempted, and nothing is added to [warnings]. *)
Theorem explicit_selector_wins (page : Page) (sel snapshot : string)
    (s : St) (w : World) :
  PyStr.truthy sel = true ->
  pw_is_visible (first (page_locator page sel)) (world s) = (Ok true, w) ->
  fst (pw_is_visible (first (page_locator page searchbox_selector)) w) = Ok true ->
  exists s',
    _detect_search_box page (Some sel) snapshot s =
      (Ok (Some (first (page_locator page sel))), s') /\
    trace s' = (trace s ++ [EIsVisible (first (page_locator page sel)) (Ok true)])%list /\
    warnings s' = warnings s /\
    world s' = w.
Proof.
  intros Hsel Hvisible _.
  unfold _detect_search_box, or_else, detect_explicit. rewrite Hsel.
  unfold try_except, is_visible, call, ret, bind. simpl. rewrite Hvisible. simpl.
  eexists. split; [reflexivity|]. simpl. repeat split.
Qed.

End Detection.

(** ** Computations that cannot raise *)

Section NoRaise.

Context {World : Type} {PW : Playwright World}.

Local Abbreviation M := (M World).

Lemma bind_ok {A B : Type} (m : M A) (k : A -> M B) s a s1 :
  m s = (Ok a, s1) -> bind m k s = k a s1.
Proof. intros E. unfold bind. rewrite E. reflexivity. Qed.

Lemma bind_raise {A B : Type} (m : M A) (k : A -> M B) s e s1 :
  m s = (Raise e, s1) -> bind m k s = (Raise e, s1).
Proof. intros E. unfold bind. rewrite E. reflexivity. Qed.

Lemma no_raise_ret {A : Type} (a : A) : no_raise (ret a : M A).
Proof. intros s. exists a, s. reflexivity. Qed.

Lemma no_raise_bind {A B : Type} (m : M A) (k : A -> M B) :
  no_raise m -> (forall a, no_raise (k a)) -> no_raise (bind m k).
Proof.
  intros Hm Hk s. destruct (Hm s) as (a & s1 & E1).
  destruct (Hk a s1) as (b & s2 & E2).
  exists b, s2. unfold bind. rewrite E1. exact E2.
Qed.

(** A [try] whose handler cannot raise cannot raise, whatever its body. *)
Lemma no_raise_try_except {A : Type} (m : M A) (h : exn -> M A) :
  (forall e, no_raise (h e)) -> no_raise (try_except m h).
Proof.
  intros Hh s. unfold try_except.
  destruct (m s) as [[a|e] s1].
  - exists a, s1. reflexivity.
  - apply Hh.
Qed.

Lemma no_raise_append_warning (msg : string) : no_raise (append_warning msg : M unit).
Proof. intros s. eexists _, _. reflexivity. Qed.

Lemma no_raise_append_error (msg : string) : no_raise (append_error msg : M unit).
Proof. intros s. eexists _, _. reflexivity. Qed.

End NoRaise.

(** ** The orchestrator *)

Lemma truthy_app_l a b : PyStr.truthy a = true -> PyStr.truthy (a ++ b) = true.
Proof. destruct a; [discriminate | reflexivity]. Qed.

Lemma truthy_app_r a b : PyStr.truthy b = true -> PyStr.truthy (a ++ b) = true.
Proof. destruct a; [trivial | reflexivity]. Qed.

Lemma each_child_head fmt cs :
  forall x lines, exists rest, each_child fmt cs (x :: lines) = x :: rest.
Proof.
  induction cs as [|c cs IH]; intros x lines; simpl; [eauto|].
  destruct (PyStr.truthy (fmt c)); [apply (IH x (lines ++ [fmt c])%list) | apply IH].
Qed.

Lemma join_head_truthy sep x rest :
  PyStr.truthy x = true -> PyStr.truthy (PyStr.join sep (x :: rest)) = true.
Proof.
  intros H. destruct rest; simpl; [exact H | apply truthy_app_l, H].
Qed.

(** A node that is true formats to a string that is true. *)
Lemma format_node_truthy node indent :
  PyDict.truthy node = true -> PyStr.truthy (format_node node indent) = true.
Proof.
  destruct node as [attrs children]. intros H. cbn [format_node]. rewrite H.
  cbn [negb].
  set (role := PyVal.str (PyDict.get attrs "role" (SStr "unknown"))).
  set (name := PyDict.get attrs "name" (SStr "")).
  set (prefix := PyStr.times "  " indent).
  assert (Hline : forall tail, PyStr.truthy (prefix ++ "- " ++ tail) = true).
  { intros tail. apply truthy_app_r. reflexivity. }
  destruct (PyVal.truthy name), children as [cs|];
    try (apply Hline);
    match goal with |- context [each_child ?f cs [?x]] =>
      destruct (each_child_head f cs x []) as (rest & ->) end;
    apply join_head_truthy, Hline.
Qed.

Section Orchestrator.

Context {World : Type} {PW : Playwright World}.

Local Abbreviation St := (St World).
Local Abbreviation M := (M World).

(** The snapshot is always produced, is never the empty string, touches
    neither list and calls no locator. *)
Lemma snapshot_run page (s : St) :
  exists snap s' evs,
    _generate_accessibility_snapshot page s = (Ok snap, s') /\
    PyStr.truthy snap = true /\
    trace s' = (trace s ++ evs)%list /\
    warnings s' = warnings s /\ errors s' = errors s /\
    no_search_call evs.
Proof.
  unfold _generate_accessibility_snapshot, try_except, accessibility_snapshot,
    evaluate_dom, call, ret, bind. simpl.
  destruct (pw_accessibility_snapshot page (world s)) as [[[node|]|e] w] eqn:Ea; simpl.
  - destruct (PyDict.truthy node) eqn:Hn.
    + eexists _, _, _. split; [reflexivity|]. simpl. flat_trace.
      split; [apply format_node_truthy, Hn|]. repeat split.
    + eexists _, _, _. split; [reflexivity|]. simpl. flat_trace. repeat split.
  - eexists _, _, _. split; [reflexivity|]. simpl. flat_trace. repeat split.
  - destruct (pw_evaluate_dom page w) as [[text|e'] w'] eqn:Ed; simpl.
    + eexists _, _, _. split; [reflexivity|]. simpl. flat_trace.
      split; [destruct text; reflexivity|]. repeat split.
    + eexists _, _, _. split; [reflexivity|]. simpl. flat_trace. repeat split.
Qed.

Lemma snapshot_no_raise page : no_raise (_generate_accessibility_snapshot page).
Proof.
  intros s. destruct (snapshot_run page s) as (snap & s' & _ & E & _). eauto.
Qed.

(** Navigation never raises: a failure ends in [errors]. *)
Lemma navigate_run page url (s : St) :
  exists s' evs,
    navigate page url s = (Ok tt, s') /\
    trace s' = (trace s ++ evs)%list /\
    warnings s' = warnings s /\
    no_search_call evs.
Proof.
  unfold navigate, try_except, goto, wait_for_timeout, append_error, call, ret, bind.
  simpl. run; eexists _, _; (split; [reflexivity|]); simpl; flat_trace; repeat split.
Qed.

Lemma perform_search_no_raise page search_query search_button_selector
    wait_for_results wait_timeout box :
  no_raise (perform_search page search_query search_button_selector
              wait_for_results wait_timeout box).
Proof.
  unfold perform_search. apply no_raise_try_except. intros e.
  apply no_raise_bind; [apply no_raise_append_warning | intros; apply no_raise_ret].
Qed.

Lemma search_step_no_raise page should_search search_query search_box_selector
    search_button_selector wait_for_results wait_timeout :
  no_raise (search_step page should_search search_query search_box_selector
              search_button_selector wait_for_results wait_timeout).
Proof.
  unfold search_step. destruct should_search; [|apply no_raise_ret].
  apply no_raise_bind; [apply snapshot_no_raise|]. intros snap.
  apply no_raise_bind; [apply detect_search_box_no_raise|]. intros [box|].
  - apply no_raise_bind; [apply perform_search_no_raise | intros; apply no_raise_ret].
  - apply no_raise_bind; [apply no_raise_append_warning | intros; apply no_raise_ret].
Qed.

(** [_execute_navigate] returns from every state, with [success] set and
    the two lists as they stand at the end of the call.  When no search is
    asked for it performs none, adds no warning, and calls no locator. *)
Lemma execute_navigate_run page url should_search query search_box_selector
    search_button_selector wait_for_results wait_timeout (s : St) :
  exists r s',
    _execute_navigate page url should_search query search_box_selector
      search_button_selector wait_for_results wait_timeout s = (Ok r, s') /\
    success r = true /\
    search_query r = (if should_search then query else None) /\
    res_warnings r = warnings s' /\ res_errors r = errors s' /\
    (should_search = false ->
     search_performed r = false /\
     warnings s' = warnings s /\
     exists evs, trace s' = (trace s ++ evs)%list /\ no_search_call evs).
Proof.
  unfold _execute_navigate.
  destruct (navigate_run page url s) as (s1 & evs1 & E1 & T1 & W1 & Q1).
  unfold bind at 1. rewrite E1.
  destruct (search_step_no_raise page should_search query search_box_selector
              search_button_selector wait_for_results wait_timeout s1)
    as ([snap performed] & s2 & E2).
  unfold bind at 1. rewrite E2. cbn [fst snd].
  destruct (negb (PyStr.truthy snap) || performed) eqn:Hregen.
  - destruct (snapshot_run page s2) as (snap' & s3 & evs3 & E3 & _ & T3 & W3 & R3 & Q3).
    unfold bind at 1. rewrite E3. unfold get_warnings, get_errors, ret, bind.
    eexists _, s3. split; [reflexivity|]. cbn.
    split; [reflexivity|]. split; [reflexivity|].
    split; [reflexivity|]. split; [reflexivity|].
    intros ->. unfold search_step, ret in E2. inversion E2; subst.
    split; [reflexivity|]. split; [congruence|].
    exists (evs1 ++ evs3)%list. split.
    + rewrite T3, T1. symmetry. apply app_assoc.
    + unfold no_search_call in *. rewrite forallb_app, Q1, Q3. reflexivity.
  - unfold ret, get_warnings, get_errors, bind.
    eexists _, s2. split; [reflexivity|]. cbn.
    split; [reflexivity|]. split; [reflexivity|].
    split; [reflexivity|]. split; [reflexivity|].
    intros ->. unfold search_step, ret in E2. inversion E2; subst. discriminate.
Qed.

Lemma execute_navigate_no_raise page url should_search search_query
    search_box_selector search_button_selector wait_for_results wait_timeout :
  no_raise (_execute_navigate page url should_search search_query
              search_box_selector search_button_selector wait_for_results
              wait_timeout).
Proof.
  intros s. destruct (execute_navigate_run page url should_search search_query
    search_box_selector search_button_selector wait_for_results wait_timeout s)
    as (r & s' & E & _). eauto.
Qed.


End Orchestrator.



(** ** The wait for results *)

Section Settle.

Context {World : Type} {PW : Playwright World}.

Local Abbreviation St := (St World).
Local Abbreviation M := (M World).

(** C7, as amended.  The default of [wait_timeout] is 10000.  Once the
    query is typed and the search triggered, with [wait_for_results] set the
    next call waits for the [networkidle] load state with the caller's
    [wait_timeout].  When that wait returns, the search is performed.  When
    it raises (a timeout), the call after it is the fixed wait of 3000 ms;
    when that wait elapses the search is performed, with no warning.  When
    the 3000 ms wait raises as well, the search is not marked as performed
    and the line "Error performing search: ..." is added to [warnings]. *)
Theorem wait_for_results_fallback (page : Page)
    (query search_button_selector : option string) (wait_timeout : Z)
    (box : Locator) (s s1 s2 s3 : St) :
  fill box query s = (Ok tt, s1) ->
  wait_for_timeout page 500 s1 = (Ok tt, s2) ->
  _click_search_button page search_button_selector box s2 = (Ok true, s3) ->
  default_wait_timeout = 10000%Z /\
  match pw_wait_for_load_state page "networkidle" wait_timeout (world s3) with
  | (Ok _, _) =>
      exists s',
        perform_search page query search_button_selector true wait_timeout box s
          = (Ok true, s') /\
        trace s' =
          (trace s3 ++
           [EWaitForLoadState page "networkidle" wait_timeout (Ok tt)])%list /\
        warnings s' = warnings s3
  | (Raise e, w) =>
      match pw_wait_for_timeout page 3000 w with
      | (Ok _, _) =>
          exists s',
            perform_search page query search_button_selector true wait_timeout box s
              = (Ok true, s') /\
            trace s' =
              (trace s3 ++
               [EWaitForLoadState page "networkidle" wait_timeout (Raise e);
                EWaitForTimeout page 3000 (Ok tt)])%list /\
            warnings s' = warnings s3
      | (Raise e', _) =>
          exists s',
            perform_search page query search_button_selector true wait_timeout box s
              = (Ok false, s') /\
            trace s' =
              (trace s3 ++
               [EWaitForLoadState page "networkidle" wait_timeout (Raise e);
                EWaitForTimeout page 3000 (Raise e')])%list /\
            warnings s' =
              py_append (warnings s3) ("Error performing search: " ++ str_exn e')
      end
  end.
Proof.
  intros Hfill Hwait Hclick. split; [reflexivity|].
  assert (Hrun : forall h,
            try_except
              (fill box query ;;
               wait_for_timeout page 500 ;;
               button_clicked <- _click_search_button page search_button_selector box ;;
               if button_clicked || negb (PyStr.truthy_opt search_button_selector) then
                 wait_for_search page true wait_timeout ;; ret true
               else
                 append_warning
                   "Search button not found - search may not have been triggered" ;;
                 ret false) h s =
            try_except (wait_for_search page true wait_timeout ;; ret true) h s3).
  { intros h. unfold try_except.
    rewrite (bind_ok _ _ _ _ _ Hfill), (bind_ok _ _ _ _ _ Hwait),
      (bind_ok _ _ _ _ _ Hclick).
    reflexivity. }
  unfold perform_search. rewrite Hrun. clear Hrun.
  unfold wait_for_search, try_except, wait_for_load_state, wait_for_timeout,
    append_warning, call, ret, bind. simpl.
  destruct (pw_wait_for_load_state page "networkidle" wait_timeout (world s3))
    as [[[]|e] w] eqn:Eidle; simpl.
  - eexists. split; [reflexivity|]. simpl. split; reflexivity.
  - destruct (pw_wait_for_timeout page 3000 w) as [[[]|e'] w'] eqn:Edelay; simpl.
    + eexists. split; [reflexivity|]. simpl. flat_trace. split; reflexivity.
    + eexists. split; [reflexivity|]. simpl. flat_trace. split; reflexivity.
Qed.

End Settle.

Lemma wait_for_results_fallback_witness :
  default_wait_timeout = 10000%Z /\
  exists s',
    perform_search (PW := Fixture.playwright Fixture.busy_shop)
      Fixture.page0 (Some "shoes") None true 10000
      (first (page_locator Fixture.page0 "#q")) (start Fixture.forever)
      = (Ok true, s') /\
    trace s' =
      [ EFill (first (page_locator Fixture.page0 "#q")) (Some "shoes") (Ok tt);
        EWaitForTimeout Fixture.page0 500 (Ok tt);
        ECount (sub_locator (first (page_locator Fixture.page0 "#q"))
                  "xpath=ancestor::form") (Ok 0%Z);
        EIsVisible (first (page_locator Fixture.page0 aria_button_selector)) (Ok false);
        EIsVisible (first (get_by_role Fixture.page0 "button" "Search" false)) (Ok true);
        EClick (first (get_by_role Fixture.page0 "button" "Search" false)) (Ok tt);
        EWaitForLoadState Fixture.page0 "networkidle" 10000 (Raise Fixture.timed_out);
        EWaitForTimeout Fixture.page0 3000 (Ok tt) ] /\
    warnings s' = [].
Proof.
  pose (box := first (page_locator Fixture.page0 "#q")).
  pose (s := @start Z Fixture.forever).
  pose (s1 := snd (fill (PW := Fixture.playwright Fixture.busy_shop) box (Some "shoes") s)).
  pose (s2 := snd (wait_for_timeout (PW := Fixture.playwright Fixture.busy_shop)
                     Fixture.page0 500 s1)).
  pose (s3 := snd (_click_search_button (PW := Fixture.playwright Fixture.busy_shop)
                     Fixture.page0 None box s2)).
  exact (wait_for_results_fallback (PW := Fixture.playwright Fixture.busy_shop)
           Fixture.page0 (Some "shoes") None 10000 box s s1 s2 s3
           eq_refl eq_refl eq_refl).
Defined.

Lemma settle_delay_raises :
  fst (browser_navigate (PW := Fixture.playwright Fixture.busy_shop)
         "https://shop.example" (Some "shoes") true None None
         true 10000 None (Some Fixture.context0) (Some Fixture.page0)
         (start 13500%Z)) =
    Ok (mkResult true "https://shop.example" false (Some "shoes")
          (format_node Fixture.home 0)
          ["Error performing search: Target page, context or browser has been closed"]
          []) /\
  firstn 3 (rev (trace (snd
    (browser_navigate (PW := Fixture.playwright Fixture.busy_shop)
       "https://shop.example" (Some "shoes") true None None
       true 10000 None (Some Fixture.context0) (Some Fixture.page0)
       (start 13500%Z))))) =
    [ EWaitForTimeout Fixture.page0 3000 (Raise Fixture.closed);
      EWaitForLoadState Fixture.page0 "networkidle" 10000 (Raise Fixture.timed_out);
      EClick (first (get_by_role Fixture.page0 "button" "Search" false)) (Ok tt) ].
Proof. split; vm_compute; reflexivity. Qed.

(** ** [browser_navigate] *)

Section Navigate.

Context {World : Type} {PW : Playwright World}.

Local Abbreviation St := (St World).
Local Abbreviation M := (M World).

Lemma no_search_call_app a b :
  no_search_call a -> no_search_call b -> no_search_call (a ++ b).
Proof.
  unfold no_search_call. intros Ha Hb. rewrite forallb_app, Ha, Hb. reflexivity.
Qed.

(** Creating a context, a page, or all of browser, context and page, calls
    no locator and leaves the two lists alone, whether it succeeds or not. *)
Lemma create_context_run browser (s : St) :
  exists out s' evs,
    create_context browser s = (out, s') /\
    trace s' = (trace s ++ evs)%list /\ no_search_call evs /\
    warnings s' = warnings s /\ errors s' = errors s.
Proof.
  unfold create_context, new_context, add_init_script, call, ret, bind. simpl.
  run; eexists _, _, _; (split; [reflexivity|]); simpl; flat_trace; repeat split.
Qed.

Lemma new_page_run context (s : St) :
  exists out s' evs,
    new_page context s = (out, s') /\
    trace s' = (trace s ++ evs)%list /\ no_search_call evs /\
    warnings s' = warnings s /\ errors s' = errors s.
Proof.
  unfold new_page, call. simpl.
  run; eexists _, _, _; (split; [reflexivity|]); simpl; flat_trace; repeat split.
Qed.

Lemma create_page_run (s : St) :
  exists out s' evs,
    create_page s = (out, s') /\
    trace s' = (trace s ++ evs)%list /\ no_search_call evs /\
    warnings s' = warnings s /\ errors s' = errors s.
Proof.
  unfold create_page, create_context, launch, new_context, add_init_script,
    new_page, call, ret, bind. simpl.
  run; eexists _, _, _; (split; [reflexivity|]); simpl; flat_trace; repeat split.
Qed.

Lemma enter_run (s : St) :
  exists out s',
    enter s = (out, s') /\
    trace s' = (trace s ++ [EEnter out])%list /\
    warnings s' = warnings s /\ errors s' = errors s.
Proof.
  unfold enter, call. destruct (pw_enter (world s)) as [out w].
  eexists _, _. split; [reflexivity|]. repeat split.
Qed.

Lemma exit_run (s : St) :
  exists out s',
    exit s = (out, s') /\
    trace s' = (trace s ++ [EExit out])%list /\
    warnings s' = warnings s /\ errors s' = errors s.
Proof.
  unfold exit, call. destruct (pw_exit (world s)) as [out w].
  eexists _, _. split; [reflexivity|]. repeat split.
Qed.

Lemma async_with_run {A : Type} (body : M A) (s : St) :
  async_with body s =
  match enter s with
  | (Ok _, s1) =>
      match body s1 with
      | (r, s2) =>
          match exit s2 with
          | (Ok _, s3) => (r, s3)
          | (Raise e, s3) => (Raise e, s3)
          end
      end
  | (Raise e, s1) => (Raise e, s1)
  end.
Proof.
  unfold async_with, bind. destruct (enter s) as [[[]|e] s1]; reflexivity.
Qed.

(** The record of a fatal failure. *)
Lemma fatal_run (url : string) (should_search : bool) (query : option string)
    (e : exn) (s : St) :
  fatal url should_search query e s =
  (Ok (mkResult false url false (if should_search then query else None) ""
         (warnings s)
         (py_append (errors s) ("Error in browser_navigate: " ++ str_exn e))),
   mkSt (world s) (warnings s)
     (py_append (errors s) ("Error in browser_navigate: " ++ str_exn e))
     (trace s)).
Proof. reflexivity. Qed.

Lemma new_lists_run {A : Type} (k : unit -> M A) (s : St) :
  bind new_lists k s = k tt (mkSt (world s) [] [] (trace s)).
Proof. reflexivity. Qed.

(** With nothing supplied, [browser_navigate] returns from every state. *)
Lemma own_browser_run url query auto_search search_box_selector
    search_button_selector wait_for_results wait_timeout (s : St) :
  exists r s',
    browser_navigate url query auto_search search_box_selector
      search_button_selector wait_for_results wait_timeout None None None s
      = (Ok r, s') /\
    search_query r = (if should_search_of query auto_search then query else None) /\
    (should_search_of query auto_search = false ->
     search_performed r = false /\
     exists evs, trace s' = (trace s ++ evs)%list /\ no_search_call evs).
Proof.
  unfold browser_navigate. cbn [is_not_None orb].
  set (should_search := should_search_of query auto_search).
  rewrite new_lists_run.
  set (s0 := mkSt (world s) [] [] (trace s)).
  unfold try_except. rewrite async_with_run.
  destruct (enter_run s0) as (out1 & s1 & E1 & T1 & _). rewrite E1.
  destruct out1 as [[]|e].
  2:{ rewrite fatal_run. eexists _, _. split; [reflexivity|].
      split; [reflexivity|]. intros _. split; [reflexivity|].
      eexists. split; [exact T1 | reflexivity]. }
  destruct (create_page_run s1) as (out2 & s2 & evs2 & E2 & T2 & Q2 & _).
  destruct out2 as [page|e].
  - rewrite (bind_ok _ _ _ _ _ E2).
    destruct (execute_navigate_run page url should_search query search_box_selector
                search_button_selector wait_for_results wait_timeout s2)
      as (r & s3 & E3 & _ & Hq & _ & _ & Hquiet).
    rewrite E3.
    destruct (exit_run s3) as (out4 & s4 & E4 & T4 & _). rewrite E4.
    assert (Htrace : should_search = false ->
              exists evs, trace s4 = (trace s ++ evs)%list /\ no_search_call evs).
    { intros H. destruct (Hquiet H) as (_ & _ & evs3 & T3 & Q3).
      exists ([EEnter (Ok tt)] ++ evs2 ++ evs3 ++ [EExit out4])%list. split.
      - rewrite T4, T3, T2, T1. cbn [trace s0]. rewrite <- !app_assoc. reflexivity.
      - repeat apply no_search_call_app; try assumption; destruct out4; reflexivity. }
    destruct out4 as [[]|e].
    + exists r, s4. split; [reflexivity|]. split; [exact Hq|].
      intros H. split; [apply (Hquiet H) | apply (Htrace H)].
    + rewrite fatal_run. eexists _, _. split; [reflexivity|].
      split; [reflexivity|]. intros H. split; [reflexivity | apply (Htrace H)].
  - rewrite (bind_raise _ _ _ _ _ E2).
    destruct (exit_run s2) as (out4 & s4 & E4 & T4 & _). rewrite E4.
    assert (Htrace :
              exists evs, trace s4 = (trace s ++ evs)%list /\ no_search_call evs).
    { exists ([EEnter (Ok tt)] ++ evs2 ++ [EExit out4])%list. split.
      - rewrite T4, T2, T1. cbn [trace s0]. rewrite <- !app_assoc. reflexivity.
      - repeat apply no_search_call_app; try assumption; destruct out4; reflexivity. }
    destruct out4 as [[]|e4]; rewrite fatal_run; eexists _, _;
      (split; [reflexivity|]); (split; [reflexivity|]);
      intros _; (split; [reflexivity | exact Htrace]).
Qed.

(** What the call comes to for each way of supplying resources; [s0] is the
    state once the two lists are created. *)
Lemma provided_page_context url query auto_search search_box_selector
    search_button_selector wait_for_results wait_timeout browser c p (s : St) :
  browser_navigate url query auto_search search_box_selector
    search_button_selector wait_for_results wait_timeout browser (Some c) (Some p) s =
  _execute_navigate p url (should_search_of query auto_search) query
    search_box_selector search_button_selector wait_for_results wait_timeout
    (mkSt (world s) [] [] (trace s)).
Proof. destruct browser; reflexivity. Qed.

Lemma provided_context url query auto_search search_box_selector
    search_button_selector wait_for_results wait_timeout browser c (s : St) :
  browser_navigate url query auto_search search_box_selector
    search_button_selector wait_for_results wait_timeout browser (Some c) None s =
  (page <- new_page c ;;
   _execute_navigate page url (should_search_of query auto_search) query
     search_box_selector search_button_selector wait_for_results wait_timeout)
    (mkSt (world s) [] [] (trace s)).
Proof. destruct browser; reflexivity. Qed.

Lemma provided_page_browser url query auto_search search_box_selector
    search_button_selector wait_for_results wait_timeout b p (s : St) :
  browser_navigate url query auto_search search_box_selector
    search_button_selector wait_for_results wait_timeout (Some b) None (Some p) s =
  (create_context b ;;
   _execute_navigate p url (should_search_of query auto_search) query
     search_box_selector search_button_selector wait_for_results wait_timeout)
    (mkSt (world s) [] [] (trace s)).
Proof. reflexivity. Qed.

(** C1, as amended.  When the caller supplies a page and a context,
    [browser_navigate] returns a record with [success=True].  When the caller
    supplies a context and no page, the page is created from the context;
    when the caller supplies a page and a browser and no context, a context
    is created from the browser: the call returns a record with
    [success=True] when that creation returns, and raises the creation's
    exception when it raises.  When the caller supplies a browser alone, or
    a page alone, the call raises [ValueError]. *)
Theorem provided_resources (url : string) (query : option string)
    (auto_search : bool) (search_box_selector search_button_selector : option string)
    (wait_for_results : bool) (wait_timeout : Z) (s : St) :
  let s0 := mkSt (world s) [] [] (trace s) in
  let navigate_with browser context page :=
    browser_navigate url query auto_search search_box_selector
      search_button_selector wait_for_results wait_timeout browser context page s in
  (forall browser c p,
     exists r s', navigate_with browser (Some c) (Some p) = (Ok r, s') /\
                  success r = true) /\
  (forall browser c,
     match new_page c s0 with
     | (Ok _, _) =>
         exists r s', navigate_with browser (Some c) None = (Ok r, s') /\
                      success r = true
     | (Raise e, s1) => navigate_with browser (Some c) None = (Raise e, s1)
     end) /\
  (forall b p,
     match create_context b s0 with
     | (Ok _, _) =>
         exists r s', navigate_with (Some b) None (Some p) = (Ok r, s') /\
                      success r = true
     | (Raise e, s1) => navigate_with (Some b) None (Some p) = (Raise e, s1)
     end) /\
  (forall b,
     navigate_with (Some b) None None =
     (Raise (ValueError
        "If browser is provided, context must also be provided. If context is provided, page must also be provided."),
      s0)) /\
  (forall p,
     navigate_with None None (Some p) =
     (Raise (ValueError "If context is provided, browser must also be provided."),
      s0)).
Proof.
  intros s0 navigate_with. subst navigate_with. cbv beta.
  split; [|split; [|split; [|split]]].
  - intros browser c p. rewrite provided_page_context.
    destruct (execute_navigate_run p url (should_search_of query auto_search) query
                search_box_selector search_button_selector wait_for_results
                wait_timeout s0) as (r & s' & E & Hs & _).
    exists r, s'. split; assumption.
  - intros browser c. rewrite provided_context.
    destruct (new_page c s0) as [[page|e] s1] eqn:Ep.
    + rewrite (bind_ok _ _ _ _ _ Ep).
      destruct (execute_navigate_run page url (should_search_of query auto_search)
                  query search_box_selector search_button_selector wait_for_results
                  wait_timeout s1) as (r & s' & E & Hs & _).
      exists r, s'. split; assumption.
    + apply (bind_raise _ _ _ _ _ Ep).
  - intros b p. rewrite provided_page_browser.
    destruct (create_context b s0) as [[c|e] s1] eqn:Ec.
    + rewrite (bind_ok _ _ _ _ _ Ec).
      destruct (execute_navigate_run p url (should_search_of query auto_search)
                  query search_box_selector search_button_selector wait_for_results
                  wait_timeout s1) as (r & s' & E & Hs & _).
      exists r, s'. split; assumption.
    + apply (bind_raise _ _ _ _ _ Ec).
  - intros b. reflexivity.
  - intros p. reflexivity.
Qed.

(** C8.  When the orchestrator creates its own browser and entering
    Playwright, the launch, or the creation of the context or of the page
    raises, [browser_navigate] returns the record with [success=False],
    [search_performed=False], the empty snapshot, no warning, and one line
    in [errors]: "Error in browser_navigate: " followed by the text of the
    exception (that of the failed creation, or that of the Playwright exit
    handler when it raises in turn). *)
Theorem launch_failure_result (url : string) (query : option string)
    (auto_search : bool) (search_box_selector search_button_selector : option string)
    (wait_for_results : bool) (wait_timeout : Z) (s s1 : St) (e : exn) :
  (enter ;; create_page) (mkSt (world s) [] [] (trace s)) = (Raise e, s1) ->
  exists e' s',
    browser_navigate url query auto_search search_box_selector
      search_button_selector wait_for_results wait_timeout None None None s =
    (Ok (mkResult false url false
           (if should_search_of query auto_search then query else None)
           "" [] ["Error in browser_navigate: " ++ str_exn e']),
     s') /\
    (e' = e \/ exists s2, exit s1 = (Raise e', s2)).
Proof.
  intros Hfail.
  unfold browser_navigate. cbn [is_not_None orb].
  rewrite new_lists_run.
  set (s0 := mkSt (world s) [] [] (trace s)) in *.
  unfold try_except. rewrite async_with_run.
  destruct (enter_run s0) as (out1 & t1 & E1 & _ & W1 & R1).
  unfold bind in Hfail. rewrite E1 in *.
  destruct out1 as [[]|e1].
  - destruct (create_page_run t1) as (out2 & t2 & evs2 & E2 & _ & _ & W2 & R2).
    rewrite E2 in Hfail. inversion Hfail; subst out2 t2. clear Hfail.
    rewrite (bind_raise _ _ _ _ _ E2).
    destruct (exit_run s1) as (out4 & t4 & E4 & _ & W4 & R4). rewrite E4.
    destruct out4 as [[]|e4]; rewrite fatal_run.
    + exists e. eexists. split; [|left; reflexivity].
      rewrite W4, R4, W2, R2, W1, R1. reflexivity.
    + exists e4. eexists. split; [|right; exists t4; reflexivity].
      rewrite W4, R4, W2, R2, W1, R1. reflexivity.
  - inversion Hfail; subst e1 t1. clear Hfail. rewrite fatal_run.
    exists e. eexists. split; [|left; reflexivity].
    rewrite W1, R1. reflexivity.
Qed.

(** C10.  In every record [browser_navigate] returns, [search_query] is the
    caller's query when the query is a non-empty string and [auto_search] is
    set, and [None] otherwise; so it carries a query only when a search was
    asked for.  With [auto_search=False] the field is [None] whatever the
    query, [search_performed] is [False], and the call makes no call on a
    locator: nothing is detected, filled, clicked or pressed. *)
Theorem search_query_echo (url : string) (query : option string)
    (auto_search : bool) (search_box_selector search_button_selector : option string)
    (wait_for_results : bool) (wait_timeout : Z)
    (browser : option Browser) (context : option BrowserContext)
    (page : option Page) (s : St) (r : NavigationResult) :
  fst (browser_navigate url query auto_search search_box_selector
         search_button_selector wait_for_results wait_timeout
         browser context page s) = Ok r ->
  search_query r = (if should_search_of query auto_search then query else None) /\
  (forall q, search_query r = Some q ->
     query = Some q /\ PyStr.truthy q = true /\ auto_search = true) /\
  (auto_search = false ->
   search_query r = None /\
   search_performed r = false /\
   exists evs,
     trace (snd (browser_navigate url query auto_search search_box_selector
                   search_button_selector wait_for_results wait_timeout
                   browser context page s)) = (trace s ++ evs)%list /\
     no_search_call evs).
Proof.
  intros Hret.
  assert (Hcore :
    search_query r = (if should_search_of query auto_search then query else None) /\
    (should_search_of query auto_search = false ->
     search_performed r = false /\
     exists evs,
       trace (snd (browser_navigate url query auto_search search_box_selector
                     search_button_selector wait_for_results wait_timeout
                     browser context page s)) = (trace s ++ evs)%list /\
       no_search_call evs)).
  { assert (Hexec : forall p (t : St) evs0,
      trace t = (trace s ++ evs0)%list -> no_search_call evs0 ->
      forall out t',
        _execute_navigate p url (should_search_of query auto_search) query
          search_box_selector search_button_selector wait_for_results
          wait_timeout t = (out, t') ->
        out = Ok r ->
        search_query r = (if should_search_of query auto_search then query else None) /\
        (should_search_of query auto_search = false ->
         search_performed r = false /\
         exists evs, trace t' = (trace s ++ evs)%list /\ no_search_call evs)).
    { intros p t evs0 Tt Qt out t' Erun Eout.
      destruct (execute_navigate_run p url (should_search_of query auto_search)
                  query search_box_selector search_button_selector
                  wait_for_results wait_timeout t)
        as (r' & t'' & E & _ & Hq & _ & _ & Hquiet).
      rewrite E in Erun.
      assert (Hsame : r' = r /\ t'' = t') by (split; congruence).
      destruct Hsame as (-> & ->). clear Erun Eout.
      split; [exact Hq|]. intros H. destruct (Hquiet H) as (Hp & _ & evs & T & Q).
      split; [exact Hp|]. exists (evs0 ++ evs)%list. split.
      - rewrite T, Tt. symmetry. apply app_assoc.
      - apply no_search_call_app; assumption. }
    destruct context as [c|], page as [p|].
    - rewrite provided_page_context in *.
      set (s0 := mkSt (world s) [] [] (trace s)) in *.
      destruct (_execute_navigate p url (should_search_of query auto_search) query search_box_selector
                  search_button_selector wait_for_results wait_timeout s0)
        as [out t'] eqn:Erun.
      apply (Hexec p s0 [] (eq_sym (app_nil_r _)) eq_refl out t' Erun Hret).
    - rewrite provided_context in *.
      set (s0 := mkSt (world s) [] [] (trace s)) in *.
      destruct (new_page_run c s0) as (out1 & t1 & evs1 & E1 & T1 & Q1 & _).
      destruct out1 as [p|e].
      + rewrite (bind_ok _ _ _ _ _ E1) in *.
        destruct (_execute_navigate p url (should_search_of query auto_search) query search_box_selector
                    search_button_selector wait_for_results wait_timeout t1)
          as [out t'] eqn:Erun.
        apply (Hexec p t1 evs1 T1 Q1 out t' Erun Hret).
      + rewrite (bind_raise _ _ _ _ _ E1) in Hret. discriminate.
    - destruct browser as [b|].
      + rewrite provided_page_browser in *.
        set (s0 := mkSt (world s) [] [] (trace s)) in *.
        destruct (create_context_run b s0) as (out1 & t1 & evs1 & E1 & T1 & Q1 & _).
        destruct out1 as [c|e].
        * rewrite (bind_ok _ _ _ _ _ E1) in *.
          destruct (_execute_navigate p url (should_search_of query auto_search) query search_box_selector
                      search_button_selector wait_for_results wait_timeout t1)
            as [out t'] eqn:Erun.
          apply (Hexec p t1 evs1 T1 Q1 out t' Erun Hret).
        * rewrite (bind_raise _ _ _ _ _ E1) in Hret. discriminate.
      + discriminate.
    - destruct browser as [b|]; [discriminate|].
      destruct (own_browser_run url query auto_search search_box_selector
                  search_button_selector wait_for_results wait_timeout s)
        as (r' & s' & E & Hq & Hquiet).
      rewrite E in *. inversion Hret; subst r'. split; assumption. }
  destruct Hcore as (Hq & Hquiet). split; [exact Hq|]. split.
  - intros q Hsome. rewrite Hq in Hsome. unfold should_search_of in Hsome.
    destruct query as [q0|]; cbn in Hsome;
      [destruct (PyStr.truthy q0) eqn:Ht, auto_search|]; try discriminate.
    inversion Hsome; subst q0. repeat split. exact Ht.
  - intros ->.
    assert (Hno : should_search_of query false = false).
    { unfold should_search_of. apply andb_false_r. }
    rewrite Hno in Hq. split; [exact Hq | apply (Hquiet Hno)].
Qed.

End Navigate.

(** ** Runs on the concrete sites *)

Lemma browser_only_raises :
  fst (browser_navigate (PW := Fixture.playwright Fixture.shop)
         "https://shop.example" (Some "shoes") true None None true 10000
         (Some Fixture.browser0) None None (start Fixture.forever)) =
  Raise (ValueError
    "If browser is provided, context must also be provided. If context is provided, page must also be provided.").
Proof. vm_compute. reflexivity. Qed.

Lemma explicit_selector_wins_witness :
  exists s',
    _detect_search_box (PW := Fixture.playwright Fixture.labelled)
      Fixture.page0 (Some "#q") "" (start Fixture.forever) =
      (Ok (Some (first (page_locator Fixture.page0 "#q"))), s') /\
    trace s' = [EIsVisible (first (page_locator Fixture.page0 "#q")) (Ok true)] /\
    warnings s' = [] /\
    world s' = Fixture.forever.
Proof.
  apply (explicit_selector_wins (PW := Fixture.playwright Fixture.labelled)
           Fixture.page0 "#q" "" (start Fixture.forever) Fixture.forever);
    vm_compute; reflexivity.
Defined.

Lemma scan_selectors_verified_witness :
  exists selector tag before,
    In selector selectors /\
    first (page_locator Fixture.page0 ("input[type=" ++ PyStr.q "search" ++ "]")) =
      first (page_locator Fixture.page0 selector) /\
    trace (snd (scan_selectors (PW := Fixture.playwright Fixture.shop)
                  Fixture.page0 selectors (start Fixture.forever))) =
      (trace (start Fixture.forever) ++ before ++
       [EIsVisible
          (first (page_locator Fixture.page0 ("input[type=" ++ PyStr.q "search" ++ "]")))
          (Ok true);
        ETagName
          (first (page_locator Fixture.page0 ("input[type=" ++ PyStr.q "search" ++ "]")))
          (Ok tag)])%list /\
    PyStr.in_list (PyStr.upper tag) ["INPUT"; "TEXTAREA"] = true.
Proof.
  apply (proj1 (scan_selectors_verified (PW := Fixture.playwright Fixture.shop))
           Fixture.page0 selectors (start Fixture.forever)).
  vm_compute. reflexivity.
Defined.

Lemma launch_failure_result_witness :
  exists e' s',
    browser_navigate (PW := Fixture.playwright Fixture.no_chromium)
      "https://shop.example" (Some "shoes") true None None true 10000
      None None None (start Fixture.forever) =
    (Ok (mkResult false "https://shop.example" false (Some "shoes") "" []
           ["Error in browser_navigate: " ++ str_exn e']),
     s') /\
    (e' = Error "Executable doesn't exist" \/
     exists s2,
       exit (PW := Fixture.playwright Fixture.no_chromium)
         (snd ((enter (PW := Fixture.playwright Fixture.no_chromium) ;;
                create_page (PW := Fixture.playwright Fixture.no_chromium))
                 (start Fixture.forever))) = (Raise e', s2)).
Proof.
  apply (launch_failure_result (PW := Fixture.playwright Fixture.no_chromium)
           "https://shop.example" (Some "shoes") true None None true 10000
           (start Fixture.forever)).
  vm_compute. reflexivity.
Defined.

Lemma search_query_echo_witness :
  search_query
    (mkResult true "https://shop.example" false None
       (format_node Fixture.home 0) [] []) = None /\
  search_performed
    (mkResult true "https://shop.example" false None
       (format_node Fixture.home 0) [] []) = false /\
  exists evs,
    trace (snd (browser_navigate (PW := Fixture.playwright Fixture.shop)
                  "https://shop.example" (Some "shoes") false None None
                  true 10000 None None None (start Fixture.forever))) =
      (trace (start Fixture.forever) ++ evs)%list /\
    no_search_call evs.
Proof.
  apply (search_query_echo (PW := Fixture.playwright Fixture.shop)
           "https://shop.example" (Some "shoes") false None None true 10000
           None None None (start Fixture.forever)
           (mkResult true "https://shop.example" false None
              (format_node Fixture.home 0) [] [])).
  - vm_compute. reflexivity.
  - reflexivity.
Defined.

(** On a page with twelve buttons the scan reads the text of the first ten. *)
Example text_scan_reads_ten :
  examined
    (trace (snd (click_by_keyword (PW := Fixture.playwright Fixture.crowded)
                   Fixture.page0 (start Fixture.forever)))) =
  firstn 10 Fixture.menu_buttons.
Proof. vm_compute. reflexivity. Qed.

(** Under the asynchronous API the list is a coroutine, the slice raises,
    and the scan reads no text at all. *)
Example text_scan_reads_none :
  examined
    (trace (snd (click_by_keyword (PW := Fixture.playwright Fixture.plain)
                   Fixture.page0 (start Fixture.forever)))) = [].
Proof. vm_compute. reflexivity. Qed.

(** * Further properties *)

(** ** Frames *)

Section Keeps.

Context {World : Type} {PW : Playwright World}.

Local Abbreviation St := (St World).
Local Abbreviation M := (M World).

Variable R : St -> St -> Prop.
Hypothesis R_refl : forall s, R s s.
Hypothesis R_trans : forall a b c, R a b -> R b c -> R a c.

Lemma keeps_ret {A : Type} (a : A) : keeps R (ret a : M A).
Proof. intros s. apply R_refl. Qed.

Lemma keeps_raise {A : Type} (e : exn) : keeps R (raise e : M A).
Proof. intros s. apply R_refl. Qed.

Lemma keeps_bind {A B : Type} (m : M A) (k : A -> M B) :
  keeps R m -> (forall a, keeps R (k a)) -> keeps R (bind m k).
Proof.
  intros Hm Hk s. specialize (Hm s). unfold bind.
  destruct (m s) as [[a|e] s1]; cbn [snd] in *.
  - eapply R_trans; [exact Hm | apply Hk].
  - exact Hm.
Qed.

Lemma keeps_try_except {A : Type} (m : M A) (h : exn -> M A) :
  keeps R m -> (forall e, keeps R (h e)) -> keeps R (try_except m h).
Proof.
  intros Hm Hh s. specialize (Hm s). unfold try_except.
  destruct (m s) as [[a|e] s1]; cbn [snd] in *.
  - exact Hm.
  - eapply R_trans; [exact Hm | apply Hh].
Qed.

Lemma keeps_or_else {A : Type} (stage next : M (option A)) :
  keeps R stage -> keeps R next -> keeps R (or_else stage next).
Proof.
  intros Hs Hn. apply keeps_bind; [exact Hs|].
  intros [a|]; [apply keeps_ret | exact Hn].
Qed.

Lemma keeps_or_next (stage next : M bool) :
  keeps R stage -> keeps R next -> keeps R (or_next stage next).
Proof.
  intros Hs Hn. apply keeps_bind; [exact Hs|].
  intros [|]; [apply keeps_ret | exact Hn].
Qed.

End Keeps.

Section PageStep.

Context {World : Type} {PW : Playwright World}.

Local Abbreviation St := (St World).
Local Abbreviation M := (M World).

Lemma page_calls_app a b : page_calls a -> page_calls b -> page_calls (a ++ b).
Proof.
  unfold page_calls. intros Ha Hb. rewrite forallb_app, Ha, Hb. reflexivity.
Qed.

Lemma page_step_refl (s : St) : page_step s s.
Proof. split; [reflexivity|]. exists []. split; [symmetry; apply app_nil_r | reflexivity]. Qed.

Lemma page_step_trans (a b c : St) : page_step a b -> page_step b c -> page_step a c.
Proof.
  intros (Eab & evs1 & T1 & Q1) (Ebc & evs2 & T2 & Q2). split; [congruence|].
  exists (evs1 ++ evs2)%list. split.
  - rewrite T2, T1. symmetry. apply app_assoc.
  - apply page_calls_app; assumption.
Qed.

Lemma silent_step_refl (s : St) : silent_step s s.
Proof. split; [reflexivity | apply page_step_refl]. Qed.

Lemma silent_step_trans (a b c : St) :
  silent_step a b -> silent_step b c -> silent_step a c.
Proof.
  intros (Wab & Hab) (Wbc & Hbc). split; [congruence|].
  eapply page_step_trans; eassumption.
Qed.

Lemma silent_call {A : Type} (op : World -> Res A * World) (ev : Res A -> Event) :
  (forall r, is_lifecycle (ev r) = false) -> keeps silent_step (call op ev : M A).
Proof.
  intros Hev s. unfold call. destruct (op (world s)) as [r w]. cbn.
  split; [reflexivity|]. split; [reflexivity|].
  exists [ev r]. split; [reflexivity|]. unfold page_calls. cbn. rewrite Hev. reflexivity.
Qed.

Lemma silent_page_step {A : Type} (m : M A) : keeps silent_step m -> keeps page_step m.
Proof. intros H s. apply H. Qed.

Lemma page_append_warning (msg : string) : keeps page_step (append_warning msg : M unit).
Proof.
  intros s. cbn. split; [reflexivity|]. exists []. split; [symmetry; apply app_nil_r | reflexivity].
Qed.

End PageStep.

(** Proves [keeps silent_step m] or [keeps page_step m] for a computation
    written with the monad's combinators over calls on the page. *)
Ltac frame :=
  repeat first
    [ assumption
    | match goal with
      | H : _ |- keeps _ _ => apply H
      | H : _ |- keeps page_step _ => apply silent_page_step; apply H
      end
    | apply (keeps_ret silent_step silent_step_refl)
    | apply (keeps_raise silent_step silent_step_refl)
    | apply (keeps_bind silent_step silent_step_trans)
    | apply (keeps_try_except silent_step silent_step_trans)
    | apply (keeps_or_else silent_step silent_step_refl silent_step_trans)
    | apply (keeps_or_next silent_step silent_step_refl silent_step_trans)
    | apply (keeps_ret page_step page_step_refl)
    | apply (keeps_raise page_step page_step_refl)
    | apply (keeps_bind page_step page_step_trans)
    | apply (keeps_try_except page_step page_step_trans)
    | apply (keeps_or_else page_step page_step_refl page_step_trans)
    | apply (keeps_or_next page_step page_step_refl page_step_trans)
    | apply page_append_warning
    | apply silent_call; intros ?; reflexivity
    | apply silent_page_step; apply silent_call; intros ?; reflexivity
    | match goal with
      | |- forall _, _ => intros ?
      | |- keeps _ (if ?b then _ else _) => destruct b
      | |- keeps _ (match ?x with _ => _ end) => destruct x
      end ].

Section FrameFacts.

Context {World : Type} {PW : Playwright World}.

Local Abbreviation St := (St World).
Local Abbreviation M := (M World).

Lemma snapshot_silent page : keeps silent_step (_generate_accessibility_snapshot page).
Proof.
  unfold _generate_accessibility_snapshot, accessibility_snapshot, evaluate_dom.
  frame.
Qed.

Lemma click_if_visible_silent button : keeps silent_step (click_if_visible button).
Proof. unfold click_if_visible, is_visible, click. frame. Qed.

Lemma click_form_submit_silent box : keeps silent_step (click_form_submit box).
Proof.
  unfold click_form_submit, count. pose proof click_if_visible_silent. frame.
Qed.

Lemma click_aria_silent page : keeps silent_step (click_aria page).
Proof. unfold click_aria. pose proof click_if_visible_silent. frame. Qed.

Lemma click_by_role_silent page patterns : keeps silent_step (click_by_role page patterns).
Proof.
  induction patterns as [|pattern rest IH]; cbn [click_by_role];
    pose proof click_if_visible_silent; frame.
Qed.

Lemma click_by_text_silent buttons : keeps silent_step (click_by_text buttons).
Proof.
  induction buttons as [|btn rest IH]; cbn [click_by_text];
    pose proof click_if_visible_silent; unfold inner_text; frame.
Qed.

Lemma click_by_keyword_silent page : keeps silent_step (click_by_keyword page).
Proof.
  unfold click_by_keyword, all, first_10.
  pose proof click_by_role_silent. pose proof click_by_text_silent. frame.
Qed.

Lemma click_search_button_page page explicit_selector box :
  keeps page_step (_click_search_button page explicit_selector box).
Proof.
  unfold _click_search_button, click_explicit, press_enter, press.
  pose proof click_if_visible_silent. pose proof click_form_submit_silent.
  pose proof click_aria_silent. pose proof click_by_keyword_silent.
  frame.
Qed.

Lemma detect_search_box_page page explicit_selector snapshot :
  keeps page_step (_detect_search_box page explicit_selector snapshot).
Proof.
  assert (Hscan : forall sels, keeps silent_step (scan_selectors page sels)).
  { induction sels as [|sel rest IH]; cbn [scan_selectors];
      unfold probe_selector, is_visible, tag_name; frame. }
  unfold _detect_search_box, detect_explicit, detect_role, is_visible. frame.
Qed.

Lemma perform_search_page page query search_button_selector wait_for_results
    wait_timeout box :
  keeps page_step (perform_search page query search_button_selector
                     wait_for_results wait_timeout box).
Proof.
  unfold perform_search, wait_for_search, fill, wait_for_timeout, wait_for_load_state.
  pose proof click_search_button_page. frame.
Qed.

Lemma search_step_page page should_search query search_box_selector
    search_button_selector wait_for_results wait_timeout :
  keeps page_step (search_step page should_search query search_box_selector
                     search_button_selector wait_for_results wait_timeout).
Proof.
  unfold search_step.
  pose proof snapshot_silent. pose proof detect_search_box_page.
  pose proof perform_search_page. frame.
Qed.

End FrameFacts.

(** ** More on the orchestrator *)

Section MoreOrchestrator.

Context {World : Type} {PW : Playwright World}.

Local Abbreviation St := (St World).
Local Abbreviation M := (M World).

Lemma navigate_errors page target (s : St) :
  exists s' evs,
    navigate page target s = (Ok tt, s') /\
    warnings s' = warnings s /\
    errors s' = (errors s ++ navigation_error page target (world s))%list /\
    trace s' = (trace s ++ evs)%list /\ page_calls evs.
Proof.
  unfold navigate, navigation_error, try_except, goto, wait_for_timeout,
    append_error, call, ret, bind. simpl.
  destruct (pw_goto page target "load" 30000 (world s)) as [[[]|e] w] eqn:Eg; simpl.
  - destruct (pw_wait_for_timeout page 2000 w) as [[[]|e] w'] eqn:Ew; simpl.
    + eexists _, _. split; [reflexivity|]. simpl. flat_trace.
      rewrite app_nil_r. repeat split.
    + eexists _, _. split; [reflexivity|]. simpl. flat_trace. repeat split.
  - eexists _, _. split; [reflexivity|]. simpl. flat_trace. repeat split.
Qed.

Lemma execute_navigate_frame (page : Page) (target : string)
    (should_search : bool)
    (query search_box_selector search_button_selector : option string)
    (wait_for_results : bool) (wait_timeout : Z) (s : St) :
  exists r s',
    _execute_navigate page target should_search query search_box_selector
      search_button_selector wait_for_results wait_timeout s = (Ok r, s') /\
    success r = true /\
    url r = target /\
    res_warnings r = warnings s' /\
    res_errors r = (errors s ++ navigation_error page target (world s))%list /\
    exists evs, trace s' = (trace s ++ evs)%list /\ page_calls evs.
Proof.
  unfold _execute_navigate.
  destruct (navigate_errors page target s) as (s1 & evs1 & E1 & _ & R1 & T1 & Q1).
  rewrite (bind_ok _ _ _ _ _ E1).
  destruct (search_step_no_raise page should_search query search_box_selector
              search_button_selector wait_for_results wait_timeout s1)
    as ([snap performed] & s2 & E2).
  pose proof (search_step_page page should_search query search_box_selector
                search_button_selector wait_for_results wait_timeout s1) as H2.
  rewrite E2 in H2. cbn [snd] in H2. destruct H2 as (R2 & evs2 & T2 & Q2).
  rewrite (bind_ok _ _ _ _ _ E2). cbn [fst snd].
  destruct (negb (PyStr.truthy snap) || performed).
  - destruct (snapshot_no_raise page s2) as (snap' & s3 & E3).
    pose proof (snapshot_silent page s2) as H3.
    rewrite E3 in H3. cbn [snd] in H3. destruct H3 as (_ & R3 & evs3 & T3 & Q3).
    rewrite (bind_ok _ _ _ _ _ E3).
    eexists _, s3. split; [reflexivity|]. cbn.
    split; [reflexivity|]. split; [reflexivity|]. split; [reflexivity|].
    split; [congruence|].
    exists (evs1 ++ evs2 ++ evs3)%list. split.
    + rewrite T3, T2, T1, <- !app_assoc. reflexivity.
    + repeat apply page_calls_app; assumption.
  - eexists _, s2. split; [reflexivity|]. cbn.
    split; [reflexivity|]. split; [reflexivity|]. split; [reflexivity|].
    split; [congruence|].
    exists (evs1 ++ evs2)%list. split.
    + rewrite T2, T1, <- !app_assoc. reflexivity.
    + apply page_calls_app; assumption.
Qed.

(** X1.  Once it has a page, [_execute_navigate] returns from every state,
    whatever the page does, with [success=True] and the caller's URL.  The
    warnings and errors of the record are the accumulators at the end of the
    call, and the only line the call can add to [errors] is the one of a
    failed navigation: "Navigation error: " followed by the exception of
    [goto] or of the 2000 ms wait after it. *)
Theorem execute_navigate_errors (page : Page) (target : string)
    (should_search : bool)
    (query search_box_selector search_button_selector : option string)
    (wait_for_results : bool) (wait_timeout : Z) (s : St) :
  exists r s',
    _execute_navigate page target should_search query search_box_selector
      search_button_selector wait_for_results wait_timeout s = (Ok r, s') /\
    success r = true /\
    url r = target /\
    res_warnings r = warnings s' /\
    res_errors r = (errors s ++ navigation_error page target (world s))%list.
Proof.
  destruct (execute_navigate_frame page target should_search query
              search_box_selector search_button_selector wait_for_results
              wait_timeout s) as (r & s' & E & Hs & Hu & Hw & He & _).
  exists r, s'. repeat split; assumption.
Qed.

(** X2.  [_generate_accessibility_snapshot] returns from every state, with
    a string that is never empty, and touches neither list.  It makes one
    call, the accessibility snapshot, when that call returns; when that call
    raises it makes a second one, the DOM script, and no other. *)
Theorem snapshot_total (page : Page) (s : St) :
  exists snap s',
    _generate_accessibility_snapshot page s = (Ok snap, s') /\
    PyStr.truthy snap = true /\
    warnings s' = warnings s /\ errors s' = errors s /\
    ((exists tree,
        trace s' = (trace s ++ [EAccessibilitySnapshot page (Ok tree)])%list) \/
     (exists e r,
        trace s' =
          (trace s ++ [EAccessibilitySnapshot page (Raise e); EEvaluateDom page r])%list)).
Proof.
  unfold _generate_accessibility_snapshot, try_except, accessibility_snapshot,
    evaluate_dom, call, ret, bind. simpl.
  destruct (pw_accessibility_snapshot page (world s)) as [[[node|]|e] w] eqn:Ea; simpl.
  - destruct (PyDict.truthy node) eqn:Hn.
    + eexists _, _. split; [reflexivity|]. simpl.
      split; [apply format_node_truthy, Hn|]. repeat split.
      left. exists (Some node). reflexivity.
    + eexists _, _. split; [reflexivity|]. simpl. repeat split.
      left. exists (Some node). reflexivity.
  - eexists _, _. split; [reflexivity|]. simpl. repeat split.
    left. exists None. reflexivity.
  - destruct (pw_evaluate_dom page w) as [[text|e'] w'] eqn:Ed; simpl.
    + eexists _, _. split; [reflexivity|]. simpl. flat_trace.
      split; [destruct text; reflexivity|]. repeat split.
      right. exists e, (Ok text). reflexivity.
    + eexists _, _. split; [reflexivity|]. simpl. flat_trace. repeat split.
      right. exists e, (Raise e'). reflexivity.
Qed.

End MoreOrchestrator.

(** ** More on the trigger *)

Section MoreTrigger.

Context {World : Type} {PW : Playwright World}.

Local Abbreviation St := (St World).
Local Abbreviation M := (M World).

(** X3.  When the query is typed and every trigger then fails (no click
    succeeds and the Enter press raises), what happens depends on whether the
    caller named a search button.  With a non-empty [search_button_selector]
    the search is not performed and the warning "Search button not found -
    search may not have been triggered" is added, with no wait.  With none,
    the flow goes on to the wait for results as if the search had been
    triggered, and the search is marked as performed once that wait is
    over. *)
Theorem trigger_leniency (page : Page)
    (query search_button_selector : option string)
    (wait_for_results : bool) (wait_timeout : Z) (box : Locator)
    (s s1 s2 s3 : St) :
  fill box query s = (Ok tt, s1) ->
  wait_for_timeout page 500 s1 = (Ok tt, s2) ->
  _click_search_button page search_button_selector box s2 = (Ok false, s3) ->
  (PyStr.truthy_opt search_button_selector = true ->
   perform_search page query search_button_selector wait_for_results
     wait_timeout box s =
   (Ok false,
    mkSt (world s3)
      (py_append (warnings s3)
         "Search button not found - search may not have been triggered")
      (errors s3) (trace s3))) /\
  (PyStr.truthy_opt search_button_selector = false ->
   forall s4,
     wait_for_search page wait_for_results wait_timeout s3 = (Ok tt, s4) ->
     perform_search page query search_button_selector wait_for_results
       wait_timeout box s = (Ok true, s4)).
Proof.
  intros Hfill Hwait Hclick.
  unfold perform_search, try_except.
  rewrite (bind_ok _ _ _ _ _ Hfill), (bind_ok _ _ _ _ _ Hwait),
    (bind_ok _ _ _ _ _ Hclick).
  split; intros Hsel; rewrite Hsel; cbn [orb negb].
  - reflexivity.
  - intros s4 Hsettle. rewrite (bind_ok _ _ _ _ _ Hsettle). reflexivity.
Qed.

Lemma click_explicit_warnings page explicit_selector (s : St) :
  exists b s' ws,
    click_explicit page explicit_selector s = (Ok b, s') /\
    warnings s' = (warnings s ++ ws)%list /\
    (ws = [] \/
     exists sel e,
       explicit_selector = Some sel /\ PyStr.truthy sel = true /\
       ws = ["Explicit button selector '" ++ sel ++ "' not found: " ++ str_exn e]).
Proof.
  unfold click_explicit.
  destruct explicit_selector as [sel|];
    [destruct (PyStr.truthy sel) eqn:Hsel|].
  - unfold try_except, click_if_visible, is_visible, click, append_warning,
      call, ret, bind. simpl.
    run.
    + eexists _, _, []. split; [reflexivity|]. simpl. rewrite app_nil_r. auto.
    + eexists _, _, [_]. split; [reflexivity|]. simpl. split; [reflexivity|].
      right. exists sel, e. auto.
    + eexists _, _, []. split; [reflexivity|]. simpl. rewrite app_nil_r. auto.
    + eexists _, _, [_]. split; [reflexivity|]. simpl. split; [reflexivity|].
      right. exists sel, e. auto.
  - exists false, s, []. rewrite app_nil_r. auto.
  - exists false, s, []. rewrite app_nil_r. auto.
Qed.

Lemma press_enter_warnings box (s : St) :
  exists b s' ws,
    press_enter box s = (Ok b, s') /\
    warnings s' = (warnings s ++ ws)%list /\
    (if b then ws = []
     else exists e, ws = ["Failed to press Enter in search box: " ++ str_exn e]).
Proof.
  unfold press_enter, try_except, press, append_warning, call, ret, bind. simpl.
  run.
  - exists true. eexists _, []. split; [reflexivity|]. simpl.
    rewrite app_nil_r. auto.
  - exists false. eexists _, [_]. split; [reflexivity|]. simpl.
    split; [reflexivity|]. exists e. reflexivity.
Qed.

(** A stage that cannot raise and adds no warning. *)
Lemma silent_stage (m : M bool) (s : St) :
  stage_ok m -> keeps silent_step m ->
  exists b s', m s = (Ok b, s') /\ warnings s' = warnings s.
Proof.
  intros Hok Hsilent. destruct (Hok s) as (b & s' & _ & E & _).
  specialize (Hsilent s). rewrite E in Hsilent. destruct Hsilent as (W & _).
  exists b, s'. split; assumption.
Qed.

(** X4.  The warnings of [_click_search_button].  It leaves [errors] alone
    and adds at most two lines to [warnings]: "Explicit button selector ...
    not found", only when a non-empty explicit selector was given, followed
    by "Failed to press Enter in search box", exactly when the result is
    [False]. *)
Theorem click_search_button_warnings (page : Page)
    (explicit_selector : option string) (box : Locator) (s : St) :
  exists b s' ws1 ws2,
    _click_search_button page explicit_selector box s = (Ok b, s') /\
    warnings s' = (warnings s ++ ws1 ++ ws2)%list /\
    errors s' = errors s /\
    (ws1 = [] \/
     exists sel e,
       explicit_selector = Some sel /\ PyStr.truthy sel = true /\
       ws1 = ["Explicit button selector '" ++ sel ++ "' not found: " ++ str_exn e]) /\
    (if b then ws2 = []
     else exists e, ws2 = ["Failed to press Enter in search box: " ++ str_exn e]).
Proof.
  pose proof (click_search_button_page page explicit_selector box s) as Herr.
  destruct Herr as (Herr & _). revert Herr.
  unfold _click_search_button, or_next.
  destruct (click_explicit_warnings page explicit_selector s)
    as (b1 & s1 & ws1 & E1 & W1 & H1).
  rewrite (bind_ok _ _ _ _ _ E1). destruct b1.
  { intros Herr. exists true, s1, ws1, []. rewrite app_nil_r. cbn in Herr. auto. }
  destruct (silent_stage _ s1 (stage_ok_click_form_submit box)
              (click_form_submit_silent box)) as (b2 & s2 & E2 & W2).
  rewrite (bind_ok _ _ _ _ _ E2). destruct b2.
  { intros Herr. exists true, s2, ws1, []. rewrite app_nil_r. cbn in Herr.
    split; [reflexivity|]. split; [congruence|]. auto. }
  destruct (silent_stage _ s2 (stage_ok_click_aria page)
              (click_aria_silent page)) as (b3 & s3 & E3 & W3).
  rewrite (bind_ok _ _ _ _ _ E3). destruct b3.
  { intros Herr. exists true, s3, ws1, []. rewrite app_nil_r. cbn in Herr.
    split; [reflexivity|]. split; [congruence|]. auto. }
  destruct (silent_stage _ s3 (stage_ok_click_by_keyword page)
              (click_by_keyword_silent page)) as (b4 & s4 & E4 & W4).
  rewrite (bind_ok _ _ _ _ _ E4). destruct b4.
  { intros Herr. exists true, s4, ws1, []. rewrite app_nil_r. cbn in Herr.
    split; [reflexivity|]. split; [congruence|]. auto. }
  destruct (press_enter_warnings box s4) as (b5 & s5 & ws2 & E5 & W5 & H5).
  rewrite E5. intros Herr. cbn in Herr.
  exists b5, s5, ws1, ws2. split; [reflexivity|].
  split; [rewrite W5, W4, W3, W2, W1; symmetry; apply app_assoc|]. auto.
Qed.

End MoreTrigger.

Lemma trigger_leniency_witness :
  exists s4,
    perform_search (PW := Fixture.playwright Fixture.inert)
      Fixture.page0 (Some "shoes") None true 10000
      (first (page_locator Fixture.page0 "#q")) (start Fixture.forever)
      = (Ok true, s4) /\
    warnings s4 = ["Failed to press Enter in search box: element is not editable"].
Proof.
  pose (box := first (page_locator Fixture.page0 "#q")).
  pose (s := @start Z Fixture.forever).
  pose (s1 := snd (fill (PW := Fixture.playwright Fixture.inert) box (Some "shoes") s)).
  pose (s2 := snd (wait_for_timeout (PW := Fixture.playwright Fixture.inert)
                     Fixture.page0 500 s1)).
  pose (s3 := snd (_click_search_button (PW := Fixture.playwright Fixture.inert)
                     Fixture.page0 None box s2)).
  pose (s4 := snd (wait_for_search (PW := Fixture.playwright Fixture.inert)
                     Fixture.page0 true 10000 s3)).
  exists s4. split.
  - exact (proj2 (trigger_leniency (PW := Fixture.playwright Fixture.inert)
                    Fixture.page0 (Some "shoes") None true 10000 box s s1 s2 s3
                    eq_refl eq_refl eq_refl) eq_refl s4 eq_refl).
  - reflexivity.
Defined.

(** ** Ownership of the browser *)

Section Ownership.

Context {World : Type} {PW : Playwright World}.

Local Abbreviation St := (St World).
Local Abbreviation M := (M World).

Lemma page_calls_no_session evs : page_calls evs -> no_session evs.
Proof.
  unfold page_calls, no_session. induction evs as [|ev evs IH]; [reflexivity|].
  cbn. intros H. apply andb_true_iff in H. destruct H as (Hev & Hrest).
  rewrite (IH Hrest), andb_true_r. destruct ev; try reflexivity; discriminate.
Qed.

Lemma page_calls_no_ownership evs : page_calls evs -> no_ownership evs.
Proof.
  unfold page_calls, no_ownership. induction evs as [|ev evs IH]; [reflexivity|].
  cbn. intros H. apply andb_true_iff in H. destruct H as (Hev & Hrest).
  rewrite (IH Hrest), andb_true_r. destruct ev; try reflexivity; discriminate.
Qed.

Lemma no_session_app a b : no_session a -> no_session b -> no_session (a ++ b).
Proof.
  unfold no_session. intros Ha Hb. rewrite forallb_app, Ha, Hb. reflexivity.
Qed.

Lemma no_ownership_app a b : no_ownership a -> no_ownership b -> no_ownership (a ++ b).
Proof.
  unfold no_ownership. intros Ha Hb. rewrite forallb_app, Ha, Hb. reflexivity.
Qed.

Lemma create_page_session (s : St) :
  exists out s' evs,
    create_page s = (out, s') /\
    trace s' = (trace s ++ evs)%list /\ no_session evs.
Proof.
  unfold create_page, create_context, launch, new_context, add_init_script,
    new_page, call, ret, bind. simpl.
  run; eexists _, _, _; (split; [reflexivity|]); simpl; flat_trace; repeat split.
Qed.

Lemma create_context_ownership browser (s : St) :
  exists out s' evs,
    create_context browser s = (out, s') /\
    trace s' = (trace s ++ evs)%list /\ no_ownership evs.
Proof.
  unfold create_context, new_context, add_init_script, call, ret, bind. simpl.
  run; eexists _, _, _; (split; [reflexivity|]); simpl; flat_trace; repeat split.
Qed.

Lemma new_page_ownership context (s : St) :
  exists out s' evs,
    new_page context s = (out, s') /\
    trace s' = (trace s ++ evs)%list /\ no_ownership evs.
Proof.
  unfold new_page, call. simpl.
  run; eexists _, _, _; (split; [reflexivity|]); simpl; flat_trace; repeat split.
Qed.

(** X5.  With nothing supplied, [browser_navigate] returns a record from
    every state.  When entering Playwright raises, that is its only call.
    Otherwise Playwright is left exactly once, as the last call, on every
    path: whether the launch, the creation of the context or the page, or
    anything after it failed or not.  When leaving raises, the record
    returned is the one of a fatal failure, whatever the navigation had
    produced. *)
Theorem own_browser_cleanup (target : string) (query : option string)
    (auto_search : bool) (search_box_selector search_button_selector : option string)
    (wait_for_results : bool) (wait_timeout : Z) (s : St) :
  exists r s' evs,
    browser_navigate target query auto_search search_box_selector
      search_button_selector wait_for_results wait_timeout None None None s
      = (Ok r, s') /\
    trace s' = (trace s ++ evs)%list /\
    ((exists e, evs = [EEnter (Raise e)] /\ success r = false) \/
     (exists middle out,
        evs = (EEnter (Ok tt) :: middle ++ [EExit out])%list /\
        no_session middle /\
        (is_ok out = false -> success r = false /\ snapshot r = ""))).
Proof.
  unfold browser_navigate. cbn [is_not_None orb].
  set (should_search := should_search_of query auto_search).
  rewrite new_lists_run.
  set (s0 := mkSt (world s) [] [] (trace s)).
  unfold try_except. rewrite async_with_run.
  destruct (enter_run s0) as (out1 & s1 & E1 & T1 & _). rewrite E1.
  destruct out1 as [[]|e].
  2:{ rewrite fatal_run. eexists _, _, _. split; [reflexivity|].
      split; [exact T1|]. left. exists e. split; reflexivity. }
  destruct (create_page_session s1) as (out2 & s2 & evs2 & E2 & T2 & Q2).
  destruct out2 as [page|e].
  - rewrite (bind_ok _ _ _ _ _ E2).
    destruct (execute_navigate_frame page target should_search query
                search_box_selector search_button_selector wait_for_results
                wait_timeout s2)
      as (r & s3 & E3 & _ & _ & _ & _ & evs3 & T3 & Q3).
    rewrite E3.
    destruct (exit_run s3) as (out4 & s4 & E4 & T4 & _). rewrite E4.
    assert (Htrace : trace s4 =
              (trace s ++ EEnter (Ok tt) :: (evs2 ++ evs3) ++ [EExit out4])%list).
    { rewrite T4, T3, T2, T1. cbn [trace s0]. rewrite <- !app_assoc. reflexivity. }
    assert (Hmid : no_session (evs2 ++ evs3)).
    { apply no_session_app; [exact Q2 | apply page_calls_no_session, Q3]. }
    destruct out4 as [[]|e].
    + exists r, s4. eexists. split; [reflexivity|]. split; [exact Htrace|].
      right. exists (evs2 ++ evs3)%list, (Ok tt). split; [reflexivity|].
      split; [exact Hmid | discriminate].
    + rewrite fatal_run. eexists _, _, _. split; [reflexivity|].
      split; [exact Htrace|].
      right. exists (evs2 ++ evs3)%list, (Raise e). split; [reflexivity|].
      split; [exact Hmid|]. intros _. split; reflexivity.
  - rewrite (bind_raise _ _ _ _ _ E2).
    destruct (exit_run s2) as (out4 & s4 & E4 & T4 & _). rewrite E4.
    assert (Htrace : trace s4 =
              (trace s ++ EEnter (Ok tt) :: evs2 ++ [EExit out4])%list).
    { rewrite T4, T2, T1. cbn [trace s0]. rewrite <- !app_assoc. reflexivity. }
    destruct out4 as [[]|e4]; rewrite fatal_run; eexists _, _, _;
      (split; [reflexivity|]); (split; [exact Htrace|]);
      right; eexists evs2, _; (split; [reflexivity|]);
      (split; [exact Q2|]); intros _; split; reflexivity.
Qed.

(** X6.  When the caller supplies a browser, a context or a page, the
    orchestrator manages no lifecycle: whatever the outcome of the call, it
    never enters or leaves Playwright and never launches a browser, so
    nothing the caller owns is torn down. *)
Theorem provided_no_ownership (target : string) (query : option string)
    (auto_search : bool) (search_box_selector search_button_selector : option string)
    (wait_for_results : bool) (wait_timeout : Z)
    (browser : option Browser) (context : option BrowserContext)
    (page : option Page) (s : St) :
  is_not_None browser || is_not_None context || is_not_None page = true ->
  exists evs,
    trace (snd (browser_navigate target query auto_search search_box_selector
                  search_button_selector wait_for_results wait_timeout
                  browser context page s)) = (trace s ++ evs)%list /\
    no_ownership evs.
Proof.
  intros Hsupplied.
  set (should_search := should_search_of query auto_search).
  assert (Hexec : forall p (t : St) evs0,
    trace t = (trace s ++ evs0)%list -> no_ownership evs0 ->
    exists evs,
      trace (snd (_execute_navigate p target should_search query
                    search_box_selector search_button_selector wait_for_results
                    wait_timeout t)) = (trace s ++ evs)%list /\
      no_ownership evs).
  { intros p t evs0 Tt Qt.
    destruct (execute_navigate_frame p target should_search query
                search_box_selector search_button_selector wait_for_results
                wait_timeout t)
      as (r & t' & E & _ & _ & _ & _ & evs & T & Q).
    rewrite E. cbn [snd]. exists (evs0 ++ evs)%list. split.
    - rewrite T, Tt. symmetry. apply app_assoc.
    - apply no_ownership_app; [exact Qt | apply page_calls_no_ownership, Q]. }
  destruct context as [c|], page as [p|].
  - rewrite provided_page_context.
    apply (Hexec p _ []); [symmetry; apply app_nil_r | reflexivity].
  - rewrite provided_context.
    set (s0 := mkSt (world s) [] [] (trace s)).
    destruct (new_page_ownership c s0) as (out1 & t1 & evs1 & E1 & T1 & Q1).
    destruct out1 as [p|e].
    + rewrite (bind_ok _ _ _ _ _ E1). apply (Hexec p t1 evs1 T1 Q1).
    + rewrite (bind_raise _ _ _ _ _ E1). exists evs1. split; assumption.
  - destruct browser as [b|].
    + rewrite provided_page_browser.
      set (s0 := mkSt (world s) [] [] (trace s)).
      destruct (create_context_ownership b s0) as (out1 & t1 & evs1 & E1 & T1 & Q1).
      destruct out1 as [c|e].
      * rewrite (bind_ok _ _ _ _ _ E1). apply (Hexec p t1 evs1 T1 Q1).
      * rewrite (bind_raise _ _ _ _ _ E1). exists evs1. split; assumption.
    + exists []. split; [symmetry; apply app_nil_r | reflexivity].
  - destruct browser as [b|]; [|discriminate].
    exists []. split; [symmetry; apply app_nil_r | reflexivity].
Qed.

End Ownership.

Lemma provided_no_ownership_witness :
  exists evs,
    trace (snd (browser_navigate (PW := Fixture.playwright Fixture.shop)
                  "https://shop.example" (Some "shoes") true None None
                  true 10000 None (Some Fixture.context0) (Some Fixture.page0)
                  (start Fixture.forever))) =
      (trace (start Fixture.forever) ++ evs)%list /\
    no_ownership evs.
Proof.
  apply (provided_no_ownership (PW := Fixture.playwright Fixture.shop)
           "https://shop.example" (Some "shoes") true None None true 10000
           None (Some Fixture.context0) (Some Fixture.page0)
           (start Fixture.forever)).
  reflexivity.
Defined.

(** ** More on the formatters *)

Lemma truthy_false_empty s : PyStr.truthy s = false -> s = "".
Proof. destruct s; [reflexivity | discriminate]. Qed.

Lemma dict_truthy_false node : PyDict.truthy node = false -> node = Dict [] None.
Proof.
  destruct node as [[|p attrs] [cs|]]; try discriminate; reflexivity.
Qed.

Lemma prop_lines_head prefix attrs keys :
  forall x lines, exists rest, prop_lines prefix attrs keys (x :: lines) = x :: rest.
Proof.
  induction keys as [|k keys IH]; intros x lines; cbn [prop_lines]; [eauto|].
  destruct (PyDict.lookup k attrs) as [v|]; [destruct (PyVal.is_not_none v)|];
    apply IH.
Qed.

(** A node that is true formats, in the richer variant too, to a string
    that is true. *)
Lemma format_node_rich_truthy node indent :
  PyDict.truthy node = true -> PyStr.truthy (format_node_rich node indent) = true.
Proof.
  destruct node as [attrs children]. intros H. cbn [format_node_rich]. rewrite H.
  cbn [negb].
  set (prefix := PyStr.times "  " indent).
  set (line := prefix ++ "[" ++ PyVal.str (PyDict.get attrs "role" (SStr "unknown")) ++ "]").
  assert (Hline : PyStr.truthy line = true).
  { apply truthy_app_r. reflexivity. }
  assert (Hhead : exists rest,
    prop_lines prefix attrs ["value"; "checked"; "selected"]
      (if PyVal.truthy (PyDict.get attrs "description" (SStr ""))
       then py_append
              (if PyVal.truthy (PyDict.get attrs "name" (SStr ""))
               then py_append [line]
                      (prefix ++ "  Name: " ++ PyVal.str (PyDict.get attrs "name" (SStr "")))
               else [line])
              (prefix ++ "  Description: "
               ++ PyVal.str (PyDict.get attrs "description" (SStr "")))
       else if PyVal.truthy (PyDict.get attrs "name" (SStr ""))
            then py_append [line]
                   (prefix ++ "  Name: " ++ PyVal.str (PyDict.get attrs "name" (SStr "")))
            else [line]) = line :: rest).
  { destruct (PyVal.truthy (PyDict.get attrs "description" (SStr ""))),
      (PyVal.truthy (PyDict.get attrs "name" (SStr "")));
      apply prop_lines_head. }
  destruct Hhead as (rest & Hhead). fold line. rewrite Hhead.
  destruct children as [cs|].
  - destruct (each_child_head (fun child => format_node_rich child (S indent)) cs
                line rest) as (rest' & ->).
    apply join_head_truthy, Hline.
  - apply join_head_truthy, Hline.
Qed.

(** X7.  In both variants, the only tree that formats to the empty string
    is the empty dict: at every indentation, [format_node] answers [""] for
    it and a non-empty string for every other node. *)
Theorem format_node_empty_iff (node : Node) (indent : nat) :
  (format_node node indent = "" <-> node = Dict [] None) /\
  (format_node_rich node indent = "" <-> node = Dict [] None).
Proof.
  split; split.
  - intros H. destruct (PyDict.truthy node) eqn:Ht.
    + apply (format_node_truthy node indent) in Ht. rewrite H in Ht. discriminate.
    + apply dict_truthy_false, Ht.
  - intros ->. reflexivity.
  - intros H. destruct (PyDict.truthy node) eqn:Ht.
    + apply (format_node_rich_truthy node indent) in Ht. rewrite H in Ht. discriminate.
    + apply dict_truthy_false, Ht.
  - intros ->. reflexivity.
Qed.

Lemma each_child_filter fmt cs :
  forall lines,
    each_child fmt cs lines = (lines ++ filter PyStr.truthy (map fmt cs))%list.
Proof.
  induction cs as [|c cs IH]; intros lines; cbn [each_child map filter].
  - symmetry. apply app_nil_r.
  - rewrite IH. destruct (PyStr.truthy (fmt c)); [|reflexivity].
    unfold py_append. rewrite <- app_assoc. reflexivity.
Qed.

Lemma filter_map_format (fmt : Node -> string) cs :
  (forall c, PyStr.truthy (fmt c) = PyDict.truthy c) ->
  filter PyStr.truthy (map fmt cs) = map fmt (filter PyDict.truthy cs).
Proof.
  intros H. induction cs as [|c cs IH]; [reflexivity|].
  cbn [map filter]. rewrite H, IH. destruct (PyDict.truthy c); reflexivity.
Qed.

Lemma format_node_truthy_eq node indent :
  PyStr.truthy (format_node node indent) = PyDict.truthy node.
Proof.
  destruct (PyDict.truthy node) eqn:Ht.
  - apply format_node_truthy, Ht.
  - rewrite (dict_truthy_false node Ht). reflexivity.
Qed.

Lemma join_cons_nonempty sep x rest :
  PyStr.join sep (x :: rest) =
  match rest with [] => x | _ => x ++ sep ++ PyStr.join sep rest end.
Proof. destruct rest; reflexivity. Qed.

(** X8.  A node with children formats to its own line (what the node
    formats to with its children removed) followed by what each child that
    is not the empty dict formats to one level deeper, in the order of the
    children and joined by newlines; a child that is the empty dict leaves
    nothing, not even a blank line. *)
Theorem format_node_children (attrs : list (string * Scalar)) (cs : list Node)
    (indent : nat) :
  format_node (Dict attrs (Some cs)) indent =
  PyStr.join PyStr.newline
    (format_node (Dict attrs (Some [])) indent
     :: map (fun child => format_node child (S indent)) (filter PyDict.truthy cs)).
Proof.
  cbn [format_node].
  replace (PyDict.truthy (Dict attrs (Some cs))) with true
    by (destruct attrs; reflexivity).
  replace (PyDict.truthy (Dict attrs (Some []))) with true
    by (destruct attrs; reflexivity).
  cbn [negb each_child]. rewrite each_child_filter.
  rewrite (filter_map_format (fun child => format_node child (S indent)) cs)
    by (intros c; apply format_node_truthy_eq).
  destruct (PyVal.truthy (PyDict.get attrs "name" (SStr ""))); reflexivity.
Qed.

Lemma str_app_assoc (a b c : string) : (a ++ b) ++ c = a ++ (b ++ c).
Proof. induction a as [|x a IH]; [reflexivity|]. cbn. rewrite IH. reflexivity. Qed.

Lemma str_app_nil_r (a : string) : a ++ "" = a.
Proof. induction a as [|x a IH]; [reflexivity|]. cbn. rewrite IH. reflexivity. Qed.

Lemma str_length_app (a b : string) :
  String.length (a ++ b) = (String.length a + String.length b)%nat.
Proof. induction a as [|x a IH]; [reflexivity|]. cbn. rewrite IH. reflexivity. Qed.

Lemma join_cons_more sep x (rest : list string) :
  rest <> [] -> PyStr.join sep (x :: rest) = x ++ sep ++ PyStr.join sep rest.
Proof. destruct rest; [congruence | reflexivity]. Qed.

Lemma join_flatten sep (a b : list string) :
  a <> [] -> PyStr.join sep (a ++ b) = PyStr.join sep (PyStr.join sep a :: b).
Proof.
  induction a as [|x a IH]; [congruence|]. intros _.
  destruct a as [|y a]; [reflexivity|].
  change ((x :: y :: a) ++ b)%list with (x :: ((y :: a) ++ b))%list.
  rewrite (join_cons_more sep x ((y :: a) ++ b)) by discriminate.
  rewrite IH by discriminate.
  rewrite (join_cons_more sep x (y :: a)) by discriminate.
  destruct b as [|b0 b]; [reflexivity|].
  rewrite !(join_cons_more sep _ (b0 :: b)) by discriminate.
  rewrite !str_app_assoc. reflexivity.
Qed.

Lemma format_node_rich_truthy_eq node indent :
  PyStr.truthy (format_node_rich node indent) = PyDict.truthy node.
Proof.
  destruct (PyDict.truthy node) eqn:Ht.
  - apply format_node_rich_truthy, Ht.
  - rewrite (dict_truthy_false node Ht). reflexivity.
Qed.

(** X9.  The same holds in the richer variant of [main.py]: a node with
    children formats to its own block of lines (what it formats to with its
    children removed) followed by what each child that is not the empty dict
    formats to one level deeper, in order, joined by newlines. *)
Theorem format_node_rich_children (attrs : list (string * Scalar))
    (cs : list Node) (indent : nat) :
  format_node_rich (Dict attrs (Some cs)) indent =
  PyStr.join PyStr.newline
    (format_node_rich (Dict attrs (Some [])) indent
     :: map (fun child => format_node_rich child (S indent))
          (filter PyDict.truthy cs)).
Proof.
  cbn [format_node_rich].
  replace (PyDict.truthy (Dict attrs (Some cs))) with true
    by (destruct attrs; reflexivity).
  replace (PyDict.truthy (Dict attrs (Some []))) with true
    by (destruct attrs; reflexivity).
  cbn [negb each_child].
  match goal with |- context [each_child _ cs ?H] => set (header := H) end.
  assert (Hne : header <> []).
  { subst header.
    destruct (PyVal.truthy (PyDict.get attrs "description" (SStr ""))),
      (PyVal.truthy (PyDict.get attrs "name" (SStr "")));
      match goal with |- prop_lines ?p ?a ?k ?l <> [] =>
        let l' := eval cbv [py_append app] in l in
        change l with l';
        match l' with ?x :: ?rest =>
          destruct (prop_lines_head p a k x rest) as (tail & ->) end
      end; discriminate. }
  rewrite each_child_filter.
  rewrite (filter_map_format (fun child => format_node_rich child (S indent)) cs)
    by (intros c; apply format_node_rich_truthy_eq).
  apply join_flatten, Hne.
Qed.

(** ** Texts *)

Lemma str_eqb_eq (a b : PyText.str) : PyText.eqb a b = true <-> a = b.
Proof.
  revert b. induction a as [|x a IH]; intros [|y b]; cbn; split; intros H;
    try reflexivity; try discriminate.
  - apply andb_true_iff in H. destruct H as [Hx Hab].
    apply N.eqb_eq in Hx. apply IH in Hab. subst. reflexivity.
  - inversion H; subst. rewrite N.eqb_refl. apply IH. reflexivity.
Qed.

Lemma str_eqb_refl (a : PyText.str) : PyText.eqb a a = true.
Proof. apply str_eqb_eq. reflexivity. Qed.

Lemma str_eqb_spec (a b : PyText.str) : reflect (a = b) (PyText.eqb a b).
Proof.
  destruct (PyText.eqb a b) eqn:E; constructor.
  - apply str_eqb_eq. exact E.
  - intros H. apply str_eqb_eq in H. congruence.
Qed.

Lemma startswith_app (p s : PyText.str) : PyText.startswith (p ++ s)%list p = true.
Proof.
  induction p as [|x p IH]; cbn; [destruct s; reflexivity|].
  rewrite N.eqb_refl. exact IH.
Qed.

Lemma rstrip_nonspace c (s : PyText.str) :
  PyText.is_space c = false -> PyText.rstrip (c :: s) = c :: PyText.rstrip s.
Proof.
  intros H. cbn [PyText.rstrip]. rewrite H. destruct (PyText.rstrip s); reflexivity.
Qed.

Lemma rstrip_idem (s : PyText.str) : PyText.rstrip (PyText.rstrip s) = PyText.rstrip s.
Proof.
  induction s as [|c s IH]; [reflexivity|]. cbn [PyText.rstrip].
  destruct (PyText.rstrip s) as [|d r] eqn:E.
  - destruct (PyText.is_space c) eqn:Hc; [reflexivity|].
    cbn. rewrite Hc. reflexivity.
  - cbn [PyText.rstrip] in *. rewrite IH. reflexivity.
Qed.

Lemma lstrip_head (s : PyText.str) :
  PyText.lstrip s = [] \/
  exists c r, PyText.lstrip s = c :: r /\ PyText.is_space c = false.
Proof.
  induction s as [|c s IH]; [left; reflexivity|]. cbn.
  destruct (PyText.is_space c) eqn:Hc; [exact IH|].
  right. exists c, s. split; [reflexivity | exact Hc].
Qed.

Lemma strip_head (s : PyText.str) :
  PyText.strip s = [] \/
  exists c r, PyText.strip s = c :: r /\ PyText.is_space c = false.
Proof.
  unfold PyText.strip. destruct (lstrip_head s) as [E | (c & r & E & Hc)]; rewrite E.
  - left. reflexivity.
  - right. exists c, (PyText.rstrip r). split; [apply rstrip_nonspace, Hc | exact Hc].
Qed.

Lemma strip_idem (s : PyText.str) : PyText.strip (PyText.strip s) = PyText.strip s.
Proof.
  destruct (strip_head s) as [E | (c & r & E & Hc)].
  - rewrite E. reflexivity.
  - unfold PyText.strip at 1. rewrite E. cbn [PyText.lstrip]. rewrite Hc.
    rewrite <- E. unfold PyText.strip. apply rstrip_idem.
Qed.

Lemma rstrip_strip (s : PyText.str) : PyText.rstrip (PyText.strip s) = PyText.strip s.
Proof. unfold PyText.strip. apply rstrip_idem. Qed.

(** ** The helpers of [main.py] *)

Lemma slice_to_nonneg {A : Type} (n : Z) (l : list A) :
  (0 <= n)%Z -> slice_to n l = firstn (Z.to_nat n) l.
Proof. intros H. unfold slice_to. destruct (Z.leb_spec 0 n); [reflexivity | lia]. Qed.

(** X10.  For a limit that is not negative, [_preview] answers at most
    [limit + 1] characters; it agrees with the text on its first [limit]
    characters; and a text of at most [limit] characters comes back
    unchanged, with no ellipsis. *)
Theorem preview_bound (char : Type) (ellipsis : char) (t : list char) (limit : Z) :
  (0 <= limit)%Z ->
  (Z.of_nat (length (Main._preview char ellipsis (Some t) limit)) <= limit + 1)%Z /\
  firstn (Z.to_nat limit) (Main._preview char ellipsis (Some t) limit) =
    firstn (Z.to_nat limit) t /\
  ((Z.of_nat (length t) <= limit)%Z ->
   Main._preview char ellipsis (Some t) limit = t).
Proof.
  intros Hlimit. unfold Main._preview.
  destruct (Z.leb_spec (Z.of_nat (length t)) limit) as [Hfit | Hlong].
  - split; [lia|]. split; [reflexivity | trivial].
  - rewrite slice_to_nonneg by exact Hlimit.
    assert (Hlen : length (firstn (Z.to_nat limit) t) = Z.to_nat limit).
    { rewrite length_firstn. lia. }
    split; [rewrite length_app, Hlen; cbn; lia|].
    split; [|lia].
    rewrite firstn_app, Hlen, Nat.sub_diag, firstn_firstn, Nat.min_id. cbn.
    apply app_nil_r.
Qed.

Lemma preview_bound_witness :
  (Z.of_nat (length (Main._preview nat 0%nat (Some [1; 2; 3; 4; 5]%nat) 3)) <= 3 + 1)%Z /\
  firstn (Z.to_nat 3) (Main._preview nat 0%nat (Some [1; 2; 3; 4; 5]%nat) 3) =
    firstn (Z.to_nat 3) [1; 2; 3; 4; 5]%nat /\
  ((Z.of_nat (length [1; 2; 3; 4; 5]%nat) <= 3)%Z ->
   Main._preview nat 0%nat (Some [1; 2; 3; 4; 5]%nat) 3 = [1; 2; 3; 4; 5]%nat).
Proof.
  apply (preview_bound nat 0%nat [1; 2; 3; 4; 5]%nat 3). lia.
Defined.

(** ** The snapshot cache of [main.py] *)

Lemma has_scheme_add_scheme u : Main.has_scheme (Main.add_scheme u) = true.
Proof.
  unfold Main.add_scheme. destruct (Main.has_scheme u) eqn:E; cbn [negb]; [exact E|].
  unfold Main.has_scheme. rewrite (startswith_app (PyText.lit "https://") u).
  apply orb_true_r.
Qed.

Lemma add_scheme_stripped u : PyText.strip u = u ->
  PyText.strip (Main.add_scheme u) = Main.add_scheme u.
Proof.
  intros Hu. unfold Main.add_scheme.
  destruct (Main.has_scheme u); cbn [negb]; [exact Hu|].
  assert (Hr : PyText.rstrip u = u).
  { rewrite <- Hu. apply rstrip_strip. }
  unfold PyText.strip.
  change (PyText.lit "https://" ++ u)%list
    with (104 :: 116 :: 116 :: 112 :: 115 :: 58 :: 47 :: 47 :: u)%N.
  cbn [PyText.lstrip]. change (PyText.is_space 104) with false. cbv iota.
  repeat (rewrite rstrip_nonspace by reflexivity).
  rewrite Hr. reflexivity.
Qed.

Section CacheKey.

Context {U : PyText.Unicode}.

(** X11.  The cache key of a URL, whatever the interpreter's [lower] makes
    of it, starts with [http://] or [https://] and has no white space at
    either end. *)
Theorem cache_key_normal (url : PyText.str) :
  Main.has_scheme (Main._get_cache_key url) = true /\
  stripped (Main._get_cache_key url).
Proof.
  unfold Main._get_cache_key, stripped.
  split; [apply has_scheme_add_scheme|].
  apply add_scheme_stripped, strip_idem.
Qed.

End CacheKey.

Section ODictFacts.

Context {V : Type}.

Lemma odict_get_set (key : string) (v : V) d :
  ODict.get key (ODict.set key v d) = Some v.
Proof.
  induction d as [|[k v0] rest IH]; cbn.
  - rewrite String.eqb_refl. reflexivity.
  - destruct (String.eqb key k) eqn:E; cbn; rewrite E; [reflexivity | exact IH].
Qed.

Lemma odict_get_set_other (key other : string) (v : V) d :
  other <> key -> ODict.get other (ODict.set key v d) = ODict.get other d.
Proof.
  intros Hne. induction d as [|[k v0] rest IH]; cbn.
  - destruct (String.eqb_spec other key); [contradiction | reflexivity].
  - destruct (String.eqb_spec key k) as [->|Hk]; cbn.
    + destruct (String.eqb_spec other k); [contradiction | reflexivity].
    + destruct (String.eqb other k); [reflexivity | exact IH].
Qed.

End ODictFacts.

Section TDictFacts.

Context {V : Type}.

Lemma tdict_get_set (key : PyText.str) (v : V) d :
  TDict.get key (TDict.set key v d) = Some v.
Proof.
  induction d as [|[k v0] rest IH]; cbn.
  - rewrite str_eqb_refl. reflexivity.
  - destruct (PyText.eqb key k) eqn:E; cbn; rewrite E; [reflexivity | exact IH].
Qed.

Lemma tdict_get_keys (key : PyText.str) (d : list (PyText.str * V)) :
  TDict.get key d = None <-> ~ In key (TDict.keys d).
Proof.
  induction d as [|[k v0] rest IH]; cbn.
  - split; [intros _ [] | reflexivity].
  - destruct (str_eqb_spec key k) as [->|Hk].
    + split; [discriminate | intros H; exfalso; apply H; left; reflexivity].
    + rewrite IH. split.
      * intros H [E|HIn]; [apply Hk; symmetry; exact E | exact (H HIn)].
      * intros H HIn. apply H. right. exact HIn.
Qed.

Lemma tdict_keys_set (key : PyText.str) (v : V) d :
  TDict.keys (TDict.set key v d) =
  match TDict.get key d with
  | Some _ => TDict.keys d
  | None => (TDict.keys d ++ [key])%list
  end.
Proof.
  induction d as [|[k v0] rest IH]; cbn; [reflexivity|].
  destruct (PyText.eqb key k); cbn; [reflexivity|].
  unfold TDict.keys in IH. rewrite IH.
  destruct (TDict.get key rest); reflexivity.
Qed.

Lemma tdict_set_nodup (key : PyText.str) (v : V) d :
  NoDup (TDict.keys d) -> NoDup (TDict.keys (TDict.set key v d)).
Proof.
  intros Hd. rewrite tdict_keys_set.
  destruct (TDict.get key d) eqn:E; [exact Hd|].
  apply tdict_get_keys in E.
  apply NoDup_app; [exact Hd | repeat constructor; intros [] | ].
  intros x Hx [<-|[]]. exact (E Hx).
Qed.

Lemma tdict_set_length (key : PyText.str) (v : V) d :
  (length (TDict.set key v d) <= S (length d))%nat.
Proof.
  induction d as [|[k v0] rest IH]; cbn; [lia|].
  destruct (PyText.eqb key k); cbn; lia.
Qed.

End TDictFacts.

Lemma store_snapshot_get key entry (cache : Main.Cache) :
  TDict.get key cache = None ->
  TDict.get key (Main.store_snapshot key entry cache) = Some entry.
Proof.
  intros Hmiss. unfold Main.store_snapshot.
  destruct (Z.gtb_spec (Z.of_nat (length (TDict.set key entry cache))) 50) as [Hgt|Hle];
    [|apply tdict_get_set].
  destruct cache as [|[k v0] rest]; cbn in *; [lia|].
  destruct (PyText.eqb key k) eqn:E; [discriminate|].
  cbn. rewrite str_eqb_refl. apply tdict_get_set.
Qed.

Lemma store_snapshot_bound key entry (cache : Main.Cache) :
  (length cache <= 50)%nat -> NoDup (TDict.keys cache) ->
  (length (Main.store_snapshot key entry cache) <= 50)%nat /\
  NoDup (TDict.keys (Main.store_snapshot key entry cache)).
Proof.
  intros Hlen Hnd. unfold Main.store_snapshot.
  pose proof (tdict_set_length key entry cache) as Hset.
  pose proof (tdict_set_nodup key entry cache Hnd) as Hnd'.
  destruct (Z.gtb_spec (Z.of_nat (length (TDict.set key entry cache))) 50) as [Hgt|Hle].
  - destruct (TDict.set key entry cache) as [|[k v0] rest]; cbn in *; [lia|].
    rewrite str_eqb_refl. split; [lia|]. inversion Hnd'; assumption.
  - split; [lia | exact Hnd'].
Qed.

Section SnapshotCache.

Context {U : PyText.Unicode}.

(** X12.  The snapshot cache never grows beyond 50 entries and never holds a
    key twice, whatever the request and whatever the generator answers. *)
Theorem snapshot_cache_bound generate request (cache : Main.Cache) :
  (length cache <= 50)%nat ->
  NoDup (TDict.keys cache) ->
  (length (snd (Main.get_playwright_snapshot generate request cache)) <= 50)%nat /\
  NoDup (TDict.keys (snd (Main.get_playwright_snapshot generate request cache))).
Proof.
  intros Hlen Hnd. unfold Main.get_playwright_snapshot.
  destruct (negb (PyText.truthy (PyText.strip (Main.req_url request))));
    [split; assumption|].
  destruct (Main.req_use_cache request &&
            Main._is_popular_site (Main.add_scheme (PyText.strip (Main.req_url request)))).
  - destruct (TDict.get _ cache); [split; assumption|].
    destruct (generate _); [|split; assumption].
    cbn [snd]. apply store_snapshot_bound; assumption.
  - destruct (generate _); split; assumption.
Qed.

(** X13.  Once a request for a popular site with [use_cache] has been
    answered, the same request is answered from the cache: the same snapshot,
    URL and token count, [cached] true, the generator not consulted and the
    cache left as it is. *)
Theorem snapshot_cache_round_trip generate request (cache : Main.Cache) r cache1 :
  Main.req_use_cache request = true ->
  Main._is_popular_site (Main.add_scheme (PyText.strip (Main.req_url request))) = true ->
  Main.get_playwright_snapshot generate request cache = (Main.Respond r, cache1) ->
  forall generate2,
    Main.get_playwright_snapshot generate2 request cache1 =
    (Main.Respond (Main.mkSnapshotResponse (Main.resp_snapshot r) (Main.resp_url r)
                     true (Main.resp_token_count r)),
     cache1).
Proof.
  intros Huse Hpop Hrun generate2. revert Hrun.
  unfold Main.get_playwright_snapshot.
  destruct (negb (PyText.truthy (PyText.strip (Main.req_url request)))); [discriminate|].
  rewrite Huse, Hpop. cbn [andb].
  set (url := Main.add_scheme (PyText.strip (Main.req_url request))).
  destruct (TDict.get (Main._get_cache_key url) cache) as [cd|] eqn:Hget.
  - intros Hrun. inversion Hrun; subst. rewrite Hget. reflexivity.
  - destruct (generate url) as [snapshot|]; [|discriminate].
    intros Hrun. inversion Hrun; subst.
    rewrite store_snapshot_get by exact Hget. reflexivity.
Qed.

End SnapshotCache.

Lemma snapshot_cache_bound_witness :
  (length (snd (Main.get_playwright_snapshot (U := PyText.ascii_text)
                  (fun _ => Main.Respond (PyText.lit "- page"))
                  (Main.mkSnapshotRequest (PyText.lit "github.com") true) [])) <= 50)%nat /\
  NoDup (TDict.keys (snd (Main.get_playwright_snapshot (U := PyText.ascii_text)
                            (fun _ => Main.Respond (PyText.lit "- page"))
                            (Main.mkSnapshotRequest (PyText.lit "github.com") true) []))).
Proof.
  apply (snapshot_cache_bound (U := PyText.ascii_text)
           (fun _ => Main.Respond (PyText.lit "- page"))
           (Main.mkSnapshotRequest (PyText.lit "github.com") true) []).
  - cbn. lia.
  - constructor.
Defined.

Lemma snapshot_cache_round_trip_witness :
  Main.get_playwright_snapshot (U := PyText.ascii_text)
    (fun _ => Main.HTTPException 500 "Failed to generate snapshot")
    (Main.mkSnapshotRequest (PyText.lit " GitHub.com/rocq ") true)
    [(PyText.lit "https://github.com/rocq",
      Main.mkCached (PyText.lit "- page") (PyText.lit "https://GitHub.com/rocq") 1)] =
  (Main.Respond (Main.mkSnapshotResponse (PyText.lit "- page")
                   (PyText.lit "https://GitHub.com/rocq") true (Some 1%Z)),
   [(PyText.lit "https://github.com/rocq",
     Main.mkCached (PyText.lit "- page") (PyText.lit "https://GitHub.com/rocq") 1)]).
Proof.
  apply (snapshot_cache_round_trip (U := PyText.ascii_text)
           (fun _ => Main.Respond (PyText.lit "- page"))
           (Main.mkSnapshotRequest (PyText.lit " GitHub.com/rocq ") true) []
           (Main.mkSnapshotResponse (PyText.lit "- page")
              (PyText.lit "https://GitHub.com/rocq") false (Some 1%Z))
           [(PyText.lit "https://github.com/rocq",
             Main.mkCached (PyText.lit "- page") (PyText.lit "https://GitHub.com/rocq") 1)]);
    reflexivity.
Defined.

(** ** [test_playwright_prompt] *)

Lemma slice_to_length {A : Type} (n : nat) (l : list A) :
  length (slice_to (Z.of_nat n) l) = Nat.min n (length l).
Proof.
  rewrite slice_to_nonneg by lia. rewrite Nat2Z.id. apply length_firstn.
Qed.

Lemma skipn_cons_nth {A : Type} (i : nat) (l : list A) x r :
  skipn i l = x :: r -> nth_error l i = Some x /\ skipn (S i) l = r.
Proof.
  revert l. induction i as [|i IH]; intros [|y l] H; cbn in H; try discriminate.
  - inversion H; subst. split; reflexivity.
  - apply IH in H. exact H.
Qed.

Lemma context_lines_length lines i : (length (Main.context_lines lines i) <= 5)%nat.
Proof.
  unfold Main.context_lines. rewrite length_skipn, length_firstn. lia.
Qed.

Lemma context_lines_in lines i line :
  nth_error lines i = Some line -> In line (Main.context_lines lines i).
Proof.
  intros H. unfold Main.context_lines.
  assert (Hi : (i < length lines)%nat).
  { apply nth_error_Some. rewrite H. discriminate. }
  apply (nth_error_In _ (i - (i - 2))).
  rewrite nth_error_skipn, nth_error_firstn.
  replace (i - 2 + (i - (i - 2)))%nat with i by lia.
  destruct (Nat.ltb_spec i (Nat.min (length lines) (i + 3))); [exact H | lia].
Qed.

Lemma firstn_Forall {A : Type} (P : A -> Prop) n (l : list A) :
  Forall P l -> Forall P (firstn n l).
Proof.
  intros H. revert n. induction H; intros [|n]; cbn; constructor; auto.
Qed.

Lemma firstn_sorted {A : Type} (R : A -> A -> Prop) n (l : list A) :
  StronglySorted R l -> StronglySorted R (firstn n l).
Proof.
  intros H. revert n. induction H; intros [|n]; cbn; constructor; auto.
  apply firstn_Forall. assumption.
Qed.

Section Prompt.

Context {U : PyText.Unicode}.

Lemma scan_lines_spec keywords lines remaining : forall i,
  skipn i lines = remaining ->
  Forall (match_of lines keywords) (Main.scan_lines keywords lines i remaining) /\
  Forall (fun m => (i < Main.match_line m)%nat)
    (Main.scan_lines keywords lines i remaining) /\
  StronglySorted lt (map Main.match_line (Main.scan_lines keywords lines i remaining)).
Proof.
  induction remaining as [|line rest IH]; intros i Hskip; cbn [Main.scan_lines].
  - repeat split; constructor.
  - destruct (skipn_cons_nth i lines line rest Hskip) as [Hnth Hrest].
    destruct (IH (S i) Hrest) as (Hall & Hlow & Hsorted).
    assert (Hlow' : Forall (fun m => (i < Main.match_line m)%nat)
                      (Main.scan_lines keywords lines (S i) rest)).
    { eapply Forall_impl; [|exact Hlow]. cbn. intros m Hm. lia. }
    destruct (existsb _ keywords) eqn:Hkw; [|split; [exact Hall | split; assumption]].
    split; [|split].
    + constructor; [|exact Hall].
      exists line, (Main.context_lines lines i). cbn.
      replace (i + 1 - 1)%nat with i by lia.
      split; [exact Hnth|]. split; [lia|]. split; [reflexivity|].
      split; [exact Hkw|]. split; [reflexivity|].
      split; [apply context_lines_length | apply context_lines_in, Hnth].
    + constructor; [cbn; lia | exact Hlow'].
    + cbn [map Main.match_line]. constructor; [exact Hsorted|].
      apply Forall_map. eapply Forall_impl; [|exact Hlow]. cbn. intros m Hm. lia.
Qed.

Lemma scan_lines_no_keyword lines remaining : forall i,
  Main.scan_lines [] lines i remaining = [].
Proof.
  induction remaining as [|line rest IH]; intros i; [reflexivity|].
  cbn. apply IH.
Qed.

(** X14.  When [test_playwright_prompt] answers, it lists the first ten of
    the matches it counted; every listed match names a line of the snapshot
    (counted from 1) whose lower case holds a keyword of the prompt, gives
    that line stripped, and a context of at most five lines that holds the
    line; the line numbers increase strictly; and a prompt with no keyword
    matches nothing. *)
Theorem prompt_matches (snapshot prompt : PyText.str) r :
  Main.test_playwright_prompt snapshot prompt = Main.Respond r ->
  length (Main.matches r) = Nat.min 10 (Main.total_matches r) /\
  Forall (match_of (PyText.split Main.newline snapshot)
            (Main.keywords_of (PyText.lower prompt)))
    (Main.matches r) /\
  StronglySorted lt (map Main.match_line (Main.matches r)) /\
  Main.prompt_echo r = prompt /\
  (Main.keywords_of (PyText.lower prompt) = [] -> Main.total_matches r = 0%nat).
Proof.
  unfold Main.test_playwright_prompt.
  destruct (negb (PyText.truthy snapshot) || negb (PyText.truthy prompt)); [discriminate|].
  intros H. inversion H; subst; clear H. cbn [Main.matches Main.total_matches Main.prompt_echo].
  set (lines := PyText.split Main.newline snapshot).
  set (keywords := Main.keywords_of (PyText.lower prompt)).
  destruct (scan_lines_spec keywords lines lines 0 eq_refl) as (Hall & _ & Hsorted).
  split; [apply (slice_to_length 10)|].
  rewrite slice_to_nonneg by lia.
  split; [apply firstn_Forall, Hall|].
  split; [rewrite <- firstn_map; apply firstn_sorted, Hsorted|].
  split; [reflexivity|].
  intros Hnone. rewrite Hnone, scan_lines_no_keyword. reflexivity.
Qed.

End Prompt.

Lemma prompt_matches_witness :
  exists r,
    Main.test_playwright_prompt (U := PyText.ascii_text)
      (PyText.lit "- button Login" ++ [Main.newline] ++ PyText.lit "- link Home")%list
      (PyText.lit "find the login button") = Main.Respond r /\
    length (Main.matches r) = Nat.min 10 (Main.total_matches r) /\
    Forall (match_of (U := PyText.ascii_text)
              (PyText.split Main.newline
                 (PyText.lit "- button Login" ++ [Main.newline] ++
                  PyText.lit "- link Home")%list)
              (Main.keywords_of
                 (PyText.lower (Unicode := PyText.ascii_text)
                    (PyText.lit "find the login button"))))
      (Main.matches r) /\
    StronglySorted lt (map Main.match_line (Main.matches r)) /\
    Main.prompt_echo r = PyText.lit "find the login button" /\
    (Main.keywords_of
       (PyText.lower (Unicode := PyText.ascii_text)
          (PyText.lit "find the login button")) = [] ->
     Main.total_matches r = 0%nat).
Proof.
  eexists. split; [reflexivity|].
  apply (prompt_matches (U := PyText.ascii_text)
           (PyText.lit "- button Login" ++ [Main.newline] ++ PyText.lit "- link Home")%list
           (PyText.lit "find the login button")).
  reflexivity.
Defined.

(** ** [policy.py] *)

Lemma endswith_app (pre p : PyText.str) : PyText.endswith (pre ++ p)%list p = true.
Proof.
  induction pre as [|c pre IH]; cbn [app].
  - destruct p; cbn [PyText.endswith]; rewrite str_eqb_refl; reflexivity.
  - cbn [PyText.endswith]. rewrite IH. apply orb_true_r.
Qed.

Lemma endswith_spec (s p : PyText.str) :
  PyText.endswith s p = true <-> exists pre, s = (pre ++ p)%list.
Proof.
  split.
  - induction s as [|c s IH]; cbn [PyText.endswith]; intros H.
    + rewrite orb_false_r in H. apply str_eqb_eq in H. exists []. exact H.
    + apply orb_true_iff in H. destruct H as [H|H].
      * apply str_eqb_eq in H. exists []. exact H.
      * destruct (IH H) as [pre ->]. exists (c :: pre). reflexivity.
  - intros [pre ->]. apply endswith_app.
Qed.

Section PolicyFacts.

Context {U : PyText.Unicode}.

Lemma host_in_spec host allowlist :
  Policy.host_in host allowlist = true <->
  exists allowed, In allowed allowlist /\
    (host = PyText.lower allowed \/
     exists sub, host = (sub ++ PyText.lit "." ++ PyText.lower allowed)%list).
Proof.
  induction allowlist as [|a rest IH]; cbn [Policy.host_in].
  - split; [discriminate | intros (x & [] & _)].
  - destruct (str_eqb_spec host (PyText.lower a)) as [Heq|Hne].
    { split; [|reflexivity]. intros _. exists a. split; [left; reflexivity | left; exact Heq]. }
    destruct (PyText.endswith host (PyText.lit "." ++ PyText.lower a)%list) eqn:Hend.
    { split; [|reflexivity]. intros _. exists a. split; [left; reflexivity|].
      right. apply endswith_spec. exact Hend. }
    rewrite IH. split.
    + intros (x & Hin & Hx). exists x. split; [right; exact Hin | exact Hx].
    + intros (x & [<-|Hin] & Hx); [|exists x; split; assumption].
      destruct Hx as [Hx|Hx]; [contradiction|].
      apply endswith_spec in Hx. congruence.
Qed.

(** X15.  A host passes the allowlist exactly when the list is empty, or
    when the lower case of the host is the lower case of an entry of the
    list, or ends with a dot followed by the lower case of an entry:
    [api.example.com] passes for [example.com], and a host that merely ends
    with the letters of an entry does not. *)
Theorem host_allowed_iff (host : PyText.str) (allowlisted_domains : list PyText.str) :
  Policy._host_allowed host allowlisted_domains = true <->
  allowlisted_domains = [] \/
  exists allowed, In allowed allowlisted_domains /\
    (PyText.lower host = PyText.lower allowed \/
     exists sub,
       PyText.lower host = (sub ++ PyText.lit "." ++ PyText.lower allowed)%list).
Proof.
  unfold Policy._host_allowed. destruct allowlisted_domains as [|a rest].
  - split; [left; reflexivity | reflexivity].
  - rewrite host_in_spec. split.
    + intros H. right. exact H.
    + intros [H|H]; [discriminate | exact H].
Qed.

Lemma host_in_app host l more :
  Policy.host_in host l = true -> Policy.host_in host (l ++ more) = true.
Proof.
  rewrite !host_in_spec. intros (x & Hin & Hx). exists x.
  split; [apply in_or_app; left; exact Hin | exact Hx].
Qed.

Lemma host_allowed_app host l more :
  l <> [] -> Policy._host_allowed host l = true ->
  Policy._host_allowed host (l ++ more) = true.
Proof.
  intros Hl. unfold Policy._host_allowed.
  destruct l as [|a rest]; [contradiction|].
  change ((a :: rest) ++ more)%list with (a :: (rest ++ more))%list.
  cbv iota. apply (host_in_app (PyText.lower host) (a :: rest) more).
Qed.

Lemma check_urls_spec urls allowlist :
  match Policy.check_urls urls allowlist with
  | Some decision =>
      exists url host,
        In url urls /\ Policy._domain_of url = Some host /\ host <> [] /\
        Policy._host_allowed host allowlist = false /\
        decision = Policy.not_allowlisted host
  | None =>
      forall url host,
        In url urls -> Policy._domain_of url = Some host -> host <> [] ->
        Policy._host_allowed host allowlist = true
  end.
Proof.
  induction urls as [|url rest IH]; cbn [Policy.check_urls].
  - intros url host [].
  - destruct (Policy._domain_of url) as [host|] eqn:Hdom.
    + destruct (PyText.truthy host && negb (Policy._host_allowed host allowlist)) eqn:Hbad.
      * apply andb_true_iff in Hbad. destruct Hbad as [Ht Hna].
        exists url, host. split; [left; reflexivity|]. split; [exact Hdom|].
        split; [intros ->; discriminate|].
        split; [apply negb_true_iff; exact Hna | reflexivity].
      * destruct (Policy.check_urls rest allowlist) as [d|].
        -- destruct IH as (u & h & Hin & Hu & Hne & Hna & Hd).
           exists u, h. split; [right; exact Hin|]. repeat split; assumption.
        -- intros u h [<-|Hin] Hu Hne; [|exact (IH u h Hin Hu Hne)].
           rewrite Hdom in Hu. inversion Hu; subst.
           apply andb_false_iff in Hbad. destruct Hbad as [Ht|Hna].
           ++ destruct h; [contradiction | discriminate].
           ++ apply negb_false_iff. exact Hna.
    + destruct (Policy.check_urls rest allowlist) as [d|].
      * destruct IH as (u & h & Hin & Hu & Hne & Hna & Hd).
        exists u, h. split; [right; exact Hin|]. repeat split; assumption.
      * intros u h [<-|Hin] Hu Hne; [congruence | exact (IH u h Hin Hu Hne)].
Qed.

(** X16.  A denial of [evaluate_invoke_policy] has one of two causes: the
    query, not blank, has more characters than [max_query_chars] (413,
    PAYLOAD_TOO_LARGE), or it is within the limit and one of its URLs has a
    host, not empty, that the allowlist, not empty, does not allow (403,
    DOMAIN_NOT_ALLOWED, the reason naming that host). *)
Theorem policy_denial_sound (query : PyText.str) (max_query_chars : Z)
    (allowlisted_domains : list PyText.str) :
  Policy.allowed
    (Policy.evaluate_invoke_policy query max_query_chars allowlisted_domains) = false ->
  PyText.strip query <> [] /\
  ((PyText.len query > max_query_chars)%Z /\
   Policy.evaluate_invoke_policy query max_query_chars allowlisted_domains =
     Policy.too_large query max_query_chars
   \/
   (PyText.len query <= max_query_chars)%Z /\
   allowlisted_domains <> [] /\
   exists url host,
     In url (Policy._extract_urls query) /\
     Policy._domain_of url = Some host /\
     host <> [] /\
     Policy._host_allowed host allowlisted_domains = false /\
     Policy.evaluate_invoke_policy query max_query_chars allowlisted_domains =
       Policy.not_allowlisted host).
Proof.
  unfold Policy.evaluate_invoke_policy.
  destruct (str_eqb_spec (PyText.strip query) (PyText.lit "")) as [Hblank|Hquery];
    [discriminate|].
  intros Hdenied. split; [exact Hquery|].
  destruct (Z.gtb_spec (PyText.len query) max_query_chars) as [Hlong|Hfit].
  - left. split; [lia | reflexivity].
  - right. split; [lia|].
    destruct (Policy._extract_urls query) as [|u us] eqn:Hurls; [discriminate|].
    destruct allowlisted_domains as [|a rest]; [discriminate|].
    split; [discriminate|].
    pose proof (check_urls_spec (u :: us) (a :: rest)) as Hcheck.
    destruct (Policy.check_urls (u :: us) (a :: rest)) as [d|]; [|discriminate].
    destruct Hcheck as (url & host & Hin & Hdom & Hne & Hna & ->).
    exists url, host. repeat split; assumption.
Qed.

(** X17.  When [evaluate_invoke_policy] allows a query that is not blank,
    the query has at most [max_query_chars] characters, and, the allowlist
    not being empty, every URL of the query whose host is not empty has an
    allowed host. *)
Theorem policy_allow_complete (query : PyText.str) (max_query_chars : Z)
    (allowlisted_domains : list PyText.str) :
  Policy.allowed
    (Policy.evaluate_invoke_policy query max_query_chars allowlisted_domains) = true ->
  PyText.strip query <> [] ->
  (PyText.len query <= max_query_chars)%Z /\
  (allowlisted_domains <> [] ->
   forall url host,
     In url (Policy._extract_urls query) ->
     Policy._domain_of url = Some host ->
     host <> [] ->
     Policy._host_allowed host allowlisted_domains = true).
Proof.
  unfold Policy.evaluate_invoke_policy.
  destruct (str_eqb_spec (PyText.strip query) (PyText.lit "")) as [Hblank|_];
    [intros _ Hquery; contradiction|].
  destruct (Z.gtb_spec (PyText.len query) max_query_chars) as [Hlong|Hfit];
    [discriminate|].
  intros Hallowed _. split; [lia|]. intros Hlist url host Hin.
  destruct (Policy._extract_urls query) as [|u us] eqn:Hurls; [destruct Hin|].
  destruct allowlisted_domains as [|a rest]; [contradiction|].
  pose proof (check_urls_spec (u :: us) (a :: rest)) as Hcheck.
  destruct (Policy.check_urls (u :: us) (a :: rest)) as [d|].
  - destruct Hcheck as (url' & host' & _ & _ & _ & _ & ->). discriminate.
  - apply Hcheck. exact Hin.
Qed.

(** X18.  The size limit comes first and knows no exception but the blank
    query: the decision is 413 exactly when the query is not blank and has
    more characters than [max_query_chars], whatever URLs it holds and
    whatever the allowlist; a blank query is allowed at any length. *)
Theorem policy_size_limit (query : PyText.str) (max_query_chars : Z)
    (allowlisted_domains : list PyText.str) :
  (Policy.status_code
     (Policy.evaluate_invoke_policy query max_query_chars allowlisted_domains) = 413%Z
   <-> PyText.strip query <> [] /\ (PyText.len query > max_query_chars)%Z) /\
  (PyText.strip query = [] ->
   Policy.evaluate_invoke_policy query max_query_chars allowlisted_domains =
     Policy.allow).
Proof.
  unfold Policy.evaluate_invoke_policy.
  destruct (str_eqb_spec (PyText.strip query) (PyText.lit "")) as [Hblank|Hquery].
  - split; [|reflexivity]. split; [discriminate | intros [H _]; contradiction].
  - split; [|contradiction].
    destruct (Z.gtb_spec (PyText.len query) max_query_chars) as [Hlong|Hfit].
    + split; [intros _; split; [exact Hquery | lia] | reflexivity].
    + split; [|intros [_ H]; lia].
      destruct (Policy._extract_urls query) as [|u us]; [discriminate|].
      destruct allowlisted_domains as [|a rest]; [discriminate|].
      pose proof (check_urls_spec (u :: us) (a :: rest)) as Hcheck.
      destruct (Policy.check_urls (u :: us) (a :: rest)) as [d|]; [|discriminate].
      destruct Hcheck as (url' & host' & _ & _ & _ & _ & ->). discriminate.
Qed.

Lemma check_urls_app urls l more :
  l <> [] ->
  Policy.check_urls urls l = None -> Policy.check_urls urls (l ++ more) = None.
Proof.
  intros Hl. induction urls as [|url rest IH]; cbn [Policy.check_urls]; [reflexivity|].
  destruct (Policy._domain_of url) as [host|]; [|exact IH].
  destruct (PyText.truthy host); cbn [andb]; [|exact IH].
  destruct (Policy._host_allowed host l) eqn:Hok; cbn [negb]; [|discriminate].
  rewrite (host_allowed_app host l more Hl Hok). exact IH.
Qed.

(** X19.  Adding domains to an allowlist that is not empty never turns an
    allowed query into a denied one. *)
Theorem policy_allowlist_monotone (query : PyText.str) (max_query_chars : Z)
    (allowlisted_domains more : list PyText.str) :
  allowlisted_domains <> [] ->
  Policy.allowed
    (Policy.evaluate_invoke_policy query max_query_chars allowlisted_domains) = true ->
  Policy.allowed
    (Policy.evaluate_invoke_policy query max_query_chars
       (allowlisted_domains ++ more)) = true.
Proof.
  intros Hlist. unfold Policy.evaluate_invoke_policy.
  destruct (PyText.eqb (PyText.strip query) (PyText.lit "")); [trivial|].
  destruct (PyText.len query >? max_query_chars)%Z; [trivial|].
  destruct (Policy._extract_urls query) as [|u us]; [trivial|].
  destruct allowlisted_domains as [|a rest] eqn:Hl; [contradiction|].
  rewrite <- Hl in *.
  assert (Hshape : exists b tail, (allowlisted_domains ++ more)%list = b :: tail).
  { rewrite Hl. cbn. eauto. }
  destruct Hshape as (b & tail & Happ).
  pose proof (check_urls_spec (u :: us) allowlisted_domains) as Hcheck.
  pose proof (check_urls_app (u :: us) allowlisted_domains more Hlist) as Hmono.
  rewrite Happ in *.
  destruct (Policy.check_urls (u :: us) allowlisted_domains) as [d|].
  - destruct Hcheck as (url' & host' & _ & _ & _ & _ & ->). discriminate.
  - rewrite (Hmono eq_refl). trivial.
Qed.

End PolicyFacts.

Lemma policy_denial_sound_witness :
  PyText.strip (PyText.lit "open https://evil-example.com/login") <> [] /\
  ((PyText.len (PyText.lit "open https://evil-example.com/login") > 100)%Z /\
   Policy.evaluate_invoke_policy (U := PyText.ascii_text)
     (PyText.lit "open https://evil-example.com/login") 100 [PyText.lit "example.com"] =
     Policy.too_large (PyText.lit "open https://evil-example.com/login") 100
   \/
   (PyText.len (PyText.lit "open https://evil-example.com/login") <= 100)%Z /\
   [PyText.lit "example.com"] <> [] /\
   exists url host,
     In url (Policy._extract_urls (PyText.lit "open https://evil-example.com/login")) /\
     Policy._domain_of (U := PyText.ascii_text) url = Some host /\
     host <> [] /\
     Policy._host_allowed (U := PyText.ascii_text) host [PyText.lit "example.com"] = false /\
     Policy.evaluate_invoke_policy (U := PyText.ascii_text)
       (PyText.lit "open https://evil-example.com/login") 100 [PyText.lit "example.com"] =
       Policy.not_allowlisted host).
Proof.
  apply (policy_denial_sound (U := PyText.ascii_text)
           (PyText.lit "open https://evil-example.com/login") 100
           [PyText.lit "example.com"]).
  reflexivity.
Defined.

Lemma policy_allow_complete_witness :
  (PyText.len (PyText.lit "open https://Api.Example.com:8443/v1 (docs)") <= 100)%Z /\
  ([PyText.lit "example.com"] <> [] ->
   forall url host,
     In url (Policy._extract_urls
               (PyText.lit "open https://Api.Example.com:8443/v1 (docs)")) ->
     Policy._domain_of (U := PyText.ascii_text) url = Some host ->
     host <> [] ->
     Policy._host_allowed (U := PyText.ascii_text) host [PyText.lit "example.com"] = true).
Proof.
  apply (policy_allow_complete (U := PyText.ascii_text)
           (PyText.lit "open https://Api.Example.com:8443/v1 (docs)") 100
           [PyText.lit "example.com"]).
  - reflexivity.
  - discriminate.
Defined.

Lemma policy_allowlist_monotone_witness :
  Policy.allowed
    (Policy.evaluate_invoke_policy (U := PyText.ascii_text)
       (PyText.lit "open https://docs.example.com/ and http://rocq.org")
       100 ([PyText.lit "example.com"; PyText.lit "rocq.org"] ++
            [PyText.lit "github.com"])) = true.
Proof.
  apply (policy_allowlist_monotone (U := PyText.ascii_text)
           (PyText.lit "open https://docs.example.com/ and http://rocq.org")
           100 [PyText.lit "example.com"; PyText.lit "rocq.org"]
           [PyText.lit "github.com"]).
  - discriminate.
  - reflexivity.
Defined.

(** ** [state_store.py] and the task endpoints *)

Lemma in_list_spec x l : PyStr.in_list x l = true <-> In x l.
Proof.
  unfold PyStr.in_list. rewrite existsb_exists. split.
  - intros (y & Hin & Heq). apply String.eqb_eq in Heq. subst. exact Hin.
  - intros Hin. exists x. split; [exact Hin | apply String.eqb_refl].
Qed.

Lemma remove_in x y l : In y (StateStore.remove x l) -> In y l.
Proof.
  induction l as [|z l IH]; cbn; [trivial|].
  destruct (String.eqb z x); [intros H; right; exact H|].
  intros [H|H]; [left; exact H | right; exact (IH H)].
Qed.

Lemma remove_nodup x l :
  NoDup l -> NoDup (StateStore.remove x l) /\ ~ In x (StateStore.remove x l).
Proof.
  induction 1 as [|z l Hz Hl IH]; cbn.
  - split; [constructor | intros []].
  - destruct (String.eqb_spec z x) as [->|Hne]; [split; assumption|].
    destruct IH as [Hnd Hx]. split.
    + constructor; [|exact Hnd]. intros Hin. apply Hz. exact (remove_in _ _ _ Hin).
    + intros [H|H]; [exact (Hne H) | exact (Hx H)].
Qed.

Lemma firstn_nodup {A : Type} n (l : list A) : NoDup l -> NoDup (firstn n l).
Proof.
  intros H. revert n. induction H as [|x l Hx Hl IH]; intros [|n]; cbn;
    try constructor; [|apply IH].
  intros Hin. apply Hx. revert Hin. clear. revert n.
  induction l as [|y l IH]; intros [|n]; cbn; try tauto.
  intros [H|H]; [left; exact H | right; exact (IH n H)].
Qed.

Lemma firstn_in {A : Type} n (l : list A) x : In x (firstn n l) -> In x l.
Proof.
  revert n. induction l as [|y l IH]; intros [|n]; cbn; try tauto.
  intros [H|H]; [left; exact H | right; exact (IH n H)].
Qed.

Lemma slice_to_cons {A : Type} (n : Z) (x : A) l :
  (0 < n)%Z -> slice_to n (x :: l) = x :: firstn (Z.to_nat n - 1) l.
Proof.
  intros Hn. rewrite slice_to_nonneg by lia.
  destruct (Z.to_nat n) as [|k] eqn:E; [lia|].
  cbn. rewrite Nat.sub_0_r. reflexivity.
Qed.

Section StoreFacts.

Context {timestamp text : Type}.

Local Abbreviation Store := (StateStore.InMemoryStateStore timestamp text).
Local Abbreviation TaskRecord := (StateStore.TaskRecord timestamp text).

(** X20.  A record put into the store is the one read back under its id;
    the records of the other ids and the list of recent ids are as before. *)
Theorem store_put_get (self : Store) (record : TaskRecord) (ttl_seconds : Z) :
  StateStore.get_task (StateStore.put_task self record ttl_seconds)
    (StateStore.task_id record) = Some record /\
  (forall id, id <> StateStore.task_id record ->
     StateStore.get_task (StateStore.put_task self record ttl_seconds) id =
     StateStore.get_task self id) /\
  (forall limit,
     StateStore.list_recent (StateStore.put_task self record ttl_seconds) limit =
     StateStore.list_recent self limit).
Proof.
  unfold StateStore.get_task, StateStore.put_task, StateStore.list_recent. cbn.
  split; [apply odict_get_set|].
  split; [intros id Hne; apply odict_get_set_other; exact Hne | reflexivity].
Qed.

(** X21.  On a list of recent ids without repetition, [add_recent] with a
    positive [max_items] puts the id first, keeps the list free of
    repetition and within [max_items], brings in no other id, and leaves the
    records alone. *)
Theorem add_recent_spec (self : Store) (id : string) (max_items : Z) :
  NoDup (StateStore._recent self) ->
  (0 < max_items)%Z ->
  hd_error (StateStore._recent (StateStore.add_recent self id max_items)) = Some id /\
  NoDup (StateStore._recent (StateStore.add_recent self id max_items)) /\
  (Z.of_nat (length (StateStore._recent (StateStore.add_recent self id max_items)))
     <= max_items)%Z /\
  (forall x, In x (StateStore._recent (StateStore.add_recent self id max_items)) ->
     x = id \/ In x (StateStore._recent self)) /\
  (forall other,
     StateStore.get_task (StateStore.add_recent self id max_items) other =
     StateStore.get_task self other).
Proof.
  intros Hnd Hmax. unfold StateStore.add_recent, StateStore.get_task. cbn.
  set (recent := if PyStr.in_list id (StateStore._recent self)
                 then StateStore.remove id (StateStore._recent self)
                 else StateStore._recent self).
  assert (Hrecent : NoDup recent /\ ~ In id recent /\
                    forall x, In x recent -> In x (StateStore._recent self)).
  { unfold recent. destruct (PyStr.in_list id (StateStore._recent self)) eqn:Hin.
    - destruct (remove_nodup id _ Hnd) as [H1 H2].
      split; [exact H1|]. split; [exact H2|]. intros x. apply remove_in.
    - split; [exact Hnd|]. split; [|trivial].
      intros H. apply in_list_spec in H. congruence. }
  destruct Hrecent as (Hnd' & Hfresh & Hsub).
  rewrite slice_to_cons by exact Hmax.
  split; [reflexivity|].
  split.
  { constructor; [|apply firstn_nodup, Hnd'].
    intros H. apply Hfresh. exact (firstn_in _ _ _ H). }
  split.
  { cbn [length]. rewrite length_firstn. lia. }
  split; [|reflexivity].
  intros x [H|H]; [left; symmetry; exact H|].
  right. apply Hsub. exact (firstn_in _ _ _ H).
Qed.

End StoreFacts.

Lemma add_recent_spec_witness :
  hd_error (StateStore._recent
              (StateStore.add_recent (timestamp := Z) (text := string)
                 (StateStore.mkStore [] ["t1"; "t2"; "t3"]) "t2" 2)) = Some "t2" /\
  NoDup (StateStore._recent
           (StateStore.add_recent (timestamp := Z) (text := string)
              (StateStore.mkStore [] ["t1"; "t2"; "t3"]) "t2" 2)) /\
  (Z.of_nat (length (StateStore._recent
                       (StateStore.add_recent (timestamp := Z) (text := string)
                          (StateStore.mkStore [] ["t1"; "t2"; "t3"]) "t2" 2)))
     <= 2)%Z /\
  (forall x, In x (StateStore._recent
                     (StateStore.add_recent (timestamp := Z) (text := string)
                        (StateStore.mkStore [] ["t1"; "t2"; "t3"]) "t2" 2)) ->
     x = "t2" \/
     In x (StateStore._recent (timestamp := Z) (text := string)
             (StateStore.mkStore [] ["t1"; "t2"; "t3"]))) /\
  (forall other,
     StateStore.get_task
       (StateStore.add_recent (timestamp := Z) (text := string)
          (StateStore.mkStore [] ["t1"; "t2"; "t3"]) "t2" 2) other =
     StateStore.get_task (StateStore.mkStore [] ["t1"; "t2"; "t3"]) other).
Proof.
  apply (add_recent_spec (timestamp := Z) (text := string)
           (StateStore.mkStore [] ["t1"; "t2"; "t3"]) "t2" 2).
  - cbn. repeat constructor; cbn; intuition discriminate.
  - lia.
Defined.

Section TaskFacts.

Variable char : Type.
Variable ellipsis : char.
Variable timestamp : Type.
Variable _sha256 : list char -> string.

Local Abbreviation Store := (StateStore.InMemoryStateStore timestamp (list char)).
Local Abbreviation TaskRecord := (StateStore.TaskRecord timestamp (list char)).

Lemma records_of_spec (store : Store) task_ids :
  (length (Tasks.records_of char timestamp store task_ids) <= length task_ids)%nat /\
  Forall (fun rec => exists id, In id task_ids /\ StateStore.get_task store id = Some rec)
    (Tasks.records_of char timestamp store task_ids).
Proof.
  induction task_ids as [|tid rest [IHlen IHall]]; cbn [Tasks.records_of].
  - split; [cbn; lia | constructor].
  - assert (Hrest : Forall (fun rec => exists id, In id (tid :: rest) /\
                              StateStore.get_task store id = Some rec)
                      (Tasks.records_of char timestamp store rest)).
    { eapply Forall_impl; [|exact IHall]. cbn. intros rec (id & Hin & Hget).
      exists id. split; [right; exact Hin | exact Hget]. }
    destruct (StateStore.get_task store tid) as [rec|] eqn:Hget.
    + split; [cbn; lia|]. constructor; [|exact Hrest].
      exists tid. split; [left; reflexivity | exact Hget].
    + split; [cbn; lia | exact Hrest].
Qed.

(** X22.  [list_tasks] refuses with 401 exactly the callers that are not
    authorized; to the others it answers at most 200 records, whatever
    [limit] is asked, and each is the stored record of one of the recent
    ids. *)
Theorem list_tasks_bounded (api_key authorization : option string) (limit : Z)
    (store : Store) :
  match Tasks.list_tasks char timestamp api_key authorization limit store with
  | Main.Respond tasks =>
      Tasks.unauthorized api_key authorization = false /\
      (length tasks <= 200)%nat /\
      Forall (fun rec => exists id,
                In id (StateStore._recent store) /\
                StateStore.get_task store id = Some rec) tasks
  | Main.HTTPException status _ =>
      Tasks.unauthorized api_key authorization = true /\ status = 401%Z
  end.
Proof.
  unfold Tasks.list_tasks.
  destruct (Tasks.unauthorized api_key authorization); [split; reflexivity|].
  split; [reflexivity|].
  set (ids := StateStore.list_recent store (Z.max 1 (Z.min 200 limit))).
  destruct (records_of_spec store ids) as [Hlen Hall].
  assert (Hids : (length ids <= 200)%nat /\
                 forall id, In id ids -> In id (StateStore._recent store)).
  { unfold ids, StateStore.list_recent. rewrite slice_to_nonneg by lia.
    split; [rewrite length_firstn; lia | intros id; apply firstn_in]. }
  destruct Hids as [Hshort Hsub].
  split; [lia|].
  eapply Forall_impl; [|exact Hall]. cbn. intros rec (id & Hin & Hget).
  exists id. split; [apply Hsub; exact Hin | exact Hget].
Qed.

Lemma preview_length (t : list char) (limit : Z) :
  (0 <= limit)%Z ->
  (Z.of_nat (length (Main._preview char ellipsis (Some t) limit)) <= limit + 1)%Z.
Proof.
  intros Hlimit. unfold Main._preview.
  destruct (Z.leb_spec (Z.of_nat (length t)) limit) as [Hfit | Hlong]; [lia|].
  rewrite slice_to_nonneg by exact Hlimit.
  rewrite length_app, length_firstn. cbn. lia.
Qed.

(** X23.  A run that starts is recorded and listed: after [start_task] the
    store holds the new record under the task id, with one attempt more than
    the record it replaces (1 for a new id) and the creation time of that
    record (the start time for a new id), a query preview of at most 501
    characters, the records of the other ids untouched; and, [recent_tasks_max]
    being positive, [list_tasks] answers an authorized caller with that
    record first. *)
Theorem started_task_listed (started : timestamp) (id : string) (query : list char)
    (task_ttl_seconds recent_tasks_max : Z) (store : Store)
    (api_key authorization : option string) (limit : Z) :
  (0 < recent_tasks_max)%Z ->
  Tasks.unauthorized api_key authorization = false ->
  let record :=
    fst (Tasks.start_task char ellipsis timestamp _sha256 started id query
           task_ttl_seconds recent_tasks_max store) in
  let store' :=
    snd (Tasks.start_task char ellipsis timestamp _sha256 started id query
           task_ttl_seconds recent_tasks_max store) in
  StateStore.get_task store' id = Some record /\
  StateStore.attempts record =
    match StateStore.get_task store id with
    | Some e => (StateStore.attempts e + 1)%Z
    | None => 1%Z
    end /\
  StateStore.created_at record =
    match StateStore.get_task store id with
    | Some e => StateStore.created_at e
    | None => started
    end /\
  (Z.of_nat (length (StateStore.query_preview record)) <= 501)%Z /\
  (forall other, other <> id ->
     StateStore.get_task store' other = StateStore.get_task store other) /\
  exists rest,
    Tasks.list_tasks char timestamp api_key authorization limit store' =
    Main.Respond (record :: rest).
Proof.
  intros Hmax Hauth record store'.
  assert (Hget : StateStore.get_task store' id = Some record).
  { unfold store', record, Tasks.start_task, StateStore.get_task,
      StateStore.add_recent, StateStore.put_task. cbn. apply odict_get_set. }
  split; [exact Hget|].
  split; [reflexivity|]. split; [reflexivity|].
  split; [apply (preview_length query 500); lia|].
  split.
  { intros other Hne.
    unfold store', Tasks.start_task, StateStore.get_task,
      StateStore.add_recent, StateStore.put_task. cbn.
    apply odict_get_set_other. exact Hne. }
  unfold Tasks.list_tasks. rewrite Hauth.
  assert (Hrecent : exists tail, StateStore._recent store' = id :: tail).
  { unfold store', Tasks.start_task, StateStore.add_recent. cbn.
    rewrite slice_to_cons by exact Hmax. eauto. }
  destruct Hrecent as [tail Htail].
  unfold StateStore.list_recent. rewrite Htail.
  rewrite slice_to_cons by lia. cbn [Tasks.records_of]. rewrite Hget. eauto.
Qed.

End TaskFacts.

Lemma started_task_listed_witness :
  StateStore.get_task
    (snd (Tasks.start_task ascii "."%char Z (fun _ => "digest") 7%Z "t1"
            ["h"; "i"]%char 3600 200 StateStore.init)) "t1" =
    Some (fst (Tasks.start_task ascii "."%char Z (fun _ => "digest") 7%Z "t1"
                 ["h"; "i"]%char 3600 200 StateStore.init)) /\
  StateStore.attempts
    (fst (Tasks.start_task ascii "."%char Z (fun _ => "digest") 7%Z "t1"
            ["h"; "i"]%char 3600 200 StateStore.init)) = 1%Z /\
  exists rest,
    Tasks.list_tasks ascii Z (Some "secret") (Some "Bearer secret") 50
      (snd (Tasks.start_task ascii "."%char Z (fun _ => "digest") 7%Z "t1"
              ["h"; "i"]%char 3600 200 StateStore.init)) =
    Main.Respond
      (fst (Tasks.start_task ascii "."%char Z (fun _ => "digest") 7%Z "t1"
              ["h"; "i"]%char 3600 200 StateStore.init) :: rest).
Proof.
  destruct (started_task_listed ascii "."%char Z (fun _ => "digest") 7%Z "t1"
              ["h"; "i"]%char 3600 200 StateStore.init
              (Some "secret") (Some "Bearer secret") 50)
    as (Hget & Hattempts & _ & _ & _ & Hlist).
  - lia.
  - reflexivity.
  - split; [exact Hget|]. split; [exact Hattempts | exact Hlist].
Defined.

Section TaskOutcome.

Variable char : Type.
Variable ellipsis : char.
Variable timestamp : Type.
Variable _sha256 : list char -> string.

Local Abbreviation Store := (StateStore.InMemoryStateStore timestamp (list char)).

(** X24.  The outcome of a run is written over the record of its start:
    after success the record of the task id has status [succeeded], no error
    and an output preview of at most 1001 characters; after failure it has
    status [failed] and an error preview of at most 1001 characters; both
    keep the attempts, the creation time and the query preview of the start,
    and neither touches the list of recent ids.  A failure for an id the
    store does not know writes nothing. *)
Theorem task_outcome_recorded (started finished : timestamp) (id : string)
    (query error : list char) (answer : option (list char))
    (task_ttl_seconds recent_tasks_max : Z) (store : Store) :
  let record :=
    fst (Tasks.start_task char ellipsis timestamp _sha256 started id query
           task_ttl_seconds recent_tasks_max store) in
  let store1 :=
    snd (Tasks.start_task char ellipsis timestamp _sha256 started id query
           task_ttl_seconds recent_tasks_max store) in
  let succeeded :=
    Tasks.task_succeeded char ellipsis timestamp finished record answer
      task_ttl_seconds store1 in
  let failed :=
    Tasks.task_failed char ellipsis timestamp finished id error
      task_ttl_seconds store1 in
  (exists output,
     StateStore.get_task succeeded id =
       Some (StateStore.mkTask id (StateStore.created_at record) finished "succeeded"
               (StateStore.attempts record) (StateStore.query_preview record)
               (StateStore.query_sha256 record) (Some output) None) /\
     (Z.of_nat (length output) <= 1001)%Z) /\
  (exists message,
     StateStore.get_task failed id =
       Some (StateStore.mkTask id (StateStore.created_at record) finished "failed"
               (StateStore.attempts record) (StateStore.query_preview record)
               (StateStore.query_sha256 record) None (Some message)) /\
     (Z.of_nat (length message) <= 1001)%Z) /\
  StateStore._recent succeeded = StateStore._recent store1 /\
  StateStore._recent failed = StateStore._recent store1 /\
  (forall unknown s,
     StateStore.get_task s unknown = None ->
     Tasks.task_failed char ellipsis timestamp finished unknown error
       task_ttl_seconds s = s).
Proof.
  intros record store1 succeeded failed.
  assert (Hget : StateStore.get_task store1 id = Some record).
  { unfold store1, record, Tasks.start_task, StateStore.get_task,
      StateStore.add_recent, StateStore.put_task. cbn. apply odict_get_set. }
  split; [|split; [|split; [|split]]].
  - exists (Main._preview char ellipsis answer 1000).
    split; [|destruct answer as [t|];
             [apply (preview_length char ellipsis t 1000); lia | cbn; lia]].
    unfold succeeded, Tasks.task_succeeded, StateStore.get_task, StateStore.put_task.
    cbn. apply odict_get_set.
  - exists (Main._preview char ellipsis (Some error) 1000).
    split; [|apply (preview_length char ellipsis error 1000); lia].
    unfold failed, Tasks.task_failed. rewrite Hget.
    unfold StateStore.get_task, StateStore.put_task.
    cbn. apply odict_get_set.
  - reflexivity.
  - unfold failed, Tasks.task_failed. rewrite Hget. reflexivity.
  - intros unknown s Hnone. unfold Tasks.task_failed. rewrite Hnone. reflexivity.
Qed.

End TaskOutcome.

(** ** [config.py] *)

Lemma split_no_sep sep s :
  Forall (fun part => ~ has_char sep part) (PyText.split sep s).
Proof.
  unfold has_char. induction s as [|c s IH]; cbn [PyText.split].
  - constructor; [intros [] | constructor].
  - destruct (N.eqb_spec c sep) as [->|Hne].
    + constructor; [intros [] | exact IH].
    + destruct (PyText.split sep s) as [|part parts].
      * constructor; [|constructor]. cbn. intros [H|[]]. exact (Hne H).
      * inversion IH as [|? ? Hpart Hparts]; subst.
        constructor; [|exact Hparts]. cbn. intros [H|H]; [exact (Hne H) | exact (Hpart H)].
Qed.

Lemma lstrip_has_char c s : has_char c (PyText.lstrip s) -> has_char c s.
Proof.
  unfold has_char. induction s as [|d s IH]; cbn; [trivial|].
  destruct (PyText.is_space d); [intros H; right; exact (IH H) | trivial].
Qed.

Lemma rstrip_has_char c s : has_char c (PyText.rstrip s) -> has_char c s.
Proof.
  unfold has_char. induction s as [|d s IH]; cbn [PyText.rstrip]; [trivial|].
  destruct (PyText.rstrip s) as [|e r].
  - destruct (PyText.is_space d); cbn; [intros [] | intros [H|[]]; left; exact H].
  - cbn in *. intros [H|H]; [left; exact H | right; exact (IH H)].
Qed.

Lemma strip_has_char c s : has_char c (PyText.strip s) -> has_char c s.
Proof.
  unfold PyText.strip. intros H. apply lstrip_has_char, rstrip_has_char, H.
Qed.

Lemma stripped_parts_spec (P : PyText.str -> Prop) parts :
  Forall P parts ->
  Forall (fun entry => entry <> [] /\ stripped entry /\
                       exists part, P part /\ entry = PyText.strip part)
    (Config.stripped_parts parts).
Proof.
  induction 1 as [|part rest Hpart Hrest IH]; cbn [Config.stripped_parts];
    [constructor|].
  destruct (PyText.strip part) eqn:E; cbn [PyText.truthy]; [exact IH|].
  constructor; [|exact IH]. rewrite <- E.
  split; [rewrite E; discriminate|].
  split; [apply strip_idem|]. exists part. split; [exact Hpart | reflexivity].
Qed.

(** X25.  Every entry that [_get_csv] reads is a piece of the variable
    between commas, stripped: it is not empty, has no white space at its ends
    and holds no comma; without the variable, or with a blank one, the list
    is empty. *)
Theorem get_csv_entries (name : PyText.str) (env : Config.Env) :
  Forall (fun entry => entry <> [] /\ stripped entry /\
                       ~ has_char (PyText.chr ",") entry)
    (Config._get_csv name env) /\
  (Config._get_env name None env = None -> Config._get_csv name env = []).
Proof.
  unfold Config._get_csv.
  destruct (Config._get_env name None env) as [v|]; [|split; [constructor | reflexivity]].
  split; [|discriminate].
  destruct (negb (PyText.truthy v)); [constructor|].
  eapply Forall_impl; [|apply stripped_parts_spec, (split_no_sep (PyText.chr ",") v)].
  cbn beta. intros entry (Hne & Hstripped & part & Hpart & ->).
  split; [exact Hne|]. split; [exact Hstripped|].
  intros H. apply Hpart. exact (strip_has_char _ _ H).
Qed.

(** X26.  What [_get_env] answers is never blank: it is the value of the
    variable, or the default when the variable is not set, stripped, and it
    is not empty; a value that is blank reads as [None]. *)
Theorem get_env_stripped (name : PyText.str) (default : option PyText.str)
    (env : Config.Env) (v : PyText.str) :
  Config._get_env name default env = Some v ->
  v <> [] /\ stripped v /\
  exists raw,
    match TDict.get name env with Some set => Some set | None => default end = Some raw /\
    v = PyText.strip raw.
Proof.
  unfold Config._get_env.
  destruct (match TDict.get name env with Some set => Some set | None => default end)
    as [raw|]; [|discriminate].
  destruct (str_eqb_spec (PyText.strip raw) (PyText.lit "")) as [Hblank|Hvalue];
    cbn [negb]; [discriminate|].
  intros H. inversion H; subst.
  split; [exact Hvalue|]. split; [apply strip_idem|].
  exists raw. split; reflexivity.
Qed.

Lemma get_env_stripped_witness :
  PyText.lit "redis://cache:6379" <> [] /\ stripped (PyText.lit "redis://cache:6379") /\
  exists raw,
    match TDict.get (PyText.lit "REDIS_URL")
            [(PyText.lit "API_KEY", PyText.lit "k");
             (PyText.lit "REDIS_URL", (160 :: PyText.lit " redis://cache:6379 ")%N)]
    with Some set => Some set | None => None end = Some raw /\
    PyText.lit "redis://cache:6379" = PyText.strip raw.
Proof.
  apply (get_env_stripped (PyText.lit "REDIS_URL") None
           [(PyText.lit "API_KEY", PyText.lit "k");
            (PyText.lit "REDIS_URL", (160 :: PyText.lit " redis://cache:6379 ")%N)]
           (PyText.lit "redis://cache:6379")).
  reflexivity.
Defined.

(** ** The two patterns of [policy.py] *)

Lemma take_while_spec f s :
  (forall c, has_char c (Policy.take_while f s) -> f c = true) /\
  exists rest,
    s = (Policy.take_while f s ++ rest)%list /\
    match rest with [] => True | c :: _ => f c = false end.
Proof.
  unfold has_char. induction s as [|d s [IHc (rest & IHr & IHstop)]];
    cbn [Policy.take_while].
  - split; [intros c [] | exists []; split; [reflexivity | exact I]].
  - destruct (f d) eqn:Hd.
    + split.
      * cbn. intros c [<-|H]; [exact Hd | exact (IHc c H)].
      * exists rest. split; [cbn; f_equal; exact IHr | exact IHstop].
    + split; [intros c [] | exists (d :: s); split; [reflexivity | exact Hd]].
Qed.

Lemma split_head sep s :
  exists h parts,
    PyText.split sep s = h :: parts /\
    ~ has_char sep h /\
    exists rest,
      s = (h ++ rest)%list /\
      match rest with [] => True | c :: _ => c = sep end.
Proof.
  unfold has_char.
  induction s as [|d s (h & parts & Hsplit & Hsep & rest & Hs & Hstop)];
    cbn [PyText.split].
  - exists [], []. split; [reflexivity|]. split; [intros []|].
    exists []. split; [reflexivity | exact I].
  - destruct (N.eqb_spec d sep) as [->|Hne].
    + exists [], (PyText.split sep s). split; [reflexivity|].
      split; [intros []|]. exists (sep :: s). split; reflexivity.
    + rewrite Hsplit. exists (d :: h), parts. split; [reflexivity|].
      split.
      * cbn. intros [H|H]; [exact (Hne H) | exact (Hsep H)].
      * exists rest. split; [cbn; f_equal; exact Hs | exact Hstop].
Qed.

Lemma drop_prefix_app p : forall s rest,
  Policy.drop_prefix p s = Some rest ->
  exists pre,
    s = (pre ++ rest)%list /\ length pre = length p /\
    forall tail, Policy.drop_prefix p (pre ++ tail)%list = Some tail.
Proof.
  induction p as [|f p IH]; intros s rest H.
  - destruct s; cbn in H; inversion H; subst; exists [];
      (split; [reflexivity|]); (split; [reflexivity|]); intros tail;
      destruct tail; reflexivity.
  - destruct s as [|b s]; cbn in H; [discriminate|].
    destruct (f b) eqn:Hfb; [|discriminate].
    destruct (IH s rest H) as (pre & -> & Hlen & Hpre).
    exists (b :: pre). split; [reflexivity|].
    split; [cbn; f_equal; exact Hlen|].
    intros tail. cbn. rewrite Hfb. apply Hpre.
Qed.

Lemma https_not_http pre tail :
  (forall t, Policy.drop_prefix Policy.http_scheme (pre ++ t)%list = Some t) ->
  length pre = 7%nat ->
  Policy.drop_prefix Policy.https_scheme (pre ++ tail)%list = None.
Proof.
  intros Hpre Hlen.
  destruct pre as [|c1 [|c2 [|c3 [|c4 [|c5 [|c6 [|c7 [|c8 pre]]]]]]]];
    cbn in Hlen; try discriminate.
  specialize (Hpre []). cbn in Hpre. cbn.
  destruct (Policy.is_h c1); [|reflexivity].
  destruct (Policy.is_t c2); [|reflexivity].
  destruct (Policy.is_t c3); [|reflexivity].
  destruct (Policy.is_p c4); [|reflexivity].
  destruct (Policy.is_char ":" c5) eqn:H5; [|discriminate].
  unfold Policy.is_char in H5. apply N.eqb_eq in H5. subst c5. reflexivity.
Qed.

Lemma after_scheme_app s rest :
  Policy.after_scheme s = Some rest ->
  exists pre,
    s = (pre ++ rest)%list /\
    forall tail, Policy.after_scheme (pre ++ tail)%list = Some tail.
Proof.
  unfold Policy.after_scheme.
  destruct (Policy.drop_prefix Policy.https_scheme s) as [r|] eqn:Hs.
  - intros H. inversion H; subst.
    destruct (drop_prefix_app _ _ _ Hs) as (pre & -> & _ & Hpre).
    exists pre. split; [reflexivity|]. intros tail. rewrite Hpre. reflexivity.
  - intros H. destruct (drop_prefix_app _ _ _ H) as (pre & -> & Hlen & Hpre).
    exists pre. split; [reflexivity|]. intros tail.
    rewrite (https_not_http pre tail Hpre Hlen). apply Hpre.
Qed.

Section DomainOf.

Context {U : PyText.Unicode}.

(** X28.  The host that [_domain_of] reads from a URL is the lower case of
    what stands between the scheme ([http://] or [https://], in any case)
    and the first slash or colon after it: the URL is the scheme, then that
    text, which holds neither a slash nor a colon, then nothing or a slash or
    a colon and the rest. *)
Theorem domain_of_host (url host : PyText.str) :
  Policy._domain_of url = Some host ->
  exists authority name rest,
    scheme_then url authority /\
    authority = (name ++ rest)%list /\
    ~ has_char (PyText.chr "/") name /\
    ~ has_char (PyText.chr ":") name /\
    match rest with
    | [] => True
    | c :: _ => c = PyText.chr "/" \/ c = PyText.chr ":"
    end /\
    host = PyText.lower name.
Proof.
  unfold Policy._domain_of, scheme_then.
  destruct (Policy.after_scheme url) as [authority|]; [|discriminate].
  destruct (take_while_spec Policy.not_slash authority)
    as [Hchars (tail & Htail & Hstop)].
  destruct (Policy.take_while Policy.not_slash authority) as [|c group] eqn:Hgroup;
    [discriminate|].
  rewrite <- Hgroup in *. clear Hgroup.
  set (before_slash := Policy.take_while Policy.not_slash authority) in *.
  destruct (split_head (PyText.chr ":") before_slash)
    as (h & parts & -> & Hcolon & port & Hport & Hportstop).
  intros H. inversion H; subst host; clear H.
  exists authority, h, (port ++ tail)%list.
  split; [reflexivity|].
  split; [rewrite app_assoc, <- Hport; exact Htail|].
  split.
  { intros Hin. assert (Hb : has_char (PyText.chr "/") before_slash).
    { rewrite Hport. apply in_or_app. left. exact Hin. }
    specialize (Hchars _ Hb). discriminate. }
  split; [exact Hcolon|].
  split; [|reflexivity].
  destruct port as [|p port]; cbn.
  - destruct tail as [|t tail]; [exact I|]. left.
    unfold Policy.not_slash in Hstop. apply negb_false_iff, N.eqb_eq in Hstop. exact Hstop.
  - right. exact Hportstop.
Qed.

End DomainOf.

Lemma domain_of_host_witness :
  exists authority name rest,
    scheme_then (PyText.lit "HTTPS://Api.Example.com:8443/v1/items") authority /\
    authority = (name ++ rest)%list /\
    ~ has_char (PyText.chr "/") name /\
    ~ has_char (PyText.chr ":") name /\
    match rest with
    | [] => True
    | c :: _ => c = PyText.chr "/" \/ c = PyText.chr ":"
    end /\
    PyText.lit "api.example.com" =
      PyText.lower (Unicode := PyText.ascii_text) name.
Proof.
  apply (domain_of_host (U := PyText.ascii_text)
           (PyText.lit "HTTPS://Api.Example.com:8443/v1/items")
           (PyText.lit "api.example.com")).
  reflexivity.
Defined.

Lemma firstn_length_app {A : Type} (a b : list A) : firstn (length a) (a ++ b) = a.
Proof.
  induction a as [|x a IH]; cbn; [reflexivity|]. f_equal. exact IH.
Qed.

(** What [_URL_RE] matches: a scheme, then at least one character, none of
    them white space or a closing parenthesis. *)
Lemma match_url_spec s u :
  Policy.match_url s = Some u ->
  PyText.startswith s u = true /\
  exists body,
    scheme_then u body /\ body <> [] /\
    forall c, has_char c body -> Policy.url_char c = true.
Proof.
  unfold Policy.match_url, scheme_then.
  destruct (Policy.after_scheme s) as [rest|] eqn:Hs; [|discriminate].
  destruct (after_scheme_app s rest Hs) as (pre & -> & Hpre).
  destruct (take_while_spec Policy.url_char rest) as [Hchars (rest' & Hrest & _)].
  remember (Policy.take_while Policy.url_char rest) as found eqn:Hfound.
  clear Hfound Hs.
  destruct found as [|c body]; [discriminate|].
  set (found := c :: body) in *.
  assert (Hne : found <> []) by discriminate.
  clearbody found. subst rest.
  intros H. inversion H; subst u; clear H.
  assert (Hlen : (length (pre ++ found ++ rest') - length (found ++ rest') +
                  length found)%nat = length (pre ++ found)).
  { rewrite !length_app. lia. }
  rewrite Hlen, app_assoc, firstn_length_app.
  split; [apply startswith_app|].
  exists found. split; [apply Hpre|].
  split; [exact Hne | exact Hchars].
Qed.

Lemma contains_tail u c s :
  PyText.contains u s = true -> PyText.contains u (c :: s) = true.
Proof.
  intros H. cbn [PyText.contains]. rewrite H. apply orb_true_r.
Qed.

Lemma contains_prefix u s :
  PyText.startswith s u = true -> PyText.contains u s = true.
Proof.
  intros H. destruct s; cbn [PyText.contains]; rewrite H; reflexivity.
Qed.

(** X29.  Every URL that [_extract_urls] finds stands in the text as it is
    written there, starts with [http://] or [https://] in any case (the long
    s counting as an s), goes on with at least one character, and holds
    after the scheme neither white space nor a closing parenthesis. *)
Theorem extract_urls_wellformed (text : PyText.str) :
  Forall (fun url =>
            PyText.contains url text = true /\
            exists body,
              scheme_then url body /\ body <> [] /\
              forall c, has_char c body -> Policy.url_char c = true)
    (Policy._extract_urls text).
Proof.
  unfold Policy._extract_urls. generalize 0%nat.
  induction text as [|c text IH]; intros skip; cbn [Policy.find_urls]; [constructor|].
  assert (Hlift : forall k,
            Forall (fun url =>
                      PyText.contains url (c :: text) = true /\
                      exists body,
                        scheme_then url body /\ body <> [] /\
                        forall d, has_char d body -> Policy.url_char d = true)
              (Policy.find_urls k text)).
  { intros k. eapply Forall_impl; [|exact (IH k)]. cbn beta.
    intros url [Hin Hbody]. split; [apply contains_tail; exact Hin | exact Hbody]. }
  destruct skip as [|k]; [|apply Hlift].
  destruct (Policy.match_url (c :: text)) as [u|] eqn:Hu; [|apply Hlift].
  constructor; [|apply Hlift].
  destruct (match_url_spec _ _ Hu) as [Hprefix Hbody].
  split; [apply contains_prefix; exact Hprefix | exact Hbody].
Qed.
